(** * AMS binding pipeline: identifier index, accessors, PTDF partition,
    parameter references and the routine life cycle

  Shallow embedding of
  - [ams/core/model.py]        ([Model.get], [Model.idx2uid], [Model._one_idx2uid]),
  - [ams/core/matprocessor.py] ([MatProcessor.make]),
  - [ams/core/param.py]        ([RParam]),
  - [ams/routines/dcpf.py], [ams/routines/acopf.py] ([unpack], [run]),
  - [ams/routines/uc.py]       ([UCModel._initial_guess]),
  - [ams/routines/ed.py]       ([EDData.__init__]),
  - [ams/solver/pypower/runopf.py] ([runopf]).

  Python objects live in a store: an attribute array is an object with
  an identity ([loc]); device attributes hold references to such
  objects, so that in-place writes and rebinding can be told apart. *)

From stdpp Require Import gmap strings list fin_maps.
From Stdlib Require Import ZArith QArith.

Set Warnings "-register-all".

Local Open Scope string_scope.
Local Open Scope Z_scope.
Local Open Scope nat_scope.
Local Open Scope list_scope.

(** ** Exceptions and outcomes *)

Module Py.

Inductive exn :=
| KeyError | IndexError | TypeError | AttributeError | ValueError
| NotImplementedError.

Inductive outcome (A : Type) :=
| Ok (a : A)
| Raise (e : exn).
Arguments Ok {A} a.
Arguments Raise {A} e.

Definition bind {A B} (o : outcome A) (f : A → outcome B) : outcome B :=
  match o with
  | Ok a => f a
  | Raise e => Raise e
  end.

Definition map_ok {A B} (f : A → B) (o : outcome A) : outcome B :=
  bind o (λ a, Ok (f a)).

(** A list comprehension whose element expression may raise: elements
    are evaluated left to right and the first exception escapes. *)
Fixpoint comprehension {A B} (f : A → outcome B) (l : list A) : outcome (list B) :=
  match l with
  | [] => Ok []
  | x :: l' =>
      bind (f x) (λ y, bind (comprehension f l') (λ ys, Ok (y :: ys)))
  end.

Definition is_ok {A} (o : outcome A) : bool :=
  match o with Ok _ => true | Raise _ => false end.

(** Code that also mutates: a state transformer that ends normally or
    by an exception; either way the writes done so far are kept. *)
Definition M (S A : Type) : Type := S → outcome A * S.

Definition ret {S A} (a : A) : M S A := λ s, (Ok a, s).
Definition raise {S A} (e : exn) : M S A := λ s, (Raise e, s).
Definition mlet {S A B} (c : M S A) (k : A → M S B) : M S B :=
  λ s, match c s with
       | (Ok a, s') => k a s'
       | (Raise e, s') => (Raise e, s')
       end.
Definition lift {S A} (o : outcome A) : M S A := λ s, (o, s).
Definition gets {S A} (f : S → A) : M S A := λ s, (Ok (f s), s).
Definition modify {S} (f : S → S) : M S unit := λ s, (Ok tt, f s).

(** A [for] loop whose body returns nothing. *)
Fixpoint for_each {S A} (body : A → M S unit) (l : list A) : M S unit :=
  match l with
  | [] => ret tt
  | x :: l' => mlet (body x) (λ _, for_each body l')
  end.

(** The computation [c] leaves the observation [f] of the state as it
    was, however it ends. *)
Definition keeps {S A X} (f : S → X) (c : M S A) : Prop :=
  ∀ s, f (snd (c s)) = f s.

End Py.
Export Py.

#[global] Instance outcome_bind : MBind outcome := λ A B f o, Py.bind o f.
#[global] Instance outcome_ret : MRet outcome := @Py.Ok.
#[global] Instance outcome_fmap : FMap outcome := @Py.map_ok.
#[global] Instance M_bind {S} : MBind (M S) := λ A B k c, Py.mlet c k.
#[global] Instance M_ret {S} : MRet (M S) := @Py.ret S.

(** ** Numbers

  The arithmetic of array entries (IEEE doubles in NumPy) is kept
  abstract: every definition below is parametric in an implementation
  of this interface, and no theorem depends on rounding. *)

Class Arith (num : Type) := {
num_of_Z : Z → num;                 (* float(z), and integer literals *)
num_lit : Z → positive → num;       (* a decimal literal n/d, e.g. 0.3 *)
num_add : num → num → num;
num_mul : num → num → num;
num_div : num → num → num;
num_to_int : num → Z;               (* int(x): truncation *)
num_eqb : num → num → bool;         (* x == y *)
num_leb : num → num → bool;         (* x <= y *)
deg2rad : num;                      (* andes.shared.deg2rad *)
}.

(** ** Identifiers ([idx]) and arguments of [idx2uid] *)

Inductive ident :=
| IInt (z : Z)
| IStr (s : string).

#[global] Instance ident_eq_dec : EqDecision ident.
Proof. solve_decision. Defined.

#[global] Instance ident_countable : Countable ident.
Proof.
refine (inj_countable'
          (λ i, match i with IInt z => inl z | IStr s => inr s end)
          (λ x, match x with inl z => IInt z | inr s => IStr s end) _).
by intros [].
Defined.

(** What a caller may pass as [idx]: [None], one identifier, or a
  sequence whose elements are again such arguments (a list of lists is
  a sequence of sequences). *)
Inductive idx_arg :=
| XNone
| XId (i : ident)
| XSeq (l : list idx_arg).

(** What [idx2uid] returns: [None], one position, or a list of positions
  in which [None] entries are kept. *)
Inductive uid_res :=
| UNone
| UOne (k : nat)
| UMany (ks : list (option nat)).

Module Index.

(** [Model._one_idx2uid]: membership test in the dictionary [self.uid],
    then the lookup. A list is not hashable, so testing it against the
    dictionary is a [TypeError]. *)
Definition _one_idx2uid (uid : gmap ident nat) (idx : idx_arg) : outcome nat :=
  match idx with
  | XId i =>
      match uid !! i with
      | Some k => Ok k
      | None => Raise KeyError
      end
  | XNone => Raise KeyError
  | XSeq _ => Raise TypeError
  end.

(** [andes.utils.func.list_flatten] on a list whose first element is a
    list: [functools.reduce(operator.iconcat, input_list, [])]. Each
    element is appended with [+=]: a list contributes its elements, a
    string its characters, anything else is not iterable. *)
Definition iconcat (acc : list idx_arg) (x : idx_arg) : outcome (list idx_arg) :=
  match x with
  | XSeq l => Ok (acc ++ l)
  | XId (IStr s) =>
      Ok (acc ++ map (λ c, XId (IStr (String c EmptyString)))
                     (String.list_ascii_of_string s))
  | XId (IInt _) | XNone => Raise TypeError
  end.

Fixpoint reduce_iconcat (acc : list idx_arg) (l : list idx_arg) : outcome (list idx_arg) :=
  match l with
  | [] => Ok acc
  | x :: l' => acc' ← iconcat acc x; reduce_iconcat acc' l'
  end.

Definition list_flatten (input_list : list idx_arg) : outcome (list idx_arg) :=
  match input_list with
  | XSeq _ :: _ => reduce_iconcat [] input_list
  | _ => Ok input_list
  end.

(** The comprehension
    [[self._one_idx2uid(i) if i is not None else None for i in idx]]. *)
Definition resolve_seq (uid : gmap ident nat) (l : list idx_arg) : outcome (list (option nat)) :=
  comprehension
    (λ i, match i with
          | XNone => Ok None
          | _ => Some <$> _one_idx2uid uid i
          end) l.

(** [Model.idx2uid]. The final [NotImplementedError] branch is for
    objects that are neither [None], a scalar nor iterable; [idx_arg]
    has no such value. *)
Definition idx2uid (uid : gmap ident nat) (idx : idx_arg) : outcome uid_res :=
  match idx with
  | XNone => Ok UNone
  | XId _ => UOne <$> _one_idx2uid uid idx
  | XSeq l =>
      l' ← (match l with
            | XSeq _ :: _ => list_flatten l
            | _ => Ok l
            end);
      UMany <$> resolve_seq uid l'
  end.

End Index.

(** ** Array objects, Device Collections and the system *)

Module Store.
Section WithArith.
Context {num : Type} {AR : Arith num}.

(** An array entry: a number, or an identifier (a reference to another
    device such as a generator's [bus], or a string datum). *)
Inductive cell :=
| CNum (x : num)
| CId (i : ident).

(** Python's [==] on entries: an integer identifier compares with a
    float by value, a string equals no number. *)
Definition cell_eqb (a b : cell) : bool :=
  match a, b with
  | CNum x, CNum y => num_eqb x y
  | CId (IInt z), CNum y => num_eqb (num_of_Z z) y
  | CNum x, CId (IInt z) => num_eqb x (num_of_Z z)
  | CId i, CId j => bool_decide (i = j)
  | _, _ => false
  end.

(** [x in seq]: some element equals [x]. *)
Definition py_in (x : cell) (seq : list cell) : bool :=
  existsb (cell_eqb x) seq.

(** How an attribute is stored: a plain Python [list], or a NumPy
    [ndarray] (what [list2array] leaves behind). *)
Inductive storage :=
| SList (l : list cell)
| SArray (l : list cell).

Definition contents (s : storage) : list cell :=
  match s with SList l | SArray l => l end.

Definition loc := nat.

(** What an expression evaluates to when it is a fresh object. *)
Inductive value :=
| VCell (c : cell)
| VList (l : list cell)
| VArray (l : list cell)
| VArray2 (rows : list (list cell)).

(** A Device Collection ([ams.core.model.Model] mixed with the data
    class of the device). [fields] is [self.__dict__[src].__dict__[attr]]:
    each attribute object ([src]) has facets ([attr]: [v], [a], [e])
    that reference array objects. *)
Record model := Model {
  class_name : string;
  group : string;
  idx_v : list ident;
  uid : gmap ident nat;
  fields : gmap string (gmap string loc);
}.

Definition n (self : model) : nat := length (idx_v self).

(** The invariant of the identifier index: the dictionary [uid] maps an
    identifier to the position at which it was registered in [idx.v]. *)
Definition index_inv (self : model) : Prop :=
  ∀ i k, uid self !! i = Some k ↔ idx_v self !! k = Some i.

(** Modelled from the spec: a Group of collections (the group framework
    is not under src/): its member collections in registration order. *)
Record groupbase := GroupBase {
  g_class_name : string;
  g_models : list string;
}.

(** The objects reachable as attributes of [system]. [o_others] are
    objects that are neither a Device Collection nor a Group; all that
    [unpack] asks of them is whether they have a [class_name]. *)
Record system := System {
  s_models : gmap string model;
  s_groups : gmap string groupbase;
  s_others : gmap string (option string);
  heap : gmap loc storage;
  recent : option string;
  s_routines : gmap string string;
}.

Definition deref (h : gmap loc storage) (l : loc) : storage :=
  default (SArray []) (h !! l).

(** [lst[k]] on a Python list or a one-dimensional array. *)
Definition getitem (l : list cell) (k : nat) : outcome cell :=
  match l !! k with
  | Some c => Ok c
  | None => Raise IndexError
  end.

(** [arr[uid]] for an [ndarray] and a list of positions: an index list
    that contains [None] is not an integer index ([IndexError]);
    otherwise the entries are gathered into a new array. *)
Definition take_positions (l : list cell) (ks : list (option nat)) : outcome (list cell) :=
  comprehension
    (λ k, match k with
          | Some i => getitem l i
          | None => Raise IndexError
          end) ks.

Definition field (self : model) (src attr : string) : outcome loc :=
  match fields self !! src with
  | Some facets =>
      match facets !! attr with
      | Some l => Ok l
      | None => Raise KeyError
      end
  | None => Raise KeyError
  end.

(** The current entries of an attribute array of a collection, if the
    collection has the attribute. *)
Definition read (h : gmap loc storage) (self : model) (src attr : string)
  : option (list cell) :=
  match field self src attr with
  | Ok a => Some (contents (deref h a))
  | Raise _ => None
  end.

(** [Model.get]. *)
Definition get (h : gmap loc storage) (self : model) (src : string) (idx : idx_arg)
    (attr : string) (allow_none : bool) (default : cell) : outcome value :=
  u ← Index.idx2uid (uid self) idx;
  a ← field self src attr;
  match deref h a, u with
  | SList l, UMany ks =>
      if negb allow_none && existsb (λ k, bool_decide (k = None)) ks
      then Raise KeyError
      else
        VList <$> comprehension
                    (λ i, match i with
                          | Some k => getitem l k
                          | None => Ok default
                          end) ks
  | SList l, UOne k => VCell <$> getitem l k
  | SList l, UNone => Raise TypeError
  | SArray l, UMany ks => VArray <$> take_positions l ks
  | SArray l, UOne k => VCell <$> getitem l k
  | SArray l, UNone => Ok (VArray2 [l])
  end.

End WithArith.

Arguments cell : clear implicits.
Arguments storage : clear implicits.
Arguments value : clear implicits.
Arguments system : clear implicits.

End Store.

(** ** Groups of collections *)

Module Group.
Section WithArith.
Context {num : Type} {AR : Arith num}.
Import Store.

(** The member collections, in registration order. *)
Definition members (sys : system num) (self : groupbase) : list model :=
  omap (λ name, s_models sys !! name) (g_models self).

(** Modelled from the spec: group membership resolution (the group
    framework is not under src/) produces the ordered identifier list
    of the group: the members' identifiers in registration order. *)
Definition get_idx (sys : system num) (self : groupbase) : list ident :=
  concat (idx_v <$> members sys self).

(** The invariant of a group: every member keeps the index invariant,
    and no identifier is registered in two members. *)
Definition group_inv (sys : system num) (self : groupbase) : Prop :=
  Forall index_inv (members sys self)
  ∧ ∀ p1 p2 m1 m2 i,
      members sys self !! p1 = Some m1 → members sys self !! p2 = Some m2 →
      is_Some (uid m1 !! i) → is_Some (uid m2 !! i) → p1 = p2.

(** The member collection that registered identifier [i]. *)
Definition idx2model (sys : system num) (self : groupbase) (i : ident) : outcome model :=
  match list_find (λ m, is_Some (uid m !! i)) (members sys self) with
  | Some (_, m) => Ok m
  | None => Raise KeyError
  end.

(** Modelled from the spec: the group's read accessor (not under src/):
    each identifier is resolved in the collection that owns it and the
    values are gathered, in the order of the identifiers, into a new
    array. *)
Definition get (sys : system num) (self : groupbase) (src : string) (idx : list ident)
    (attr : string) : outcome (value num) :=
  VArray <$> comprehension
               (λ i, m ← idx2model sys self i;
                     k ← Index._one_idx2uid (uid m) (XId i);
                     a ← field m src attr;
                     getitem (contents (deref (heap sys) a)) k) idx.

(** [arr[k] = c], in place: the array object keeps its identity. *)
Definition setitem (a : loc) (k : nat) (c : cell num) : M (system num) unit :=
  λ sys,
    match deref (heap sys) a with
    | SList l =>
        if decide (k < length l)
        then (Ok tt, System (s_models sys) (s_groups sys) (s_others sys)
                            (<[a := SList (<[k := c]> l)]> (heap sys))
                            (recent sys) (s_routines sys))
        else (Raise IndexError, sys)
    | SArray l =>
        if decide (k < length l)
        then (Ok tt, System (s_models sys) (s_groups sys) (s_others sys)
                            (<[a := SArray (<[k := c]> l)]> (heap sys))
                            (recent sys) (s_routines sys))
        else (Raise IndexError, sys)
    end.

(** Modelled from the spec: the group's write accessor (not under
    src/): an in-place scatter write into the attribute arrays at the
    resolved positions; the number of values must match the number of
    identifiers. *)
Definition set (self : groupbase) (src : string) (idx : list ident)
    (attr : string) (value : list (cell num)) : M (system num) unit :=
  λ sys,
    match comprehension (idx2model sys self) idx with
    | Raise e => (Raise e, sys)
    | Ok models =>
        if decide (length value = length idx) then
          for_each
            (λ '(m, i, c),
               k ← lift (Index._one_idx2uid (uid m) (XId i));
               a ← lift (field m src attr);
               setitem a k c)
            (zip (zip models idx) value) sys
        else (Raise ValueError, sys)
    end.

End WithArith.
End Group.

(** ** Attribute lookup on the system object *)

Module System.
Section WithArith.
Context {num : Type} {AR : Arith num}.
Import Store.

Inductive sysobj :=
| OModel (name : string) (m : model)
| OGroup (g : groupbase)
| OOther (cls : option string).

(** [getattr(system, name)]: [None] is not an attribute name, and an
    absent attribute is an [AttributeError]. *)
Definition getattr (sys : system num) (name : option string) : outcome sysobj :=
  match name with
  | None => Raise TypeError
  | Some name =>
      match s_models sys !! name with
      | Some m => Ok (OModel name m)
      | None =>
          match s_groups sys !! name with
          | Some g => Ok (OGroup g)
          | None =>
              match s_others sys !! name with
              | Some c => Ok (OOther c)
              | None => Raise AttributeError
              end
          end
      end
  end.

(** The current entries of [system.<mdl>.<src>.v]. *)
Definition attr (sys : system num) (mdl src : string) : option (list (cell num)) :=
  m ← s_models sys !! mdl; read (heap sys) m src "v".

(** Iterating over a value that holds entries. *)
Definition iter_cells (v : value num) : outcome (list (cell num)) :=
  match v with
  | VList l | VArray l => Ok l
  | VCell _ | VArray2 _ => Raise TypeError
  end.

End WithArith.
End System.

(** ** The PTDF partition ([ams/core/matprocessor.py]) *)

Module MatProcessor.
Section WithArith.
Context {num : Type} {AR : Arith num}.
Import Store System.

(** [int(bus) if isinstance(bus, (int, float)) else bus]. *)
Definition as_bus_idx (bus : cell num) : ident :=
  match bus with
  | CNum x => IInt (num_to_int x)
  | CId (IInt z) => IInt z
  | CId (IStr s) => IStr s
  end.

(** [PTDF[:, uid]] with a list of positions: for every row the entries at
    these positions, in the order of the list (a position may repeat);
    a position outside the row is an [IndexError]. *)
Definition columns (PTDF : list (list num)) (ks : list (option nat)) : outcome (list (list num)) :=
  comprehension
    (λ row : list num,
       comprehension
         (λ k : option nat,
            match k with
            | Some j => match row !! j with
                        | Some x => Ok x
                        | None => Raise IndexError
                        end
            | None => Raise IndexError
            end) ks) PTDF.

(** The positions in what [idx2uid] returned ([make] passes it lists, for
    which the result is a list). *)
Definition positions (u : uid_res) : list (option nat) :=
  match u with
  | UMany ks => ks
  | UOne k => [Some k]
  | UNone => [None]
  end.

(** [MatProcessor.make]. [PTDF] and [Cft] stand for what [makePTDF] and
    [makeBdc] return on [system2ppc(self.system)] (the PYPOWER port is
    not under src/); the partition does not depend on their entries. *)
Definition make (sys : system num) (PTDF Cft : list (list num))
  : outcome (list (list num) * list (list num) * list (list num) * list (list num)) :=
  StaticGen ← getattr sys (Some "StaticGen");
  gen_bus ← match StaticGen with
            | OGroup g =>
                v ← Group.get sys g "bus" (Group.get_idx sys g) "v";
                iter_cells v
            | _ => Raise AttributeError
            end;
  Bus ← getattr sys (Some "Bus");
  match Bus with
  | OModel _ Bus =>
      let all_bus := idx_v Bus in
      let regBus := as_bus_idx <$> gen_bus in
      let redBus :=
        (λ bus, as_bus_idx (CId bus))
          <$> filter (λ bus, negb (py_in (CId bus) gen_bus)) all_bus in
      uid_regBus ← Index.idx2uid (uid Bus) (XSeq (XId <$> regBus));
      uid_redBus ← Index.idx2uid (uid Bus) (XSeq (XId <$> redBus));
      reg ← columns PTDF (positions uid_regBus);
      red ← columns PTDF (positions uid_redBus);
      Ok (reg, red, PTDF, Cft)
  | _ => Raise AttributeError
  end.

End WithArith.
End MatProcessor.

(** ** Parameter References ([ams/core/param.py]) *)

Module RParam.
Section WithArith.
Context {num : Type} {AR : Arith num}.
Import Store System.

(** The owner a reference is bound to: a Device Collection (a mutable
    object of the system, named by the attribute that holds it) or a
    Group. *)
Inductive owner_ref :=
| OwnModel (name : string)
| OwnGroup (g : groupbase).

Record rparam := RParam {
  name : option string;
  tex_name : option string;
  info : option string;
  src : option string;
  unit : option string;
  is_group : bool;
  owner_name : option string;
  owner : option owner_ref;
  is_set : bool;
  v_str : option string;
  _v : option (value num);
}.

(** [RParam.__init__]. *)
Definition __init__ (name tex_name info src unit owner_name : option string)
    (v : option (value num)) (v_str : option string) : rparam :=
  {| name := name;
     tex_name := match tex_name with Some t => Some t | None => name end;
     info := info;
     src := match src with None => name | Some s => Some s end;
     unit := unit;
     is_group := false;
     owner_name := owner_name;
     owner := None;
     is_set := match v with Some _ => true | None => false end;
     v_str := v_str;
     _v := v |}.

(** What reading [.v] hands out: the array object of a collection
    attribute itself (a borrowed reference), or an object of its own. *)
Inductive view :=
| Borrowed (a : loc)
| Owned (x : value num).

(** The property [RParam.v]. *)
Definition v (sys : system num) (self : rparam) : outcome view :=
  if is_set self then
    match _v self with
    | Some x => Ok (Owned x)
    | None => Raise AttributeError
    end
  else if is_group self then
    match owner self, src self with
    | Some (OwnGroup g), Some src =>
        Owned <$> Group.get sys g src (Group.get_idx sys g) "v"
    | Some (OwnGroup g), None => Raise KeyError
    | Some (OwnModel _), _ => Raise AttributeError
    | None, _ => Raise AttributeError
    end
  else
    match owner self, src self with
    | Some (OwnModel m), Some src =>
        match s_models sys !! m with
        | Some m =>
            match fields m !! src with
            | Some src_param =>
                match src_param !! "v" with
                | Some a => Ok (Borrowed a)
                | None => Raise AttributeError
                end
            | None => Raise AttributeError
            end
        | None => Raise AttributeError
        end
    | _, None => Raise TypeError
    | _, Some _ => Raise AttributeError
    end.

(** [RParam.get_idx]; the second component is what it logs. A Device
    Collection has no method [get_idx], a Group no attribute [idx]. *)
Definition get_idx (sys : system num) (self : rparam)
  : outcome (option (list ident)) * list string :=
  if is_group self then
    match owner self with
    | Some (OwnGroup g) => (Ok (Some (Group.get_idx sys g)), [])
    | Some (OwnModel _) | None => (Raise AttributeError, [])
    end
  else
    match owner self with
    | None =>
        (Ok None,
         [String.append "Param <"
            (String.append (default "None" (name self)) "> has no owner.")])
    | Some (OwnModel m) =>
        match s_models sys !! m with
        | Some m => (Ok (Some (idx_v m)), [])
        | None => (Raise AttributeError, [])
        end
    | Some (OwnGroup _) => (Raise AttributeError, [])
    end.

(** What is seen through a view in a given store. *)
Definition observe (sys : system num) (w : view) : value num :=
  match w with
  | Borrowed a =>
      match deref (heap sys) a with
      | SList l => VList l
      | SArray l => VArray l
      end
  | Owned x => x
  end.

End WithArith.

Arguments rparam : clear implicits.
Arguments view : clear implicits.

End RParam.

(** ** The routine pipeline ([ams/routines/dcpf.py], [ams/routines/acopf.py]) *)

Module Routine.
Section WithArith.
Context {num : Type} {AR : Arith num}.
Import Store System.

(** The solver's result: [res['baseMVA']], [res['bus']], [res['gen']],
    [res['success']] and [res['f']]. *)
Record result := Result {
  baseMVA : num;
  bus : list (list num);
  gen : list (list num);
  success : bool;
  f : num;
}.

(** A Routine Variable as [unpack] sees it. *)
Record var := Var {
  owner_name : option string;
  src : option string;
  v : option (value num);
}.

Inductive logrec :=
| InfoSetup (cls : string)
| WarnSkip (owner_cls src cls raname : string)
| InfoCompleted (cls : string) (code : Z)
| WarnFailed (cls : string)
| WarnAllOnline
| WarnTurnOff (g_idx : list ident).

(** Calls made by [run], in the order they are made. *)
Inductive event := EvSetup | EvSolve | EvUnpack.

(** A routine object together with the system it is bound to, the log
    and the record of calls. [vars] is the ordered dictionary
    [self.vars] of the power-flow routines, [ralgebs] the dictionary
    [self.ralgebs] of the ACOPF routine. *)
Record routine := Routine {
  sys : system num;
  class_name : string;
  is_setup : bool;
  exit_code : option Z;
  exec_time : option num;
  vars : list (string * var);
  ralgebs : list (string * var);
  obj_v : option num;
  log : list logrec;
  calls : list event;
}.

Definition set_sys (s : system num) (r : routine) : routine :=
  Routine s (class_name r) (is_setup r) (exit_code r) (exec_time r)
          (vars r) (ralgebs r) (obj_v r) (log r) (calls r).
Definition set_is_setup (b : bool) (r : routine) : routine :=
  Routine (sys r) (class_name r) b (exit_code r) (exec_time r)
          (vars r) (ralgebs r) (obj_v r) (log r) (calls r).
Definition set_exit_code (c : Z) (r : routine) : routine :=
  Routine (sys r) (class_name r) (is_setup r) (Some c) (exec_time r)
          (vars r) (ralgebs r) (obj_v r) (log r) (calls r).
Definition set_exec_time (t : num) (r : routine) : routine :=
  Routine (sys r) (class_name r) (is_setup r) (exit_code r) (Some t)
          (vars r) (ralgebs r) (obj_v r) (log r) (calls r).
Definition set_vars (vs : list (string * var)) (r : routine) : routine :=
  Routine (sys r) (class_name r) (is_setup r) (exit_code r) (exec_time r)
          vs (ralgebs r) (obj_v r) (log r) (calls r).
Definition set_ralgebs (vs : list (string * var)) (r : routine) : routine :=
  Routine (sys r) (class_name r) (is_setup r) (exit_code r) (exec_time r)
          (vars r) vs (obj_v r) (log r) (calls r).
Definition set_obj_v (x : num) (r : routine) : routine :=
  Routine (sys r) (class_name r) (is_setup r) (exit_code r) (exec_time r)
          (vars r) (ralgebs r) (Some x) (log r) (calls r).
Definition logger (m : logrec) (r : routine) : routine :=
  Routine (sys r) (class_name r) (is_setup r) (exit_code r) (exec_time r)
          (vars r) (ralgebs r) (obj_v r) (log r ++ [m]) (calls r).
Definition record (e : event) (r : routine) : routine :=
  Routine (sys r) (class_name r) (is_setup r) (exit_code r) (exec_time r)
          (vars r) (ralgebs r) (obj_v r) (log r) (calls r ++ [e]).

(** What [run] decides about a routine, apart from the system, the
    variables and the log. *)
Definition core (r : routine) : string * bool * option Z * option num * list event :=
  (class_name r, is_setup r, exit_code r, exec_time r, calls r).

(** The device data of the system a routine is bound to. *)
Definition devices (r : routine) : gmap string model * gmap loc (storage num) :=
  (s_models (sys r), heap (sys r)).

(** The routine as [run] hands it to [unpack]: set up if it was not,
    with the exit code and the elapsed time recorded. *)
Definition before_unpack (elapsed : num) (code : Z) (r : routine) : routine :=
  let r1 := if is_setup r then r
            else set_is_setup true
                   (record EvSetup (logger (InfoSetup (class_name r)) r)) in
  record EvUnpack
    (set_exec_time elapsed (set_exit_code code (record EvSolve r1))).

(** Running code that only touches the system. *)
Definition on_sys {A} (c : M (system num) A) : M routine A :=
  λ r, let '(o, s) := c (sys r) in (o, set_sys s r).

(** [arr[:, j]] on a two-dimensional array, given as the list of its
    rows (all of one length): the column index is checked against the
    width of the array. *)
Definition column (j : nat) (arr : list (list num)) : outcome (list num) :=
  comprehension
    (λ row : list num,
       match row !! j with
       | Some x => Ok x
       | None => Raise IndexError
       end) arr.

(** [system.<mdl>.n]. *)
Definition model_n (mdl : string) : M (system num) nat :=
  λ s, match s_models s !! mdl with
       | Some m => (Ok (n m), s)
       | None => (Raise AttributeError, s)
       end.

(** The assignment [system.<mdl>.<src>.v = arr]: the attribute [v] of
    the object [system.<mdl>.<src>] is bound to the array object on the
    right-hand side, a new object. *)
Definition setattr_v (mdl src : string) (arr : list (cell num)) : M (system num) unit :=
  λ s,
    match s_models s !! mdl with
    | None => (Raise AttributeError, s)
    | Some m =>
        match fields m !! src with
        | None => (Raise AttributeError, s)
        | Some facets =>
            let a := fresh (dom (heap s)) in
            let m' := Model (Store.class_name m) (group m) (idx_v m) (uid m)
                            (<[src := <["v" := a]> facets]> (fields m)) in
            (Ok tt,
             System (<[mdl := m']> (s_models s)) (s_groups s) (s_others s)
                    (<[a := SArray arr]> (heap s)) (recent s) (s_routines s))
        end
    end.

(** The block "copy results from routine algeb into system algeb" of
    [unpack], the same in [DCPFlowBase] and [ACOPFBase]. In
    [res['gen'][n:, j]] and [res['gen'][:n, j]] the column index is
    checked against the whole array, whatever rows the slice keeps. *)
Definition write_back (res : result) : M (system num) unit :=
  let mva := baseMVA res in
  x ← lift (column 7 (bus res));
  setattr_v "Bus" "v" (CNum <$> x);;
  x ← lift (column 8 (bus res));
  setattr_v "Bus" "a" ((λ y, CNum (num_mul y deg2rad)) <$> x);;
  k ← model_n "Slack";
  x ← lift (drop k <$> column 1 (gen res));
  setattr_v "PV" "p" ((λ y, CNum (num_div y mva)) <$> x);;
  k ← model_n "Slack";
  x ← lift (drop k <$> column 2 (gen res));
  setattr_v "PV" "q" ((λ y, CNum (num_div y mva)) <$> x);;
  k ← model_n "Slack";
  x ← lift (take k <$> column 1 (gen res));
  setattr_v "Slack" "p" ((λ y, CNum (num_div y mva)) <$> x);;
  k ← model_n "Slack";
  x ← lift (take k <$> column 2 (gen res));
  setattr_v "Slack" "q" ((λ y, CNum (num_div y mva)) <$> x).

(** The collection [mdl] has an attribute object [src]. *)
Definition declares (s : system num) (mdl src : string) : Prop :=
  ∃ m, s_models s !! mdl = Some m ∧ is_Some (fields m !! src).

(** [system.<mdl>.<src>.v] is an array object of the store that holds
    [arr]. *)
Definition bound (s : system num) (mdl src : string) (arr : list (cell num)) : Prop :=
  ∃ m facets a,
    s_models s !! mdl = Some m ∧ fields m !! src = Some facets
    ∧ facets !! "v" = Some a ∧ heap s !! a = Some (SArray arr).

(** The number of devices of a collection of the system. *)
Definition size (s : system num) (mdl : string) : option nat :=
  n <$> s_models s !! mdl.

(** The device attributes hold the solver's values: bus voltage
    magnitude and angle (the angle converted to radians), and the
    generator powers in per unit, the first [k] generator rows on the
    Slack generators and the remaining rows on the PV generators. [vm],
    [va], [pg] and [qg] are columns 7 and 8 of [res['bus']] and columns
    1 and 2 of [res['gen']]. *)
Definition scattered (res : result) (k : nat) (vm va pg qg : list num)
    (s : system num) : Prop :=
  let per_unit := λ y, CNum (num_div y (baseMVA res)) in
  attr s "Bus" "v" = Some (CNum <$> vm)
  ∧ attr s "Bus" "a" = Some ((λ y, CNum (num_mul y deg2rad)) <$> va)
  ∧ attr s "Slack" "p" = Some (per_unit <$> take k pg)
  ∧ attr s "Slack" "q" = Some (per_unit <$> take k qg)
  ∧ attr s "PV" "p" = Some (per_unit <$> drop k pg)
  ∧ attr s "PV" "q" = Some (per_unit <$> drop k qg).

(** What [run] leaves on the routine [r'] it was called on as [r]:
    [setup] was called only if the routine was not set up, then [solve]
    and [unpack] were called, and the exit code and the elapsed time
    are recorded. *)
Definition ran (elapsed : num) (code : Z) (r r' : routine) : Prop :=
  calls r' = calls r ++ (if is_setup r then [] else [EvSetup]) ++ [EvSolve; EvUnpack]
  ∧ is_setup r' = true
  ∧ exit_code r' = Some code
  ∧ exec_time r' = Some elapsed.

(** What one turn of the loop over the declared variables decides. *)
Inductive action :=
| Skip
| SkipWarn (owner_cls src : string)
| Assign (x : value num).

(** The body of the loop up to the assignment to [var.v]. *)
Definition resolve (s : system num) (var : var) : outcome action :=
  owner ← getattr s (owner_name var);
  match src var with
  | None => Ok Skip
  | Some src =>
      match owner with
      | OModel _ m =>
          grp ← getattr s (Some (group m));
          match grp with
          | OGroup g =>
              let idx := Group.get_idx s g in
              Assign <$> Store.get (heap s) m src (XSeq (XId <$> idx)) "v"
                           false (CNum (num_of_Z 0))
          | _ => Raise AttributeError
          end
      | OGroup g =>
          let idx := Group.get_idx s g in
          Assign <$> Group.get s g src idx "v"
      | OOther (Some cls) => Ok (SkipWarn cls src)
      | OOther None => Raise AttributeError
      end
  end.

Definition assign_v (raname : string) (x : value num) (vs : list (string * var))
  : list (string * var) :=
  (λ '(k, var), if decide (k = raname)
                then (k, Var (owner_name var) (src var) (Some x))
                else (k, var)) <$> vs.

(** One turn of the loop over a dictionary of variables; [store] writes
    the dictionary back into the routine. *)
Definition unpack_var (store : list (string * var) → routine → routine)
    (dict : routine → list (string * var))
    (raname : string) (var : var) : M routine unit :=
  λ r,
    match resolve (sys r) var with
    | Raise e => (Raise e, r)
    | Ok Skip => (Ok tt, r)
    | Ok (SkipWarn owner_cls src) =>
        (Ok tt, logger (WarnSkip owner_cls src (class_name r) raname) r)
    | Ok (Assign x) => (Ok tt, store (assign_v raname x (dict r)) r)
    end.

(** [self.system.recent = self.system.routines[self.class_name]]. *)
Definition set_recent : M routine unit :=
  λ r,
    let s := sys r in
    match s_routines s !! class_name r with
    | Some rt =>
        (Ok tt, set_sys (System (s_models s) (s_groups s) (s_others s)
                                (heap s) (Some rt) (s_routines s)) r)
    | None => (Raise KeyError, r)
    end.

(** Modelled from the spec: [setup()] (RoutineModel is not under src/)
    takes the routine from UNINITIALIZED to SETUP. *)
Definition setup : M routine unit :=
  modify (set_is_setup true).

(** The external collaborators of [solve] and [run]: the solver adapters
    ([rundcpf] and [runopf] applied to [system2ppc(self.system)]) and the
    elapsed time the clock reports for the solve. The adapters are
    taken where they return: a solver (or a [setup]) that raises is
    outside this model, and what is proved of [run] is proved from the
    answer of the solver on. *)
Record env := Env {
  rundcpf : system num → result * bool;
  runopf : system num → result;
  elapsed : num;
}.

End WithArith.

Arguments result : clear implicits.
Arguments var : clear implicits.
Arguments env : clear implicits.
Arguments routine : clear implicits.
Arguments action : clear implicits.

End Routine.

Module DCPFlowBase.
Section WithArith.
Context {num : Type} {AR : Arith num}.
Import Store System Routine.

(** [DCPFlowBase.solve]. *)
Definition solve (E : env num) : M (routine num) (result num * bool) :=
  gets (λ r, rundcpf E (sys r)).

(** [DCPFlowBase.unpack]. *)
Definition unpack (res : result num) : M (routine num) bool :=
  on_sys (write_back res);;
  vs ← gets vars;
  for_each (λ '(raname, var), unpack_var set_vars vars raname var) vs;;
  set_recent;;
  mret true.

(** [DCPFlowBase.run]. *)
Definition run (E : env num) : M (routine num) bool :=
  done ← gets is_setup;
  (if negb done
   then cls ← gets class_name;
        modify (logger (InfoSetup cls));;
        modify (record EvSetup);;
        setup
   else mret tt);;
  modify (record EvSolve);;
  '(res, success) ← solve E;
  modify (set_exit_code (if success : bool then 0%Z else 1%Z));;
  modify (set_exec_time (elapsed E));;
  modify (record EvUnpack);;
  unpack res;;
  code ← gets exit_code;
  cls ← gets class_name;
  if decide (code = Some 0%Z)
  then modify (logger (InfoCompleted cls 0%Z));; mret true
  else modify (logger (WarnFailed cls));; mret false.

End WithArith.
End DCPFlowBase.

Module ACOPFBase.
Section WithArith.
Context {num : Type} {AR : Arith num}.
Import Store System Routine.

(** [ACOPFBase.solve]. *)
Definition solve (E : env num) : M (routine num) (result num) :=
  gets (λ r, runopf E (sys r)).

(** [ACOPFBase.unpack]. *)
Definition unpack (res : result num) : M (routine num) bool :=
  on_sys (write_back res);;
  vs ← gets ralgebs;
  for_each (λ '(raname, ralgeb), unpack_var set_ralgebs ralgebs raname ralgeb) vs;;
  modify (set_obj_v (f res));;
  set_recent;;
  mret true.

(** [ACOPFBase.run]: the value returned is the exit code. *)
Definition run (E : env num) : M (routine num) Z :=
  done ← gets is_setup;
  (if negb done
   then cls ← gets class_name;
        modify (logger (InfoSetup cls));;
        modify (record EvSetup);;
        setup
   else mret tt);;
  modify (record EvSolve);;
  res ← solve E;
  modify (set_exit_code (1 - (if success res then 1 else 0))%Z);;
  modify (set_exec_time (elapsed E));;
  modify (record EvUnpack);;
  unpack res;;
  code ← gets exit_code;
  cls ← gets class_name;
  match code with
  | Some c => modify (logger (InfoCompleted cls c));; mret c
  | None => raise AttributeError
  end.

End WithArith.
End ACOPFBase.

(** ** The initial commitment guess ([ams/routines/uc.py]) *)

Module UCModel.
Section WithArith.
Context {num : Type} {AR : Arith num}.
Import Store System Routine.

(** [system.<name>] where a Device Collection is expected. *)
Definition collection (s : system num) (name : string) : outcome model :=
  o ← getattr s (Some name);
  match o with
  | OModel _ m => Ok m
  | _ => Raise AttributeError
  end.

(** [(ug0 == 0).any()]. Comparing an array with [0] is elementwise; a
    plain list compared with [0] is the boolean [False], which has no
    method [any]. *)
Definition any_zero (ug0 : value num) : outcome bool :=
  match ug0 with
  | VArray l => Ok (existsb (λ c, cell_eqb c (CId (IInt 0))) l)
  | VArray2 rows => Ok (existsb (existsb (λ c, cell_eqb c (CId (IInt 0)))) rows)
  | VList _ | VCell _ => Raise AttributeError
  end.

(** An entry used in arithmetic. *)
Definition to_num (c : cell num) : outcome num :=
  match c with
  | CNum x => Ok x
  | CId (IInt z) => Ok (num_of_Z z)
  | CId (IStr _) => Raise TypeError
  end.

(** A column of the data frame: the entries of a gathered value, one
    per row of the frame. *)
Definition frame_column (rows : nat) (x : value num) : outcome (list (cell num)) :=
  l ← iter_cells x;
  if decide (length l = rows) then Ok l else Raise ValueError.

(** [find_idx(keys=key, values=values)] of the data class of a
    collection (library code): for each value the identifier of the
    first device whose [key] entry equals it; [IndexError] if there is
    none. *)
Definition find_idx (h : gmap loc (storage num)) (self : model) (key : string)
    (values : list ident) : outcome (list ident) :=
  a ← field self key "v";
  let v_attr := contents (deref h a) in
  comprehension
    (λ v_search,
       match list_find (λ '(c, _), cell_eqb (CId v_search) c = true)
                       (zip v_attr (idx_v self)) with
       | Some (_, (_, i)) => Ok i
       | None => Raise IndexError
       end) values.

(** [0.4*c2 + 0.3*c1 + 0.2*c0 + 0.1*Sn]. *)
Definition wsum (c2 c1 c0 Sn : num) : num :=
  num_add (num_add (num_add (num_mul (num_lit 4 10) c2)
                            (num_mul (num_lit 3 10) c1))
                   (num_mul (num_lit 2 10) c0))
          (num_mul (num_lit 1 10) Sn).

(** [sort_values(by='wsum', ascending=True)]: rows in ascending order of
    the score. Rows of equal score are kept in table order here; pandas
    does not promise an order among them. *)
Fixpoint insert_row (x : ident * num) (l : list (ident * num)) : list (ident * num) :=
  match l with
  | [] => [x]
  | y :: l' => if num_leb (snd x) (snd y) then x :: l else y :: insert_row x l'
  end.

Fixpoint sort_values (l : list (ident * num)) : list (ident * num) :=
  match l with
  | [] => []
  | x :: l' => insert_row x (sort_values l')
  end.

(** [int(0.3*len(priority))]. *)
Definition n_off (len : nat) : nat :=
  Z.to_nat (num_to_int (num_mul (num_lit 3 10) (num_of_Z (Z.of_nat len)))).

(** The data frame [gen] with its score column, before sorting. *)
Definition scores (s : system num) : outcome (list (ident * num)) :=
  PV ← collection s "PV";
  let idx := idx_v PV in
  let rows := length idx in
  let at_idx := XSeq (XId <$> idx) in
  let zero := CNum (num_of_Z 0) in
  Sn ← (x ← get (heap s) PV "Sn" at_idx "v" false zero; frame_column rows x);
  _ ← (x ← get (heap s) PV "bus" at_idx "v" false zero; frame_column rows x);
  _ ← (x ← get (heap s) PV "zone" at_idx "v" false zero; frame_column rows x);
  GCost ← collection s "GCost";
  gcost_idx ← find_idx (heap s) GCost "gen" idx;
  let at_cost := XSeq (XId <$> gcost_idx) in
  c2 ← (x ← get (heap s) GCost "c2" at_cost "v" false zero; frame_column rows x);
  c1 ← (x ← get (heap s) GCost "c1" at_cost "v" false zero; frame_column rows x);
  c0 ← (x ← get (heap s) GCost "c0" at_cost "v" false zero; frame_column rows x);
  comprehension
    (λ '(i, (a2, (a1, (a0, sn)))),
       x2 ← to_num a2; x1 ← to_num a1; x0 ← to_num a0; xs ← to_num sn;
       Ok (i, wsum x2 x1 x0 xs))
    (zip idx (zip c2 (zip c1 (zip c0 Sn)))).

(** The generators to turn off: [priority[0:int(0.3*len(priority))]]. *)
Definition g_idx (s : system num) : outcome (list ident) :=
  gen ← scores s;
  let priority := fst <$> sort_values gen in
  Ok (take (n_off (length priority)) priority).

(** Between the systems [s] and [s'] nothing differs but the contents
    of the commitment arrays [u] of the members of the group StaticGen:
    the collections, groups and other attributes of the system are the
    same, no attribute is bound to another array object, and every array
    object that is not the [u] array of a StaticGen member holds what it
    held. *)
Definition only_u_written (s s' : system num) : Prop :=
  s_models s' = s_models s ∧ s_groups s' = s_groups s
  ∧ s_others s' = s_others s ∧ recent s' = recent s
  ∧ s_routines s' = s_routines s
  ∧ ∀ l,
      (∀ g m, getattr s (Some "StaticGen") = Ok (OGroup g) →
              m ∈ Group.members s g → field m "u" "v" ≠ Ok l) →
      heap s' !! l = heap s !! l.

(** The trigger condition of the guess: [(ug0 == 0).any()] for the
    commitment status [ug0] of the PV generators. *)
Definition trigger (s : system num) : outcome bool :=
  PV ← collection s "PV";
  ug0 ← get (heap s) PV "u" (XSeq (XId <$> idx_v PV)) "v" false
            (CNum (num_of_Z 0));
  any_zero ug0.

(** [UCModel._initial_guess]. *)
Definition _initial_guess : M (routine num) bool :=
  s ← gets sys;
  some_offline ← lift (trigger s);
  if some_offline : bool then mret true
  else
    modify (logger WarnAllOnline);;
    off ← lift (g_idx s);
    StaticGen ← lift (getattr s (Some "StaticGen"));
    match StaticGen with
    | OGroup g =>
        on_sys (Group.set g "u" off "v" ((λ _, CNum (num_of_Z 0)) <$> off));;
        modify (logger (WarnTurnOff off));;
        mret true
    | _ => raise AttributeError
    end.

End WithArith.
End UCModel.

(** ** Construction of Parameter References by keyword
       ([ams/core/param.py], [ams/routines/ed.py]) *)

Module Keywords.

(** The parameters of [RParam.__init__] after [self]; each has a
    default, and there is no [**kwargs]. *)
Definition parameters : list string :=
  ["name"; "tex_name"; "info"; "src"; "unit"; "owner_name"; "v"; "v_str"].

(** A call [f(k1=e1, ..., kn=en)] of a function with these parameters:
    a keyword that is not a parameter is a [TypeError], raised before
    the body runs. *)
Definition bind_keywords (params : list string) (kwargs : list (string * string))
  : outcome (gmap string string) :=
  if forallb (λ kv, bool_decide (kv.1 ∈ params)) kwargs
  then Ok (list_to_map kwargs)
  else Raise TypeError.

End Keywords.

Module EDData.
Section WithArith.
Context {num : Type} {AR : Arith num}.

(** [RParam(k1='...', ..., kn='...')] with string arguments only. *)
Definition RParam (kwargs : list (string * string)) : outcome (RParam.rparam num) :=
  args ← Keywords.bind_keywords Keywords.parameters kwargs;
  Ok (RParam.__init__ (args !! "name") (args !! "tex_name") (args !! "info")
                      (args !! "src") (args !! "unit") (args !! "owner_name")
                      None (args !! "v_str")).

(** [EDData.__init__]. [base] is what [DCOPFData.__init__(self)] does
    ([ams/routines/dcopf.py] is not under src/): the attributes it sets,
    or the exception it raises. *)
Definition __init__ (base : outcome (list (string * RParam.rparam num)))
  : outcome (list (string * RParam.rparam num)) :=
  self ← base;
  nt ← RParam [("info", "Number of rolling intervals"); ("name", "nt"); ("src", "nt");
               ("tex_name", "n_{t}"); ("model", "Horizon")];
  R10 ← RParam [("info", "10-min ramp rate (system base)"); ("name", "R10");
                ("src", "R10"); ("tex_name", "R_{10}"); ("unit", "p.u./min");
                ("model", "StaticGen")];
  Ok (self ++ [("nt", nt); ("R10", R10)]).

End WithArith.
End EDData.

(** ** The OPF entry point ([ams/solver/pypower/runopf.py]) *)

Module RunOPF.
Section Collaborators.

(** The case data, the options, the result of the solver and the
    exceptions of the collaborators are kept abstract. *)
Context {case options result err : Type}.

(** What [open(fname, "a")] does. *)
Inductive opened :=
| FileOpened
| IOError
| OpenFailed (e : err).

(** The collaborators: [join(dirname(__file__), 'case9')], [ppoption],
    [opf], [open], [printpf] and [savecase]; [None] is a call that
    returns. *)
Record world := World {
  default_case : case;
  ppoption : option options → err + options;
  opf : case → options → err + result;
  open_append : string → opened;
  printpf : result → string → options → option err;
  savecase : string → result → option err;
}.

(** What a call has done to the files, in order. *)
Inductive effect :=
| Opened (fname : string)
| Printed (fname : string) (r : result)
| Closed (fname : string)
| Saved (solvedcase : string) (r : result).

(** How a call ends. The module imports [logging] but binds no name
    [logger], so evaluating [logger.debug(...)] is a [NameError]. *)
Inductive failure :=
| NameError
| Propagated (e : err).

Inductive ended :=
| Returned (r : result)
| Raised (f : failure).

(** The block "output results": the [try] with its [except IOError] and
    its [finally]. *)
Definition output (W : world) (r : result) (ppopt : options) (fname : string)
  : option failure * list effect :=
  if decide (fname = "") then (None, [])
  else
    match open_append W fname with
    | IOError => (Some NameError, [])
    | OpenFailed e => (Some (Propagated e), [])
    | FileOpened =>
        match printpf W r fname ppopt with
        | Some e => (Some (Propagated e), [Opened fname])
        | None => (None, [Opened fname; Printed fname r; Closed fname])
        end
    end.

(** [runopf(casedata, ppopt, fname, solvedcase)]. *)
Definition runopf (W : world) (casedata : option case) (ppopt : option options)
    (fname solvedcase : string) : ended * list effect :=
  let casedata := default (default_case W) casedata in
  match ppoption W ppopt with
  | inl e => (Raised (Propagated e), [])
  | inr ppopt =>
      match opf W casedata ppopt with
      | inl e => (Raised (Propagated e), [])
      | inr r =>
          match output W r ppopt fname with
          | (Some f, done) => (Raised f, done)
          | (None, done) =>
              if decide (solvedcase = "") then (Returned r, done)
              else
                match savecase W solvedcase r with
                | Some e => (Raised (Propagated e), done)
                | None => (Returned r, done ++ [Saved solvedcase r])
                end
          end
      end
  end.

End Collaborators.

Arguments world : clear implicits.
Arguments opened : clear implicits.
Arguments effect : clear implicits.
Arguments failure : clear implicits.
Arguments ended : clear implicits.

End RunOPF.

(** ** Exact rational arithmetic as one implementation of [Arith] *)

Module Rational.

Definition trunc (x : Q) : Z := Z.quot (Qnum x) (Zpos (Qden x)).

#[global] Instance Q_arith : Arith Q := {|
  num_of_Z := inject_Z;
  num_lit := Qmake;
  num_add := Qplus;
  num_mul := Qmult;
  num_div := Qdiv;
  num_to_int := trunc;
  num_eqb := Qeq_bool;
  num_leb := Qle_bool;
  deg2rad := Qmake 17453292519943295 1000000000000000000;
|}.

End Rational.

(** ** Small systems used to run the definitions *)

Module Cases.
Import Store System Rational.

Definition index (idx : list ident) : gmap ident nat :=
  list_to_map (zip idx (seq 0 (length idx))).

Definition facet (a : loc) : gmap string loc := {[ "v" := a ]}.

Definition ints (l : list Z) : list ident := IInt <$> l.
Definition nums (l : list Q) : list (cell Q) := CNum <$> l.
Definition refs (l : list Z) : list (cell Q) := (λ z, CId (IInt z)) <$> l.

(** Six buses; one Slack generator on bus 1; PV generators 2 to 5 on
    buses 4, 2, 5 and 3; one cost record per generator. Slack and PV
    have the attributes used here of those their classes declare
    ([ams/models/static.py]: [p] and [q], and [u], [bus], [busr], [Sn]
    of the data classes; no [zone]) and name their group [Gen]. *)
Definition Bus : model :=
  Model "Bus" "ACTopology" (ints [1; 2; 3; 4; 5; 6]%Z) (index (ints [1; 2; 3; 4; 5; 6]%Z))
        {[ "v" := facet 0; "a" := facet 1 ]}.

Definition Slack : model :=
  Model "Slack" "Gen" (ints [1]%Z) (index (ints [1]%Z))
        {[ "p" := facet 2; "q" := facet 3; "u" := facet 4; "bus" := facet 5 ]}.

Definition PV : model :=
  Model "PV" "Gen" (ints [2; 3; 4; 5]%Z) (index (ints [2; 3; 4; 5]%Z))
        {[ "p" := facet 6; "q" := facet 7; "u" := facet 8; "bus" := facet 9;
           "Sn" := facet 10; "busr" := facet 11 ]}.

Definition GCost : model :=
  Model "GCost" "Cost" (ints [11; 12; 13; 14; 15]%Z)
        (index (ints [11; 12; 13; 14; 15]%Z))
        {[ "gen" := facet 12; "c2" := facet 13; "c1" := facet 14; "c0" := facet 15 ]}.

(** The generators are reached as [system.StaticGen] by the routines
    and as the group [Gen] their classes name; both hold Slack, then
    PV. *)
Definition StaticGen : groupbase := GroupBase "StaticGen" ["Slack"; "PV"].
Definition Gen : groupbase := GroupBase "Gen" ["Slack"; "PV"].
Definition ACTopology : groupbase := GroupBase "ACTopology" ["Bus"].

Definition heap0 : gmap loc (storage Q) :=
  list_to_map
    [ (0, SArray (nums [1; 1; 1; 1; 1; 1]%Q));
      (1, SArray (nums [0; 0; 0; 0; 0; 0]%Q));
      (2, SArray (nums [0]%Q));        (3, SArray (nums [0]%Q));
      (4, SArray (nums [1]%Q));        (5, SList (refs [1]%Z));
      (6, SArray (nums [0; 0; 0; 0]%Q));  (7, SArray (nums [0; 0; 0; 0]%Q));
      (8, SArray (nums [1; 1; 1; 1]%Q));  (9, SList (refs [4; 2; 5; 3]%Z));
      (10, SArray (nums [100; 50; 80; 60]%Q)); (11, SList (refs [1; 1; 1; 1]%Z));
      (12, SList (refs [1; 2; 3; 4; 5]%Z));
      (13, SArray (nums [0; 0; 0; 0; 0]%Q));
      (14, SArray (nums [10; 30; 20; 25; 5]%Q));
      (15, SArray (nums [0; 0; 0; 0; 0]%Q)) ].

Definition with_heap (h : gmap loc (storage Q)) : system Q :=
  System {[ "Bus" := Bus; "Slack" := Slack; "PV" := PV; "GCost" := GCost ]}
         {[ "StaticGen" := StaticGen; "Gen" := Gen; "ACTopology" := ACTopology ]}
         {[ "config" := None; "DCPF" := Some "DCPF" ]}
         h None {[ "DCPF" := "DCPF"; "ACOPF" := "ACOPF" ]}.

Definition sys0 : system Q := with_heap heap0.

(** The same system with PV generators 3 and 4 both on bus 2. *)
Definition sys_shared_bus : system Q :=
  with_heap (<[9 := SList (refs [4; 2; 2; 3]%Z)]> heap0).

(** A sensitivity matrix with two lines and distinct entries. *)
Definition PTDF0 : list (list Q) :=
  [ [11; 12; 13; 14; 15; 16]; [21; 22; 23; 24; 25; 26] ]%Q.

(** The same system with PV generator 3 off. *)
Definition sys_one_off : system Q :=
  with_heap (<[8 := SArray (nums [1; 0; 1; 1]%Q)]> heap0).

(** Parameter references: one with a value given at construction, one
    bound to the group of generators, one bound to the PV collection. *)
Definition p_explicit : RParam.rparam Q :=
  RParam.__init__ (Some "c") None None None None None
                  (Some (VArray (nums [7; 8]%Q))) None.

Definition p_group : RParam.rparam Q :=
  RParam.RParam (Some "ug") (Some "ug") None (Some "u") None true
                (Some "StaticGen") (Some (RParam.OwnGroup StaticGen)) false None None.

Definition p_single : RParam.rparam Q :=
  RParam.RParam (Some "pg0") (Some "pg0") None (Some "p") None false
                (Some "PV") (Some (RParam.OwnModel "PV")) false None None.

Definition p_bus_v : RParam.rparam Q :=
  RParam.RParam (Some "vBus") (Some "vBus") None (Some "v") None false
                (Some "Bus") (Some (RParam.OwnModel "Bus")) false None None.

(** A solver result for this system that reports failure. The bus rows
    carry the voltage magnitude and angle in columns 7 and 8, the
    generator rows the active and reactive power in columns 1 and 2; the
    first generator row is the Slack generator. *)
Definition bus_row (vm va : Q) : list Q := [0; 0; 0; 0; 0; 0; 0; vm; va]%Q.

Definition res0 : Routine.result Q :=
  Routine.Result 100%Q
    [ bus_row 1 0; bus_row (98 # 100) (-2); bus_row (97 # 100) (-3);
      bus_row (99 # 100) (-1); bus_row (96 # 100) (-4); bus_row (95 # 100) (-5) ]
    [ [1; 150; 20]; [4; 50; 5]; [2; 40; 4]; [5; 30; 3]; [3; 20; 2] ]%Q
    false 1234%Q.

Definition E0 : Routine.env Q :=
  Routine.Env (λ _, (res0, false)) (λ _, res0) (3 # 100)%Q.

Definition aBus : Routine.var Q := Routine.Var (Some "Bus") (Some "a") None.
Definition pg : Routine.var Q := Routine.Var (Some "StaticGen") (Some "p") None.

Definition routine0 (cls : string) (vars : list (string * Routine.var Q)) : Routine.routine Q :=
  Routine.Routine sys0 cls false None None vars vars None [] [].

(** The power-flow routine with its two declared variables. *)
Definition dcpf0 : Routine.routine Q := routine0 "DCPF" [("aBus", aBus); ("pg", pg)].
Definition acopf0 : Routine.routine Q := routine0 "ACOPF" [("aBus", aBus); ("pg", pg)].

(** The unit-commitment routine on the system with every PV generator
    on, and on the system with one of them off. *)
Definition uc0 : Routine.routine Q := routine0 "UC" [].
Definition uc_one_off : Routine.routine Q :=
  Routine.Routine sys_one_off "UC" false None None [] [] None [] [].

(** A routine that declares, before these two, a variable whose owner is
    not an attribute of the system. *)
Definition dcpf_unresolved : Routine.routine Q :=
  routine0 "DCPF"
    [("x", Routine.Var (Some "Storage") (Some "p") None); ("aBus", aBus); ("pg", pg)].

(** A routine whose first variable was declared without an owner name
    (as the unit-commitment variables are, with [model=] in its place). *)
Definition dcpf_no_owner : Routine.routine Q :=
  routine0 "DCPF"
    [("ugd", Routine.Var None (Some "u") None); ("aBus", aBus); ("pg", pg)].

(** A routine that declares a variable whose owner is an object of the
    system that is neither a collection nor a group. *)
Definition dcpf_other : Routine.routine Q :=
  routine0 "DCPF"
    [("x", Routine.Var (Some "DCPF") (Some "p") None); ("aBus", aBus); ("pg", pg)].

(** The same system with PV generator 4 on a bus that is not in the bus
    table. *)
Definition sys_stray_bus : system Q :=
  with_heap (<[9 := SList (refs [4; 2; 9; 3]%Z)]> heap0).

(** A system with the six buses and no generator: the group of
    generators has no member. *)
Definition sys_no_gen : system Q :=
  System {[ "Bus" := Bus ]}
         {[ "StaticGen" := GroupBase "StaticGen" []; "ACTopology" := ACTopology ]}
         ∅ heap0 None ∅.


(** The ACOPF routine with its four declared variables. *)
Definition acopf_declared : Routine.routine Q :=
  Routine.Routine sys0 "ACOPF" false None None []
    [("aBus", aBus); ("vBus", Routine.Var (Some "Bus") (Some "v") None);
     ("pg", pg); ("qg", Routine.Var (Some "StaticGen") (Some "q") None)]
    None [] [].

(** The same system with the group of generators registered PV first,
    and the two routines on it. *)
Definition StaticGen_pv_first : groupbase := GroupBase "StaticGen" ["PV"; "Slack"].

Definition sys_pv_first : system Q :=
  System (s_models sys0)
         {[ "StaticGen" := StaticGen_pv_first; "Gen" := Gen; "ACTopology" := ACTopology ]}
         (s_others sys0) heap0 None (s_routines sys0).

Definition dcpf_pv_first : Routine.routine Q :=
  Routine.Routine sys_pv_first "DCPF" false None None
                  [("aBus", aBus); ("pg", pg)] [("aBus", aBus); ("pg", pg)] None [] [].

Definition acopf_pv_first : Routine.routine Q :=
  Routine.Routine sys_pv_first "ACOPF" false None None []
    [("aBus", aBus); ("vBus", Routine.Var (Some "Bus") (Some "v") None);
     ("pg", pg); ("qg", Routine.Var (Some "StaticGen") (Some "q") None)]
    None [] [].

(** Collaborators of [runopf] in which one output file cannot be
    opened; a case and the options are numbers, and the solver adds
    them. *)
Definition world0 : RunOPF.world nat nat nat string :=
  RunOPF.World 9 (λ o, inr (default 0 o)) (λ c o, inr (c + o))
               (λ f, if decide (f = "/no/such/dir/out.txt")
                     then RunOPF.IOError else RunOPF.FileOpened)
               (λ _ _ _, None) (λ _ _, None).

End Cases.

(** * Properties *)

(** ** The identifier index *)

Lemma outcome_bind_ok {A B} (a : A) (k : A → outcome B) : (Ok a ≫= k) = k a.
Proof. reflexivity. Qed.

Lemma bind_Ok_inv {A B} (o : outcome A) (k : A → outcome B) (b : B) :
  (o ≫= k) = Ok b → ∃ a, o = Ok a ∧ k a = Ok b.
Proof. destruct o as [a|]; [|done]. intros E. by exists a. Qed.

Lemma outcome_fmap_ok {A B} (a : A) (k : A → B) : k <$> Ok a = Ok (k a).
Proof. reflexivity. Qed.

Ltac step H := rewrite H; rewrite ?outcome_bind_ok, ?outcome_fmap_ok; cbv beta iota.

Section IndexFacts.
Import Index.
Implicit Types (uid : gmap ident nat) (l : list ident).

Lemma comprehension_app {A B} (g : A → outcome B) (l1 l2 : list A) :
  comprehension g (l1 ++ l2) =
  (xs ← comprehension g l1; ys ← comprehension g l2; Ok (xs ++ ys)).
Proof.
  induction l1 as [|x l1 IH]; cbn.
  - by destruct (comprehension g l2).
  - destruct (g x); cbn; [|done]. rewrite IH.
    destruct (comprehension g l1); cbn; [|done].
    by destruct (comprehension g l2).
Qed.

Lemma comprehension_length {A B} (g : A → outcome B) (l : list A) ys :
  comprehension g l = Ok ys → length ys = length l.
Proof.
  revert ys. induction l as [|x l IH]; cbn; intros ys E.
  - by inversion E.
  - destruct (g x); cbn in E; [|done].
    destruct (comprehension g l) as [zs|]; cbn in E; [|done].
    inversion E. cbn. f_equal. by apply IH.
Qed.

Lemma comprehension_ok {A B} (g : A → outcome B) (h : A → B) (l : list A) :
  Forall (λ x, g x = Ok (h x)) l → comprehension g l = Ok (h <$> l).
Proof.
  induction 1 as [|x l Hx _ IH]; cbn; [done|]. by rewrite Hx, IH.
Qed.

Lemma comprehension_fmap {A B C} (g : B → outcome C) (h : A → B) (l : list A) :
  comprehension g (h <$> l) = comprehension (g ∘ h) l.
Proof.
  induction l as [|x l IH]; [done|]. rewrite fmap_cons. cbn. by rewrite IH.
Qed.

Lemma comprehension_Forall2 {A B} (g : A → outcome B) (R : A → B → Prop)
    (l : list A) :
  Forall (λ x, ∃ y, g x = Ok y ∧ R x y) l →
  ∃ ys, comprehension g l = Ok ys ∧ Forall2 R l ys.
Proof.
  induction 1 as [|x l (y & Hy & Hr) _ (ys & E & F)].
  - exists []. split; [done|constructor].
  - exists (y :: ys). cbn. rewrite Hy, E. split; [done|by constructor].
Qed.

Lemma resolve_seq_registered uid l :
  Forall (λ i, is_Some (uid !! i)) l →
  ∃ ks, resolve_seq uid (XId <$> l) = Ok (Some <$> ks)
        ∧ Forall2 (λ i k, uid !! i = Some k) l ks.
Proof.
  induction 1 as [|i l [k Hk] _ (ks & E & F)].
  - exists []. split; [done|constructor].
  - exists (k :: ks). split; [|by constructor].
    unfold resolve_seq in *. rewrite fmap_cons. cbn. rewrite Hk. cbn.
    by rewrite E.
Qed.

Lemma reduce_iconcat_nested (acc : list idx_arg) (gs : list (list idx_arg)) :
  reduce_iconcat acc (XSeq <$> gs) = Ok (acc ++ concat gs).
Proof.
  revert acc. induction gs as [|g gs IH]; intros acc; cbn.
  - by rewrite app_nil_r.
  - change (reduce_iconcat (acc ++ g) (XSeq <$> gs) = Ok (acc ++ g ++ concat gs)).
    by rewrite IH, app_assoc.
Qed.

(** C4. [idx2uid] on a sequence of registered identifiers returns their
    positions, one per identifier and in the order of the input (a
    repeated identifier gives a repeated position); on one registered
    identifier it returns its position; a list of lists is flattened by
    one level and the flattened list is then resolved entry by entry. *)
Theorem idx2uid_order_preservation uid l (i : ident) (gs : list (list idx_arg)) :
  Forall (λ j, is_Some (uid !! j)) l →
  is_Some (uid !! i) →
  gs ≠ [] →
  (∃ ks, idx2uid uid (XSeq (XId <$> l)) = Ok (UMany (Some <$> ks))
         ∧ Forall2 (λ j k, uid !! j = Some k) l ks)
  ∧ (∃ k, idx2uid uid (XId i) = Ok (UOne k) ∧ uid !! i = Some k)
  ∧ idx2uid uid (XSeq (XSeq <$> gs)) = UMany <$> resolve_seq uid (concat gs).
Proof.
  intros Hl [k Hk] Hgs. split; [|split].
  - destruct (resolve_seq_registered uid l Hl) as (ks & E & F).
    exists ks. split; [|done].
    unfold idx2uid. destruct l as [|j l']; [by inversion F|].
    rewrite fmap_cons in *. cbn. cbn in E. by rewrite E.
  - exists k. split; [|done]. cbn. by rewrite Hk.
  - destruct gs as [|g gs]; [done|].
    unfold idx2uid. rewrite fmap_cons. unfold list_flatten.
    rewrite <- fmap_cons. by rewrite reduce_iconcat_nested.
Qed.

Lemma idx2uid_optional uid (l : list (option ident)) :
  Forall (λ o, ∀ j, o = Some j → is_Some (uid !! j)) l →
  idx2uid uid (XSeq ((λ o, from_option XId XNone o) <$> l))
  = Ok (UMany ((λ o, j ← o; uid !! j) <$> l)).
Proof.
  intros Hl.
  assert (resolve_seq uid ((λ o, from_option XId XNone o) <$> l)
          = Ok ((λ o, j ← o; uid !! j) <$> l)) as E.
  { induction Hl as [|o l Ho _ IH]; [done|].
    unfold resolve_seq in *. rewrite !fmap_cons. cbn. rewrite IH.
    destruct o as [j|]; cbn; [|done].
    destruct (Ho j eq_refl) as [k Hk]. by rewrite Hk. }
  unfold idx2uid. destruct l as [|o l']; [done|].
  rewrite fmap_cons in *. destruct o; cbn in *; by rewrite E.
Qed.

(** C9. [idx2uid(None)] is [None], not an exception, whereas an unknown
    identifier is a [KeyError]; inside a sequence a [None] entry is
    passed through as a [None] position, so that it is the caller (the
    accessor) that accepts or rejects it. *)
Theorem idx2uid_none_verbatim uid (i : ident) (l : list (option ident)) :
  uid !! i = None →
  Forall (λ o, ∀ j, o = Some j → is_Some (uid !! j)) l →
  idx2uid uid XNone = Ok UNone
  ∧ idx2uid uid (XId i) = Raise KeyError
  ∧ idx2uid uid (XSeq ((λ o, from_option XId XNone o) <$> l))
    = Ok (UMany ((λ o, j ← o; uid !! j) <$> l)).
Proof.
  intros Hi Hl. split; [done|]. split; [by cbn; rewrite Hi|].
  by apply idx2uid_optional.
Qed.

End IndexFacts.

Lemma idx2uid_order_preservation_witness :
  (∃ ks, Index.idx2uid (Store.uid Cases.Bus)
           (XSeq (XId <$> Cases.ints [3; 1; 3]%Z)) = Ok (UMany (Some <$> ks))
         ∧ Forall2 (λ j k, Store.uid Cases.Bus !! j = Some k) (Cases.ints [3; 1; 3]%Z) ks)
  ∧ (∃ k, Index.idx2uid (Store.uid Cases.Bus) (XId (IInt 2)) = Ok (UOne k)
          ∧ Store.uid Cases.Bus !! IInt 2%Z = Some k)
  ∧ Index.idx2uid (Store.uid Cases.Bus)
      (XSeq (XSeq <$> [[XId (IInt 3)]; [XId (IInt 1); XId (IInt 3)]]))
    = UMany <$> Index.resolve_seq (Store.uid Cases.Bus)
                  (concat [[XId (IInt 3)]; [XId (IInt 1); XId (IInt 3)]]).
Proof.
  apply idx2uid_order_preservation.
  - repeat constructor; vm_compute; eauto.
  - vm_compute; eauto.
  - discriminate.
Defined.

Lemma idx2uid_none_verbatim_witness :
  Index.idx2uid (Store.uid Cases.Bus) XNone = Ok UNone
  ∧ Index.idx2uid (Store.uid Cases.Bus) (XId (IInt 999)) = Raise KeyError
  ∧ Index.idx2uid (Store.uid Cases.Bus)
      (XSeq ((λ o, from_option XId XNone o) <$> [Some (IInt 2); None]))
    = Ok (UMany ((λ o, j ← o; Store.uid Cases.Bus !! j) <$> [Some (IInt 2); None])).
Proof.
  apply idx2uid_none_verbatim.
  - vm_compute; reflexivity.
  - repeat constructor; intros j [= <-]; vm_compute; eauto.
Defined.

(** ** The accessor [Model.get] *)

Section GetFacts.
Context {num : Type} {AR : Arith num}.
Import Store.

(** X20. The list path of [get] keeps the promise of its docstring. For
    an attribute stored as a plain list and identifiers given as a
    sequence: with [allow_none] false a [None] position makes [get] fail
    with [KeyError]; with [allow_none] true the [default] stands in for
    every [None] entry and the other entries are the values at the
    identifiers. *)
Theorem get_allow_none (h : gmap loc (storage num)) (self : model)
    (src attr : string) (a : loc) (lst : list (cell num))
    (l : list (option ident)) (default : cell num) :
  field self src attr = Ok a →
  deref h a = SList lst →
  Forall (λ o, ∀ j, o = Some j → ∃ k, uid self !! j = Some k ∧ k < length lst) l →
  (None ∈ l →
   get h self src (XSeq ((λ o, from_option XId XNone o) <$> l)) attr false default
   = Raise KeyError)
  ∧ ∃ out,
      get h self src (XSeq ((λ o, from_option XId XNone o) <$> l)) attr true default
      = Ok (VList out)
      ∧ Forall2 (λ o c, match o with
                        | None => c = default
                        | Some j => ∃ k, uid self !! j = Some k ∧ lst !! k = Some c
                        end) l out.
Proof.
  intros Hf Hd Hl.
  assert (Forall (λ o, ∀ j, o = Some j → is_Some (uid self !! j)) l) as Hreg.
  { eapply Forall_impl; [exact Hl|]. intros o Ho j ->.
    destruct (Ho j eq_refl) as (k & -> & _). eauto. }
  unfold get. rewrite (idx2uid_optional _ _ Hreg). cbn. rewrite Hf. cbn.
  rewrite Hd. split.
  - intros Hin.
    assert (existsb (λ k : option nat, bool_decide (k = None))
              ((λ o, j ← o; uid self !! j) <$> l) = true) as ->; [|done].
    apply existsb_exists. exists None. split; [|done].
    apply list_elem_of_In, list_elem_of_fmap. by exists None.
  - cbn. rewrite comprehension_fmap.
    destruct (comprehension_Forall2
                (λ o : option ident,
                   match o ≫= (λ j, uid self !! j) with
                   | Some k => getitem lst k
                   | None => Ok default
                   end)
                (λ o c, match o with
                        | None => c = default
                        | Some j => ∃ k, uid self !! j = Some k ∧ lst !! k = Some c
                        end) l) as (out & E & F).
    { eapply Forall_impl; [exact Hl|].
      intros [j|] Ho; cbn; [|by eauto].
      destruct (Ho j eq_refl) as (k & Hj & Hk). rewrite Hj. cbn.
      unfold getitem. destruct (lookup_lt_is_Some_2 lst k Hk) as [c Hc].
      rewrite Hc. eauto. }
    exists out. unfold compose. rewrite E. done.
Qed.

End GetFacts.

(** C5, at a failing input. [Sn] of [PV] is held in an array, [bus] in a
    plain list. On the list the call [get('bus', [3, None],
    allow_none=True, default=0.0)] returns the value at 3 followed by
    [0.0], and with [allow_none=False] it raises [KeyError], as the
    docstring of [get] says. On the array the same call,
    [get('Sn', [3, None], allow_none=True, default=0.0)], raises
    [IndexError]: the handling of [None] is guarded by
    [isinstance(..., list)], so [allow_none] and [default] are never
    looked at and the positions, [None] included, index the array. With
    [allow_none=False] the array gives [IndexError] too, not
    [KeyError]. A scalar [None] identifier is never substituted either:
    it does not pass [isinstance(uid, Iterable)], so the test
    [uid is None] behind that guard cannot succeed, and on the list it
    is a [TypeError] whatever [allow_none] says. *)
Theorem get_allow_none_array_fails :
  Store.get Cases.heap0 Cases.PV "Sn" (XSeq [XId (IInt 3); XNone]) "v" true (Store.CNum 0%Q)
  = Raise IndexError
  ∧ Store.get Cases.heap0 Cases.PV "Sn" (XSeq [XId (IInt 3); XNone]) "v" false
              (Store.CNum 0%Q)
    = Raise IndexError
  ∧ Store.get Cases.heap0 Cases.PV "bus" (XSeq [XId (IInt 3); XNone]) "v" true
              (Store.CNum 0%Q)
    = Ok (Store.VList [Store.CId (IInt 2); Store.CNum 0%Q])
  ∧ Store.get Cases.heap0 Cases.PV "bus" (XSeq [XId (IInt 3); XNone]) "v" false
              (Store.CNum 0%Q)
    = Raise KeyError
  ∧ Store.get Cases.heap0 Cases.PV "bus" XNone "v" true (Store.CNum 0%Q)
    = Raise TypeError.
Proof. repeat split; vm_compute; reflexivity. Qed.

Lemma get_allow_none_witness :
  (None ∈ [Some (IInt 3); None] →
   Store.get Cases.heap0 Cases.PV "bus"
     (XSeq ((λ o, from_option XId XNone o) <$> [Some (IInt 3); None])) "v" false
     (Store.CNum 0%Q) = Raise KeyError)
  ∧ ∃ out,
      Store.get Cases.heap0 Cases.PV "bus"
        (XSeq ((λ o, from_option XId XNone o) <$> [Some (IInt 3); None])) "v" true
        (Store.CNum 0%Q) = Ok (Store.VList out)
      ∧ Forall2 (λ o c, match o with
                        | None => c = Store.CNum 0%Q
                        | Some j => ∃ k, Store.uid Cases.PV !! j = Some k
                                         ∧ Cases.refs [4; 2; 5; 3]%Z !! k = Some c
                        end) [Some (IInt 3); None] out.
Proof.
  apply (get_allow_none Cases.heap0 Cases.PV "bus" "v" 9).
  - vm_compute; reflexivity.
  - vm_compute; reflexivity.
  - repeat constructor; intros j [= <-]; exists 1; split; [vm_compute; reflexivity|cbn; lia].
Defined.

(** ** The PTDF partition *)

Section MakeFacts.
Context {num : Type} {AR : Arith num}.
Import Store System MatProcessor.

Lemma idx2uid_registered (uid : gmap ident nat) (l : list ident) :
  Forall (λ j, is_Some (uid !! j)) l →
  ∃ ks, Index.idx2uid uid (XSeq (XId <$> l)) = Ok (UMany (Some <$> ks))
        ∧ Forall2 (λ j k, uid !! j = Some k) l ks.
Proof.
  intros Hl. destruct (resolve_seq_registered uid l Hl) as (ks & E & F).
  exists ks. split; [|done].
  unfold Index.idx2uid. destruct l as [|j l']; [by inversion F|].
  rewrite fmap_cons in *. cbn. cbn in E. by rewrite E.
Qed.

Lemma index_inv_lt (self : model) i k :
  index_inv self → uid self !! i = Some k → k < n self.
Proof. intros Hinv Hk. apply Hinv in Hk. by apply lookup_lt_Some in Hk. Qed.

Lemma index_inv_inj (self : model) i j k :
  index_inv self → uid self !! i = Some k → uid self !! j = Some k → i = j.
Proof. intros Hinv Hi Hj. apply Hinv in Hi, Hj. congruence. Qed.

Lemma index_inv_NoDup (self : model) : index_inv self → NoDup (idx_v self).
Proof.
  intros Hinv. apply NoDup_alt. intros a b x Ha Hb.
  apply Hinv in Ha, Hb. congruence.
Qed.

Lemma cell_eqb_id (i j : ident) : cell_eqb (CId i) (CId j) = bool_decide (i = j).
Proof. by destruct i, j. Qed.

Lemma py_in_ids (bus : ident) (l : list ident) :
  py_in (CId bus) (CId <$> l) = bool_decide (bus ∈ l).
Proof.
  induction l as [|j l IH]; [done|].
  rewrite fmap_cons.
  change (py_in (CId bus) (CId j :: (CId <$> l)))
    with (cell_eqb (CId bus) (CId j) || py_in (CId bus) (CId <$> l)).
  rewrite IH, cell_eqb_id.
  destruct (decide (bus = j)) as [->|Hne].
  - rewrite bool_decide_eq_true_2 by done. cbn.
    symmetry. apply bool_decide_eq_true_2. by left.
  - rewrite (bool_decide_eq_false_2 (bus = j)) by done. cbn.
    apply bool_decide_ext. rewrite elem_of_cons. naive_solver.
Qed.

Lemma as_bus_idx_id (i : ident) : as_bus_idx (CId i : cell num) = i.
Proof. by destruct i. Qed.

Section Positions.
Context {A B : Type} (R : A → B → Prop).
Hypothesis R_inj : ∀ a a' b, R a b → R a' b → a = a'.

Lemma Forall2_elem_of_r (l : list A) (ks : list B) b :
  Forall2 R l ks → b ∈ ks → ∃ a, a ∈ l ∧ R a b.
Proof.
  intros F Hb. apply list_elem_of_lookup in Hb as [p Hp].
  destruct (Forall2_lookup_r _ _ _ _ _ F Hp) as (a & Ha & HR).
  exists a. split; [|done]. apply list_elem_of_lookup. eauto.
Qed.

Lemma Forall2_elem_of_l (l : list A) (ks : list B) a :
  Forall2 R l ks → a ∈ l → ∃ b, b ∈ ks ∧ R a b.
Proof.
  intros F Ha. apply list_elem_of_lookup in Ha as [p Hp].
  destruct (Forall2_lookup_l _ _ _ _ _ F Hp) as (b & Hb & HR).
  exists b. split; [|done]. apply list_elem_of_lookup. eauto.
Qed.

Lemma Forall2_NoDup (l : list A) (ks : list B) :
  Forall2 R l ks → NoDup l → NoDup ks.
Proof.
  induction 1 as [|a b l ks HR F IH]; [intros; constructor|].
  rewrite !NoDup_cons. intros [Ha Hl]. split; [|by apply IH].
  intros Hb. destruct (Forall2_elem_of_r _ _ _ F Hb) as (a' & Ha' & HR').
  by rewrite (R_inj _ _ _ HR HR') in Ha.
Qed.

End Positions.

Lemma columns_at (PTDF : list (list num)) (ks : list nat) (width : nat) :
  Forall (λ row, length row = width) PTDF →
  Forall (λ k, k < width) ks →
  ∃ out, columns PTDF (Some <$> ks) = Ok out
         ∧ Forall2 (λ row r, Forall2 (λ k x, row !! k = Some x) ks r) PTDF out.
Proof.
  intros Hrows Hks. unfold columns.
  apply comprehension_Forall2. eapply Forall_impl; [exact Hrows|].
  intros row Hrow. rewrite comprehension_fmap.
  apply comprehension_Forall2. eapply Forall_impl; [exact Hks|].
  intros k Hk. cbn.
  assert (k < length row) as Hlt by (cbv beta in Hrow, Hk; lia).
  destruct (lookup_lt_is_Some_2 row k Hlt) as [x Hx].
  rewrite Hx. eauto.
Qed.

(** C1, as the code has it. [make] returns the generator block, the
    block of the other buses, and the full matrix. The generator block
    has one column per generator, the column of that generator's bus, in
    generator order (a bus with several generators is repeated); the
    other block has the columns of the buses without a generator, each
    once, in bus-table order. No bus column is dropped and no column is
    in both blocks. When no two generators share a bus, the two blocks
    together hold every bus column exactly once. *)
Theorem make_partition (sys : system num) (g : groupbase) (Bus : model)
    (gen_bus : list ident) (PTDF Cft : list (list num)) :
  getattr sys (Some "StaticGen") = Ok (OGroup g) →
  Group.get sys g "bus" (Group.get_idx sys g) "v" = Ok (VArray (CId <$> gen_bus)) →
  getattr sys (Some "Bus") = Ok (OModel "Bus" Bus) →
  index_inv Bus →
  Forall (λ i, is_Some (uid Bus !! i)) gen_bus →
  Forall (λ row, length row = n Bus) PTDF →
  ∃ reg red ur ud,
    make sys PTDF Cft = Ok (reg, red, PTDF, Cft)
    ∧ Forall2 (λ i k, uid Bus !! i = Some k) gen_bus ur
    ∧ Forall2 (λ i k, uid Bus !! i = Some k)
              (filter (λ i, i ∉ gen_bus) (idx_v Bus)) ud
    ∧ Forall2 (λ row r, Forall2 (λ k x, row !! k = Some x) ur r) PTDF reg
    ∧ Forall2 (λ row r, Forall2 (λ k x, row !! k = Some x) ud r) PTDF red
    ∧ NoDup ud
    ∧ (∀ k, k ∈ ur → k ∉ ud)
    ∧ (∀ k, k < n Bus → k ∈ ur ∨ k ∈ ud)
    ∧ (NoDup gen_bus → ur ++ ud ≡ₚ seq 0 (n Bus)).
Proof.
  intros HSG Hget HBus Hinv Hreg Hrows.
  set (rel := λ (i : ident) (k : nat), uid Bus !! i = Some k).
  assert (∀ a a' b, rel a b → rel a' b → a = a') as Hinj.
  { intros a a' b. apply index_inv_inj, Hinv. }
  set (redBus := filter (λ i, i ∉ gen_bus) (idx_v Bus)).
  assert (filter (λ bus, negb (py_in (CId bus) (CId <$> gen_bus : list (cell num))))
                 (idx_v Bus) = redBus) as Hfilter.
  { apply list_filter_iff. intros i. rewrite py_in_ids.
    rewrite negb_True, bool_decide_spec. done. }
  assert (Forall (λ i, is_Some (uid Bus !! i)) redBus) as Hred.
  { apply Forall_forall. intros i Hi. apply list_elem_of_filter in Hi as [_ Hi].
    apply list_elem_of_lookup in Hi as [k Hk]. exists k. by apply Hinv. }
  destruct (idx2uid_registered _ _ Hreg) as (ur & Eur & Fur).
  destruct (idx2uid_registered _ _ Hred) as (ud & Eud & Fud).
  assert (Forall (λ k, k < n Bus) ur) as Hur.
  { apply Forall_forall. intros k Hk.
    destruct (Forall2_elem_of_r _ _ _ _ Fur Hk) as (i & _ & Hi).
    eapply index_inv_lt; eauto. }
  assert (Forall (λ k, k < n Bus) ud) as Hud.
  { apply Forall_forall. intros k Hk.
    destruct (Forall2_elem_of_r _ _ _ _ Fud Hk) as (i & _ & Hi).
    eapply index_inv_lt; eauto. }
  destruct (columns_at _ _ _ Hrows Hur) as (reg & Ereg & Freg).
  destruct (columns_at _ _ _ Hrows Hud) as (red & Ered & Fred).
  assert (NoDup ud) as Hnd.
  { eapply (Forall2_NoDup rel Hinj); [exact Fud|].
    apply NoDup_filter, index_inv_NoDup, Hinv. }
  assert (∀ k, k ∈ ur → k ∉ ud) as Hdisj.
  { intros k Hk Hk'.
    destruct (Forall2_elem_of_r _ _ _ _ Fur Hk) as (i & Hi & Ri).
    destruct (Forall2_elem_of_r _ _ _ _ Fud Hk') as (j & Hj & Rj).
    apply list_elem_of_filter in Hj as [Hj _].
    by rewrite (Hinj _ _ _ Ri Rj) in Hi. }
  assert (∀ k, k < n Bus → k ∈ ur ∨ k ∈ ud) as Hcover.
  { intros k Hk. destruct (lookup_lt_is_Some_2 (idx_v Bus) k Hk) as [i Hi].
    assert (rel i k) as Ri by by apply Hinv.
    destruct (decide (i ∈ gen_bus)) as [Hin|Hout].
    - left. destruct (Forall2_elem_of_l _ _ _ _ Fur Hin) as (k' & Hk' & Ri').
      unfold rel in *. congruence.
    - right.
      assert (i ∈ redBus) as Hin.
      { apply list_elem_of_filter. split; [done|].
        apply list_elem_of_lookup. eauto. }
      destruct (Forall2_elem_of_l _ _ _ _ Fud Hin) as (k' & Hk' & Ri').
      unfold rel in *. congruence. }
  exists reg, red, ur, ud. split.
  { unfold make. step HSG. step Hget. unfold iter_cells. step HBus.
    rewrite ?outcome_bind_ok. cbv beta iota zeta.
    rewrite Hfilter.
    rewrite <- (list_fmap_compose CId as_bus_idx).
    rewrite (list_fmap_ext (as_bus_idx ∘ CId) id gen_bus)
      by (intros; apply as_bus_idx_id).
    rewrite (list_fmap_ext (λ bus, as_bus_idx (CId bus)) id redBus)
      by (intros; apply as_bus_idx_id).
    rewrite !list_fmap_id. step Eur. step Eud.
    unfold positions. step Ereg. step Ered. done. }
  repeat split; try done.
  intros Hgen.
  apply NoDup_Permutation.
  - apply NoDup_app. split; [|split; [done|done]].
    eapply (Forall2_NoDup rel Hinj); eauto.
  - apply NoDup_seq.
  - intros k. rewrite elem_of_app, elem_of_seq. split.
    + intros [Hk|Hk]; [apply Forall_forall with (x := k) in Hur|
                       apply Forall_forall with (x := k) in Hud]; auto; lia.
    + intros [_ Hk]. apply Hcover. lia.
Qed.

End MakeFacts.

Section CaseFacts.
Import Store Cases.

Lemma elem_of_zip_seq {A} (l : list A) (x : A) (k : nat) :
  (x, k) ∈ zip l (seq 0 (length l)) ↔ l !! k = Some x.
Proof.
  rewrite list_elem_of_lookup. split.
  - intros [p Hp]. apply lookup_zip_with_Some in Hp as (y & q & [= -> ->] & Hy & Hq).
    apply lookup_seq in Hq as [-> _]. done.
  - intros Hk. exists k. apply lookup_zip_with_Some. exists x, k.
    split; [done|]. split; [done|]. apply lookup_seq. split; [done|].
    by apply lookup_lt_Some in Hk.
Qed.

Lemma fst_zip_seq {A} (l : list A) : (zip l (seq 0 (length l))).*1 = l.
Proof. apply fst_zip. by rewrite length_seq. Qed.

(** An index built by registering the identifiers of a duplicate-free
    list in order satisfies the invariant. *)
Lemma index_lookup (idx : list ident) (i : ident) (k : nat) :
  NoDup idx → index idx !! i = Some k ↔ idx !! k = Some i.
Proof.
  intros Hnd. unfold index.
  rewrite <- elem_of_list_to_map by by rewrite fst_zip_seq.
  apply elem_of_zip_seq.
Qed.

Lemma Bus_index_inv : index_inv Bus.
Proof.
  intros i k. apply index_lookup.
  apply (bool_decide_unpack _). vm_compute. exact I.
Qed.

End CaseFacts.

(** C1, as stated, fails when two generators share a bus: with PV
    generators 3 and 4 both on bus 2 the generator block holds the column
    of bus 2 twice, so the two blocks together are not a rearrangement of
    the columns of the full matrix. *)
Lemma make_duplicates_shared_bus :
  MatProcessor.make Cases.sys_shared_bus Cases.PTDF0 []
  = Ok ([ [11; 14; 12; 12; 13]; [21; 24; 22; 22; 23] ]%Q,
        [ [15; 16]; [25; 26] ]%Q, Cases.PTDF0, [])
  ∧ ¬ ([11; 14; 12; 12; 13] ++ [15; 16] ≡ₚ [11; 12; 13; 14; 15; 16])%Q.
Proof.
  split; [vm_compute; reflexivity|].
  intros HP. apply Permutation_length in HP. discriminate.
Qed.

Lemma make_partition_witness :
  ∃ reg red ur ud,
    MatProcessor.make Cases.sys0 Cases.PTDF0 [] = Ok (reg, red, Cases.PTDF0, [])
    ∧ Forall2 (λ i k, Store.uid Cases.Bus !! i = Some k) (Cases.ints [1; 4; 2; 5; 3]%Z) ur
    ∧ Forall2 (λ i k, Store.uid Cases.Bus !! i = Some k)
              (filter (λ i, i ∉ Cases.ints [1; 4; 2; 5; 3]%Z) (Store.idx_v Cases.Bus)) ud
    ∧ Forall2 (λ row r, Forall2 (λ k x, row !! k = Some x) ur r) Cases.PTDF0 reg
    ∧ Forall2 (λ row r, Forall2 (λ k x, row !! k = Some x) ud r) Cases.PTDF0 red
    ∧ NoDup ud
    ∧ (∀ k, k ∈ ur → k ∉ ud)
    ∧ (∀ k, k < Store.n Cases.Bus → k ∈ ur ∨ k ∈ ud)
    ∧ (NoDup (Cases.ints [1; 4; 2; 5; 3]%Z) → ur ++ ud ≡ₚ seq 0 (Store.n Cases.Bus)).
Proof.
  apply (make_partition Cases.sys0 Cases.StaticGen Cases.Bus
           (Cases.ints [1; 4; 2; 5; 3]%Z) Cases.PTDF0 []).
  - vm_compute; reflexivity.
  - vm_compute; reflexivity.
  - vm_compute; reflexivity.
  - exact Bus_index_inv.
  - repeat constructor; vm_compute; eauto.
  - repeat constructor.
Defined.

(** ** Groups and Parameter References *)

Section GroupFacts.
Context {num : Type} {AR : Arith num}.
Import Store System.

Lemma comprehension_lookup {A B} (g : A → outcome B) (l : list A) (out : list B) :
  length out = length l →
  (∀ k x, l !! k = Some x → ∃ y, out !! k = Some y ∧ g x = Ok y) →
  comprehension g l = Ok out.
Proof.
  revert out. induction l as [|x l IH]; intros out Hlen Hall.
  - by destruct out.
  - destruct out as [|y out]; [done|]. cbn.
    destruct (Hall 0 x eq_refl) as (y' & [= <-] & ->). cbn.
    rewrite (IH out); [done|by inversion Hlen|].
    intros k x' Hk. apply (Hall (S k) x' Hk).
Qed.

Lemma idx2model_member (sys : system num) (g : groupbase) (p : nat) (m : model)
    (i : ident) :
  Group.group_inv sys g →
  Group.members sys g !! p = Some m →
  is_Some (uid m !! i) →
  Group.idx2model sys g i = Ok m.
Proof.
  intros [_ Hdisj] Hm Hi. unfold Group.idx2model.
  destruct (list_find (λ m', is_Some (uid m' !! i)) (Group.members sys g))
    as [[p' m']|] eqn:E.
  - apply list_find_Some in E as (Hm' & Hi' & _).
    assert (p' = p) as -> by eauto. congruence.
  - apply list_find_None in E.
    apply Forall_forall with (x := m) in E; [done|].
    apply list_elem_of_lookup. eauto.
Qed.

(** Reading an attribute through the group at the identifiers of one
    member gives that member's array. *)
Lemma group_get_member (sys : system num) (g : groupbase) (p : nat) (m : model)
    (src attr : string) (arr : list (cell num)) :
  Group.group_inv sys g →
  Group.members sys g !! p = Some m →
  read (heap sys) m src attr = Some arr →
  length arr = n m →
  comprehension
    (λ i, m ← Group.idx2model sys g i;
          k ← Index._one_idx2uid (uid m) (XId i);
          a ← field m src attr;
          getitem (contents (deref (heap sys) a)) k) (idx_v m)
  = Ok arr.
Proof.
  intros Hinv Hm Hread Hlen.
  assert (index_inv m) as Hidx.
  { destruct Hinv as [Hall _]. apply Forall_forall with (x := m) in Hall; [done|].
    apply list_elem_of_lookup. eauto. }
  apply comprehension_lookup; [done|].
  intros k i Hk.
  assert (k < length arr) as Hlt.
  { rewrite Hlen. by apply lookup_lt_Some in Hk. }
  destruct (lookup_lt_is_Some_2 arr k Hlt) as [y Hy].
  exists y. split; [done|].
  assert (uid m !! i = Some k) as Hi by by apply Hidx.
  rewrite (idx2model_member sys g p m i); [|done|done|by eauto].
  rewrite outcome_bind_ok. cbn. rewrite Hi. cbn.
  unfold read in Hread. destruct (field m src attr) as [a|]; [|done].
  cbn. injection Hread as <-. unfold getitem. by rewrite Hy.
Qed.

(** Reading an attribute through the group at the group's identifier
    list concatenates the members' arrays in registration order. *)
Lemma group_get_concat (sys : system num) (g : groupbase) (src attr : string) :
  Group.group_inv sys g →
  Forall (λ m, ∃ arr, read (heap sys) m src attr = Some arr ∧ length arr = n m)
         (Group.members sys g) →
  Group.get sys g src (Group.get_idx sys g) attr
  = Ok (VArray (concat ((λ m, default [] (read (heap sys) m src attr))
                          <$> Group.members sys g))).
Proof.
  intros Hinv Hall. unfold Group.get, Group.get_idx.
  set (body := λ i : ident, _).
  assert (∀ ms, (∀ m, m ∈ ms → m ∈ Group.members sys g) →
            comprehension body (concat (idx_v <$> ms))
            = Ok (concat ((λ m, default [] (read (heap sys) m src attr)) <$> ms)))
    as Hsub.
  { induction ms as [|m ms IH]; intros Hin; [done|].
    rewrite !fmap_cons. cbn [concat]. rewrite comprehension_app.
    assert (m ∈ Group.members sys g) as Hm by (apply Hin; by left).
    apply Forall_forall with (x := m) in Hall as (arr & Hr & Hlen); [|done].
    apply list_elem_of_lookup in Hm as [p Hp].
    pose proof (group_get_member sys g p m src attr arr Hinv Hp Hr Hlen) as E.
    change (comprehension body (idx_v m) = Ok arr) in E. rewrite E.
    rewrite outcome_bind_ok. rewrite IH by (intros; apply Hin; by right).
    rewrite outcome_bind_ok. by rewrite Hr. }
  by rewrite Hsub.
Qed.

End GroupFacts.

Section RParamFacts.
Context {num : Type} {AR : Arith num}.
Import Store System RParam.

(** C7. Reading [.v] takes one path, chosen in this order: a value given
    at construction is returned as it is; otherwise a reference flagged
    as a group reference reads through the group at the group's
    identifier list, which concatenates the member collections' arrays
    in registration order; otherwise the array object of the owner's
    source attribute is handed out. *)
Theorem rparam_v_resolution (sys : system num) (self : rparam num) :
  (∀ (name tex_name info src unit owner_name : option string)
     (x : value num) (v_str : option string),
     is_set (__init__ name tex_name info src unit owner_name (Some x) v_str) = true
     ∧ _v (__init__ name tex_name info src unit owner_name (Some x) v_str) = Some x
     ∧ is_set (__init__ (num := num) name tex_name info src unit owner_name None v_str)
       = false)
  ∧ match is_set self, is_group self with
    | true, _ => ∀ x, _v self = Some x → v sys self = Ok (Owned x)
    | false, true =>
        ∀ g s, owner self = Some (OwnGroup g) → src self = Some s →
          v sys self = Owned <$> Group.get sys g s (Group.get_idx sys g) "v"
          ∧ (Group.group_inv sys g →
             Forall (λ m, ∃ arr, read (heap sys) m s "v" = Some arr
                                 ∧ length arr = n m) (Group.members sys g) →
             v sys self
             = Ok (Owned (VArray (concat ((λ m, default [] (read (heap sys) m s "v"))
                                            <$> Group.members sys g)))))
    | false, false =>
        ∀ m mdl s a, owner self = Some (OwnModel m) → src self = Some s →
          s_models sys !! m = Some mdl → field mdl s "v" = Ok a →
          v sys self = Ok (Borrowed a)
    end.
Proof.
  split; [done|].
  unfold v. destruct (is_set self), (is_group self).
  - by intros x ->.
  - by intros x ->.
  - intros g s -> ->. split; [done|].
    intros Hinv Hall. by rewrite (group_get_concat sys g s "v" Hinv Hall).
  - intros m mdl s a -> -> -> Hf. unfold field in Hf.
    destruct (fields mdl !! s) as [facets|]; [|done].
    destruct (facets !! "v"); [|done]. by injection Hf as ->.
Qed.

End RParamFacts.

Section CaseGroupFacts.
Import Store Cases.

Lemma Slack_index_inv : index_inv Slack.
Proof.
  intros i k. apply index_lookup. apply (bool_decide_unpack _). vm_compute. exact I.
Qed.

Lemma PV_index_inv : index_inv PV.
Proof.
  intros i k. apply index_lookup. apply (bool_decide_unpack _). vm_compute. exact I.
Qed.

Lemma registered_in (idx : list ident) (i : ident) :
  NoDup idx → is_Some (index idx !! i) → i ∈ idx.
Proof.
  intros Hnd [k Hk]. apply index_lookup in Hk; [|done].
  apply list_elem_of_lookup. eauto.
Qed.

Lemma StaticGen_inv (h : gmap loc (storage Q)) : Group.group_inv (with_heap h) StaticGen.
Proof.
  assert (Group.members (with_heap h) StaticGen = [Slack; PV]) as E
    by (vm_compute; reflexivity).
  unfold Group.group_inv. rewrite E. split.
  - constructor; [apply Slack_index_inv|].
    constructor; [apply PV_index_inv|constructor].
  - intros p1 p2 m1 m2 i H1 H2 Hi1 Hi2.
    assert (NoDup (ints [1]%Z)) as N1 by (apply (bool_decide_unpack _); vm_compute; exact I).
    assert (NoDup (ints [2; 3; 4; 5]%Z)) as N2
      by (apply (bool_decide_unpack _); vm_compute; exact I).
    destruct p1 as [|[|p1]], p2 as [|[|p2]]; try done;
      cbn in H1, H2; try discriminate;
      injection H1 as <-; injection H2 as <-;
      apply registered_in in Hi1; try done; apply registered_in in Hi2; try done;
      exfalso; revert Hi1 Hi2; unfold ints;
      rewrite !list_elem_of_fmap; intros (z1 & -> & Hz1) (z2 & [= <-] & Hz2);
      revert Hz1 Hz2; rewrite !elem_of_cons, !elem_of_nil; lia.
Qed.

End CaseGroupFacts.

Lemma rparam_v_resolution_witness :
  RParam.v Cases.sys0 Cases.p_explicit = Ok (RParam.Owned (Store.VArray (Cases.nums [7; 8]%Q)))
  ∧ RParam.v Cases.sys0 Cases.p_group
    = Ok (RParam.Owned (Store.VArray (Cases.nums [1; 1; 1; 1; 1]%Q)))
  ∧ RParam.v Cases.sys0 Cases.p_single = Ok (RParam.Borrowed 6).
Proof.
  split; [|split].
  - pose proof (proj2 (rparam_v_resolution Cases.sys0 Cases.p_explicit)) as H.
    hnf in H. apply H. reflexivity.
  - pose proof (proj2 (rparam_v_resolution Cases.sys0 Cases.p_group)) as H.
    hnf in H.
    destruct (H Cases.StaticGen "u" eq_refl eq_refl) as [_ H'].
    etransitivity; [apply H'|vm_compute; reflexivity].
    + apply StaticGen_inv.
    + assert (Group.members Cases.sys0 Cases.StaticGen = [Cases.Slack; Cases.PV]) as E
        by (vm_compute; reflexivity).
      rewrite E.
      constructor; [eexists; split; [vm_compute; reflexivity|reflexivity]|].
      constructor; [eexists; split; [vm_compute; reflexivity|reflexivity]|constructor].
  - pose proof (proj2 (rparam_v_resolution Cases.sys0 Cases.p_single)) as H.
    hnf in H. apply (H "PV" Cases.PV "p" 6); reflexivity.
Defined.

(** ** The routine pipeline *)

Section RoutineFacts.
Context {num : Type} {AR : Arith num}.
Import Store System Routine.

Lemma bound_attr (s : system num) mdl src arr :
  bound s mdl src arr → attr s mdl src = Some arr.
Proof.
  intros (m & facets & a & Hm & Hf & Ha & Hh).
  unfold attr, read, field, deref. rewrite Hm. cbn. by rewrite Hf, Ha, Hh.
Qed.

Lemma model_n_size (s : system num) mdl k :
  size s mdl = Some k → model_n mdl s = (Ok k, s).
Proof.
  unfold size, model_n. destruct (s_models s !! mdl); [|done].
  cbn. by intros [= <-].
Qed.

(** Binding [system.<mdl>.<src>.v] to a new array leaves every other
    bound array, every declared attribute and every size as it was. *)
Lemma setattr_v_spec (s : system num) mdl src arr :
  declares s mdl src →
  ∃ s', setattr_v mdl src arr s = (Ok tt, s')
        ∧ bound s' mdl src arr
        ∧ (∀ mdl' src' arr', mdl' ≠ mdl ∨ src' ≠ src →
             bound s mdl' src' arr' → bound s' mdl' src' arr')
        ∧ (∀ mdl' src', declares s mdl' src' → declares s' mdl' src')
        ∧ (∀ mdl', size s' mdl' = size s mdl').
Proof.
  intros (m & Hm & [facets Hf]). unfold setattr_v. rewrite Hm, Hf.
  set (a := fresh (dom (heap s))).
  set (m1 := Model (Store.class_name m) (group m) (idx_v m) (uid m)
                   (<[src := <["v" := a]> facets]> (fields m))).
  eexists. split; [reflexivity|].
  assert (heap s !! a = None) as Hfresh.
  { apply not_elem_of_dom. apply is_fresh. }
  split; [|split; [|split]].
  - exists m1, (<["v" := a]> facets), a. cbn.
    rewrite !lookup_insert_eq. done.
  - intros mdl' src' arr' Hne (m' & facets' & a' & Hm' & Hf' & Ha' & Hh').
    assert (a' ≠ a) as Hloc by congruence.
    destruct (decide (mdl' = mdl)) as [->|Hmdl].
    + assert (src' ≠ src) as Hsrc by (by destruct Hne).
      assert (m' = m) as -> by congruence.
      exists m1, facets', a'. cbn. rewrite lookup_insert_eq.
      rewrite (lookup_insert_ne (fields m)) by done.
      rewrite (lookup_insert_ne (heap s)) by done. done.
    + exists m', facets', a'. cbn.
      rewrite (lookup_insert_ne (s_models s)) by done.
      rewrite (lookup_insert_ne (heap s)) by done. done.
  - intros mdl' src' (m' & Hm' & Hs'). unfold declares. cbn.
    destruct (decide (mdl' = mdl)) as [->|Hmdl].
    + assert (m' = m) as -> by congruence.
      exists m1. rewrite lookup_insert_eq. split; [done|]. cbn.
      destruct (decide (src' = src)) as [->|Hsrc].
      * rewrite lookup_insert_eq. eauto.
      * by rewrite lookup_insert_ne.
    + exists m'. by rewrite lookup_insert_ne.
  - intros mdl'. unfold size. cbn.
    destruct (decide (mdl' = mdl)) as [->|Hmdl].
    + rewrite lookup_insert_eq, Hm. done.
    + by rewrite lookup_insert_ne.
Qed.

Lemma M_bind_ok {S A B} (c : M S A) (k : A → M S B) (s s1 : S) (a : A) :
  c s = (Ok a, s1) → (c ≫= k) s = k a s1.
Proof. intros E. unfold mbind, M_bind, mlet. by rewrite E. Qed.

Lemma M_bind_raise {S A B} (c : M S A) (k : A → M S B) (s s1 : S) (e : exn) :
  c s = (Raise e, s1) → (c ≫= k) s = (Raise e, s1).
Proof. intros E. unfold mbind, M_bind, mlet. by rewrite E. Qed.

(** The write-back block of [unpack]: it completes, and afterwards the
    six device attributes are bound to the solver's values. *)
Lemma write_back_spec (res : result num) (s : system num)
    (vm va pg qg : list num) (k : nat) :
  declares s "Bus" "v" → declares s "Bus" "a" →
  declares s "PV" "p" → declares s "PV" "q" →
  declares s "Slack" "p" → declares s "Slack" "q" →
  column 7 (bus res) = Ok vm → column 8 (bus res) = Ok va →
  column 1 (gen res) = Ok pg → column 2 (gen res) = Ok qg →
  size s "Slack" = Some k →
  ∃ s', write_back res s = (Ok tt, s')
    ∧ bound s' "Bus" "v" (CNum <$> vm)
    ∧ bound s' "Bus" "a" ((λ y, CNum (num_mul y deg2rad)) <$> va)
    ∧ bound s' "PV" "p" ((λ y, CNum (num_div y (baseMVA res))) <$> drop k pg)
    ∧ bound s' "PV" "q" ((λ y, CNum (num_div y (baseMVA res))) <$> drop k qg)
    ∧ bound s' "Slack" "p" ((λ y, CNum (num_div y (baseMVA res))) <$> take k pg)
    ∧ bound s' "Slack" "q" ((λ y, CNum (num_div y (baseMVA res))) <$> take k qg).
Proof.
  intros D1 D2 D3 D4 D5 D6 Evm Eva Epg Eqg Hk. unfold write_back.
  rewrite (M_bind_ok _ _ s s vm) by (unfold lift; by rewrite Evm).
  destruct (setattr_v_spec s "Bus" "v" (CNum <$> vm) D1)
    as (s1 & E1 & B1 & F1 & K1 & Z1).
  rewrite (M_bind_ok _ _ _ _ _ E1).
  rewrite (M_bind_ok _ _ s1 s1 va) by (unfold lift; by rewrite Eva).
  destruct (setattr_v_spec s1 "Bus" "a" ((λ y, CNum (num_mul y deg2rad)) <$> va))
    as (s2 & E2 & B2 & F2 & K2 & Z2); [by apply K1|].
  rewrite (M_bind_ok _ _ _ _ _ E2).
  rewrite (M_bind_ok _ _ s2 s2 k) by (apply model_n_size; by rewrite Z2, Z1).
  rewrite (M_bind_ok _ _ s2 s2 (drop k pg))
    by (unfold lift; by rewrite Epg).
  destruct (setattr_v_spec s2 "PV" "p"
              ((λ y, CNum (num_div y (baseMVA res))) <$> drop k pg))
    as (s3 & E3 & B3 & F3 & K3 & Z3); [by apply K2, K1|].
  rewrite (M_bind_ok _ _ _ _ _ E3).
  rewrite (M_bind_ok _ _ s3 s3 k) by (apply model_n_size; by rewrite Z3, Z2, Z1).
  rewrite (M_bind_ok _ _ s3 s3 (drop k qg))
    by (unfold lift; by rewrite Eqg).
  destruct (setattr_v_spec s3 "PV" "q"
              ((λ y, CNum (num_div y (baseMVA res))) <$> drop k qg))
    as (s4 & E4 & B4 & F4 & K4 & Z4); [by apply K3, K2, K1|].
  rewrite (M_bind_ok _ _ _ _ _ E4).
  rewrite (M_bind_ok _ _ s4 s4 k) by (apply model_n_size; by rewrite Z4, Z3, Z2, Z1).
  rewrite (M_bind_ok _ _ s4 s4 (take k pg))
    by (unfold lift; by rewrite Epg).
  destruct (setattr_v_spec s4 "Slack" "p"
              ((λ y, CNum (num_div y (baseMVA res))) <$> take k pg))
    as (s5 & E5 & B5 & F5 & K5 & Z5); [by apply K4, K3, K2, K1|].
  rewrite (M_bind_ok _ _ _ _ _ E5).
  rewrite (M_bind_ok _ _ s5 s5 k)
    by (apply model_n_size; by rewrite Z5, Z4, Z3, Z2, Z1).
  rewrite (M_bind_ok _ _ s5 s5 (take k qg))
    by (unfold lift; by rewrite Eqg).
  destruct (setattr_v_spec s5 "Slack" "q"
              ((λ y, CNum (num_div y (baseMVA res))) <$> take k qg))
    as (s6 & E6 & B6 & F6 & K6 & Z6); [by apply K5, K4, K3, K2, K1|].
  exists s6. split; [exact E6|].
  split; [apply F6, F5, F4, F3, F2; auto|].
  split; [apply F6, F5, F4, F3; auto|].
  split; [apply F6, F5, F4; auto|].
  split; [apply F6, F5; auto|].
  split; [apply F6; auto|done].
Qed.

(** *** What the steps of [unpack] and [run] leave alone *)

Lemma keeps_bind {S A B X} (f : S → X) (c : M S A) (k : A → M S B) :
  keeps f c → (∀ a, keeps f (k a)) → keeps f (c ≫= k).
Proof.
  intros Hc Hk s. unfold mbind, M_bind, mlet.
  specialize (Hc s). destruct (c s) as [[a|e] s1]; cbn in *.
  - by rewrite Hk.
  - done.
Qed.

Lemma keeps_ret {S A X} (f : S → X) (a : A) : keeps f (mret a : M S A).
Proof. by intros s. Qed.

Lemma keeps_raise {S A X} (f : S → X) (e : exn) : keeps f (raise e : M S A).
Proof. by intros s. Qed.

Lemma keeps_lift {S A X} (f : S → X) (o : outcome A) : keeps f (lift o : M S A).
Proof. by intros s. Qed.

Lemma keeps_gets {S A X} (f : S → X) (g : S → A) : keeps f (gets g).
Proof. by intros s. Qed.

Lemma keeps_modify {S X} (f : S → X) (g : S → S) :
  (∀ s, f (g s) = f s) → keeps f (modify g).
Proof. intros Hg s. apply Hg. Qed.

Lemma keeps_for_each {S A X} (f : S → X) (body : A → M S unit) (l : list A) :
  (∀ x, keeps f (body x)) → keeps f (for_each body l).
Proof.
  intros Hb. induction l as [|x l IH]; [by intros s|].
  cbn. apply (keeps_bind f (body x) (λ _, for_each body l)); auto.
Qed.

Lemma keeps_on_sys_core {A} (c : M (system num) A) : keeps core (on_sys c).
Proof. intros r. unfold on_sys. by destruct (c (sys r)). Qed.

Lemma keeps_unpack_var {X} (f : routine num → X) store dict raname var :
  (∀ vs r, f (store vs r) = f r) → (∀ m r, f (logger m r) = f r) →
  keeps f (unpack_var store dict raname var).
Proof.
  intros Hs Hl r. unfold unpack_var.
  destruct (resolve (sys r) var) as [[| |]|]; cbn; auto.
Qed.

Lemma keeps_set_recent {X} (f : routine num → X) :
  (∀ s r, s_models s = s_models (sys r) → heap s = heap (sys r) →
          f (set_sys s r) = f r) →
  keeps f set_recent.
Proof.
  intros Hf r. unfold set_recent.
  destruct (s_routines (sys r) !! class_name r); cbn; [|done]. by apply Hf.
Qed.

Lemma keeps_setattr_v {X} (f : system num → X) mdl src arr :
  (∀ s ms h, f (System ms (s_groups s) (s_others s) h (recent s) (s_routines s))
             = f s) →
  keeps f (setattr_v mdl src arr).
Proof.
  intros Hf s. unfold setattr_v.
  destruct (s_models s !! mdl) as [m|]; [|done].
  destruct (fields m !! src); [|done]. cbn. apply Hf.
Qed.

Lemma keeps_model_n {X} (f : system num → X) mdl : keeps f (model_n mdl).
Proof. intros s. unfold model_n. by destruct (s_models s !! mdl). Qed.

(** The write-back block leaves the registry of routines alone. *)
Lemma keeps_write_back_routines (res : result num) :
  keeps s_routines (write_back res).
Proof.
  unfold write_back.
  repeat first
    [ apply keeps_bind; [|intros ?]
    | apply keeps_lift
    | apply keeps_model_n
    | apply keeps_setattr_v; by intros ].
Qed.

(** [unpack] touches nothing of what [run] has set. *)
Lemma dcpf_unpack_core (res : result num) : keeps core (DCPFlowBase.unpack res).
Proof.
  unfold DCPFlowBase.unpack.
  repeat first
    [ apply keeps_bind; [|intros ?]
    | apply keeps_on_sys_core
    | apply keeps_gets
    | apply keeps_ret
    | apply keeps_for_each; intros []; apply keeps_unpack_var; by intros
    | apply keeps_set_recent; by intros ].
Qed.

Lemma acopf_unpack_core (res : result num) : keeps core (ACOPFBase.unpack res).
Proof.
  unfold ACOPFBase.unpack.
  repeat first
    [ apply keeps_bind; [|intros ?]
    | apply keeps_on_sys_core
    | apply keeps_gets
    | apply keeps_ret
    | apply keeps_for_each; intros []; apply keeps_unpack_var; by intros
    | apply keeps_modify; by intros
    | apply keeps_set_recent; by intros ].
Qed.

(** After the write-back block, [unpack] leaves the device data alone,
    whether it then completes or raises. *)
Lemma dcpf_unpack_devices (res : result num) (r : routine num) s1 :
  write_back res (sys r) = (Ok tt, s1) →
  devices (snd (DCPFlowBase.unpack res r)) = (s_models s1, heap s1).
Proof.
  intros E. unfold DCPFlowBase.unpack.
  rewrite (M_bind_ok _ _ r (set_sys s1 r) tt) by (unfold on_sys; by rewrite E).
  change (s_models s1, heap s1) with (devices (set_sys s1 r)).
  revert r E. intros r _. generalize (set_sys s1 r). clear r. intros r.
  revert r. change (keeps devices
    (vs ← gets vars;
     for_each (λ '(raname, var), unpack_var set_vars vars raname var) vs;;
     set_recent;; mret true)).
  repeat first
    [ apply keeps_bind; [|intros ?]
    | apply keeps_gets
    | apply keeps_ret
    | apply keeps_for_each; intros []; apply keeps_unpack_var; by intros
    | apply keeps_set_recent; intros ? ? Hm Hh; unfold devices; cbn; by rewrite Hm, Hh ].
Qed.

Lemma acopf_unpack_devices (res : result num) (r : routine num) s1 :
  write_back res (sys r) = (Ok tt, s1) →
  devices (snd (ACOPFBase.unpack res r)) = (s_models s1, heap s1).
Proof.
  intros E. unfold ACOPFBase.unpack.
  rewrite (M_bind_ok _ _ r (set_sys s1 r) tt) by (unfold on_sys; by rewrite E).
  change (s_models s1, heap s1) with (devices (set_sys s1 r)).
  revert r E. intros r _. generalize (set_sys s1 r). clear r. intros r.
  revert r. change (keeps devices
    (vs ← gets ralgebs;
     for_each (λ '(raname, ralgeb), unpack_var set_ralgebs ralgebs raname ralgeb) vs;;
     modify (set_obj_v (f res));;
     set_recent;; mret true)).
  repeat first
    [ apply keeps_bind; [|intros ?]
    | apply keeps_gets
    | apply keeps_ret
    | apply keeps_for_each; intros []; apply keeps_unpack_var; by intros
    | apply keeps_modify; by intros
    | apply keeps_set_recent; intros ? ? Hm Hh; unfold devices; cbn; by rewrite Hm, Hh ].
Qed.

Lemma bound_devices (s s' : system num) mdl src arr :
  s_models s' = s_models s → heap s' = heap s →
  bound s mdl src arr → bound s' mdl src arr.
Proof.
  intros Hm Hh (m & facets & a & H1 & H2 & H3 & H4).
  exists m, facets, a. by rewrite Hm, Hh.
Qed.

Lemma for_each_unpack_ok store dict (vs : list (string * var num)) (r : routine num) :
  (∀ vs r, sys (store vs r) = sys r) →
  Forall (λ x, is_ok (resolve (sys r) x.2)) vs →
  fst (for_each (λ '(raname, var), unpack_var store dict raname var) vs r) = Ok tt.
Proof.
  intros Hs. revert r. induction vs as [|[raname var] vs IH]; intros r Hall; [done|].
  apply Forall_cons in Hall as [Hx Hall]. cbn in Hx. cbn.
  pose proof (keeps_unpack_var sys store dict raname var Hs (λ _ _, eq_refl) r) as Hk.
  unfold mlet. destruct (unpack_var store dict raname var r) as [[[]|e] r1] eqn:E.
  - cbn in Hk. apply IH. by rewrite Hk.
  - exfalso. unfold unpack_var in E.
    destruct (resolve (sys r) var) as [[| |]|]; cbn in *; congruence.
Qed.

Lemma unpack_tail_ok (store : list (string * var num) → routine num → routine num)
    dict (vs : list (string * var num)) (r : routine num) :
  (∀ vs r, sys (store vs r) = sys r) →
  (∀ vs r, class_name (store vs r) = class_name r) →
  Forall (λ x, is_ok (resolve (sys r) x.2)) vs →
  ∃ r1, for_each (λ '(raname, var), unpack_var store dict raname var) vs r = (Ok tt, r1)
        ∧ sys r1 = sys r ∧ class_name r1 = class_name r.
Proof.
  intros Hs Hc Hall.
  pose proof (for_each_unpack_ok store dict vs r Hs Hall) as Hok.
  assert (keeps sys (for_each (λ '(raname, var), unpack_var store dict raname var) vs))
    as K1 by (apply keeps_for_each; intros []; apply keeps_unpack_var; by intros).
  assert (keeps class_name
            (for_each (λ '(raname, var), unpack_var store dict raname var) vs))
    as K2 by (apply keeps_for_each; intros []; apply keeps_unpack_var; by intros).
  specialize (K1 r). specialize (K2 r).
  destruct (for_each _ vs r) as [o r1]. cbn in *. subst o. eauto.
Qed.

(** With the write-back block done, every declared variable resolvable
    and the routine registered, [unpack] completes. *)
Lemma dcpf_unpack_ok (res : result num) (r : routine num) s1 :
  write_back res (sys r) = (Ok tt, s1) →
  Forall (λ x, is_ok (resolve s1 x.2)) (vars r) →
  is_Some (s_routines s1 !! class_name r) →
  fst (DCPFlowBase.unpack res r) = Ok true.
Proof.
  intros E Hall [rt Hrt]. unfold DCPFlowBase.unpack.
  rewrite (M_bind_ok _ _ r (set_sys s1 r) tt) by (unfold on_sys; by rewrite E).
  rewrite (M_bind_ok _ _ (set_sys s1 r) (set_sys s1 r) (vars r)) by done.
  destruct (unpack_tail_ok set_vars vars (vars r) (set_sys s1 r))
    as (r1 & E1 & Hs1 & Hc1); [done|done|done|].
  rewrite (M_bind_ok _ _ _ _ _ E1).
  unfold mbind, M_bind, mlet, set_recent. rewrite Hs1, Hc1. cbn. by rewrite Hrt.
Qed.

Lemma acopf_unpack_ok (res : result num) (r : routine num) s1 :
  write_back res (sys r) = (Ok tt, s1) →
  Forall (λ x, is_ok (resolve s1 x.2)) (ralgebs r) →
  is_Some (s_routines s1 !! class_name r) →
  fst (ACOPFBase.unpack res r) = Ok true.
Proof.
  intros E Hall [rt Hrt]. unfold ACOPFBase.unpack.
  rewrite (M_bind_ok _ _ r (set_sys s1 r) tt) by (unfold on_sys; by rewrite E).
  rewrite (M_bind_ok _ _ (set_sys s1 r) (set_sys s1 r) (ralgebs r)) by done.
  destruct (unpack_tail_ok set_ralgebs ralgebs (ralgebs r) (set_sys s1 r))
    as (r1 & E1 & Hs1 & Hc1); [done|done|done|].
  rewrite (M_bind_ok _ _ _ _ _ E1).
  unfold mbind, M_bind, mlet, set_recent, modify. cbn. rewrite Hs1, Hc1. cbn.
  by rewrite Hrt.
Qed.

(** [run] prepares the routine, calls [unpack] on the solver's result
    whatever the solver reported, and turns the exit code into the
    value it returns. *)
Lemma dcpf_run_unfold (E : env num) (r : routine num) res ok :
  rundcpf E (sys r) = (res, ok) →
  DCPFlowBase.run E r
  = let r5 := before_unpack (elapsed E) (if ok then 0 else 1)%Z r in
    match DCPFlowBase.unpack res r5 with
    | (Ok _, r6) =>
        if decide (exit_code r6 = Some 0%Z)
        then (Ok true, logger (InfoCompleted (class_name r6) 0%Z) r6)
        else (Ok false, logger (WarnFailed (class_name r6)) r6)
    | (Raise e, r6) => (Raise e, r6)
    end.
Proof.
  intros Hsolve. unfold DCPFlowBase.run, before_unpack, DCPFlowBase.solve.
  unfold mbind, M_bind, mlet, gets, modify, setup, mret, M_ret, ret.
  destruct (is_setup r) eqn:Hset; cbn; rewrite ?Hset; cbn; rewrite Hsolve;
    destruct (DCPFlowBase.unpack res _) as [[b|e] r6]; try done;
    by destruct (decide (exit_code r6 = Some 0%Z)).
Qed.

Lemma acopf_run_unfold (E : env num) (r : routine num) :
  ACOPFBase.run E r
  = let res := runopf E (sys r) in
    let r5 := before_unpack (elapsed E) (1 - (if success res then 1 else 0))%Z r in
    match ACOPFBase.unpack res r5 with
    | (Ok _, r6) =>
        match exit_code r6 with
        | Some c => (Ok c, logger (InfoCompleted (class_name r6) c) r6)
        | None => (Raise AttributeError, r6)
        end
    | (Raise e, r6) => (Raise e, r6)
    end.
Proof.
  unfold ACOPFBase.run, before_unpack, ACOPFBase.solve.
  unfold mbind, M_bind, mlet, gets, modify, setup, mret, M_ret, ret.
  destruct (is_setup r) eqn:Hset; cbn; rewrite ?Hset; cbn;
    destruct (ACOPFBase.unpack _ _) as [[b|e] r6]; try done;
    by destruct (exit_code r6).
Qed.

Lemma scattered_devices (res : result num) k vm va pg qg (s s' : system num) :
  s_models s' = s_models s → heap s' = heap s →
  bound s "Bus" "v" (CNum <$> vm) →
  bound s "Bus" "a" ((λ y, CNum (num_mul y deg2rad)) <$> va) →
  bound s "PV" "p" ((λ y, CNum (num_div y (baseMVA res))) <$> drop k pg) →
  bound s "PV" "q" ((λ y, CNum (num_div y (baseMVA res))) <$> drop k qg) →
  bound s "Slack" "p" ((λ y, CNum (num_div y (baseMVA res))) <$> take k pg) →
  bound s "Slack" "q" ((λ y, CNum (num_div y (baseMVA res))) <$> take k qg) →
  scattered res k vm va pg qg s'.
Proof.
  intros Hm Hh B1 B2 B3 B4 B5 B6.
  repeat split; apply bound_attr, (bound_devices s s'); done.
Qed.

(** C6. [unpack] (of the power-flow and of the ACOPF routine) writes the
    bus voltage magnitude and angle to the Bus collection and the
    generator powers, divided by the base power of the result, to the
    generators: the first [Slack.n] rows of the generator array to the
    Slack generators, the remaining rows to the PV generators, in the
    solver's order. *)
Theorem unpack_scatter (res : result num) (r : routine num)
    (vm va pg qg : list num) (k : nat) :
  declares (sys r) "Bus" "v" → declares (sys r) "Bus" "a" →
  declares (sys r) "PV" "p" → declares (sys r) "PV" "q" →
  declares (sys r) "Slack" "p" → declares (sys r) "Slack" "q" →
  column 7 (bus res) = Ok vm → column 8 (bus res) = Ok va →
  column 1 (gen res) = Ok pg → column 2 (gen res) = Ok qg →
  size (sys r) "Slack" = Some k →
  fst (write_back res (sys r)) = Ok tt
  ∧ scattered res k vm va pg qg (sys (snd (DCPFlowBase.unpack res r)))
  ∧ scattered res k vm va pg qg (sys (snd (ACOPFBase.unpack res r))).
Proof.
  intros D1 D2 D3 D4 D5 D6 Evm Eva Epg Eqg Hk.
  destruct (write_back_spec res (sys r) vm va pg qg k)
    as (s1 & E & B1 & B2 & B3 & B4 & B5 & B6); try done.
  split; [by rewrite E|]. split.
  - pose proof (dcpf_unpack_devices res r s1 E) as [= Hm Hh].
    by apply (scattered_devices res k vm va pg qg s1).
  - pose proof (acopf_unpack_devices res r s1 E) as [= Hm Hh].
    by apply (scattered_devices res k vm va pg qg s1).
Qed.

Lemma before_unpack_core (t : num) (code : Z) (r : routine num) :
  ran t code r (before_unpack t code r)
  ∧ sys (before_unpack t code r) = sys r
  ∧ class_name (before_unpack t code r) = class_name r
  ∧ vars (before_unpack t code r) = vars r
  ∧ ralgebs (before_unpack t code r) = ralgebs r.
Proof.
  unfold ran, before_unpack. destruct (is_setup r) eqn:Hset; cbn.
  - rewrite Hset, <- app_assoc. done.
  - rewrite <- !app_assoc. done.
Qed.

Lemma ran_core (t : num) (code : Z) (r r5 r' : routine num) :
  ran t code r r5 → core r' = core r5 → ran t code r r'.
Proof. unfold ran, core. intros (H1 & H2 & H3 & H4) [= _ -> -> -> ->]. done. Qed.

(** C2. [run] calls [setup] only when the routine is not set up, records
    the elapsed time and an exit code that is 0 when the solver reports
    success and 1 otherwise, and calls [unpack] whatever the solver
    reports, so that the device attributes hold the returned values even
    after a reported failure. What it returns tells success from
    failure: the power-flow routine returns the success flag, the ACOPF
    routine the exit code. *)
Theorem run_lifecycle (E : env num) (r : routine num) (res : result num) (ok : bool)
    (vm va pg qg : list num) (k : nat) :
  rundcpf E (sys r) = (res, ok) →
  runopf E (sys r) = res → success res = ok →
  declares (sys r) "Bus" "v" → declares (sys r) "Bus" "a" →
  declares (sys r) "PV" "p" → declares (sys r) "PV" "q" →
  declares (sys r) "Slack" "p" → declares (sys r) "Slack" "q" →
  column 7 (bus res) = Ok vm → column 8 (bus res) = Ok va →
  column 1 (gen res) = Ok pg → column 2 (gen res) = Ok qg →
  size (sys r) "Slack" = Some k →
  Forall (λ x, is_ok (resolve (snd (write_back res (sys r))) x.2)) (vars r) →
  Forall (λ x, is_ok (resolve (snd (write_back res (sys r))) x.2)) (ralgebs r) →
  is_Some (s_routines (sys r) !! class_name r) →
  (∃ r', DCPFlowBase.run E r = (Ok ok, r')
         ∧ ran (elapsed E) (if ok then 0 else 1)%Z r r'
         ∧ scattered res k vm va pg qg (sys r'))
  ∧ (∃ r', ACOPFBase.run E r = (Ok (if ok then 0 else 1)%Z, r')
           ∧ ran (elapsed E) (if ok then 0 else 1)%Z r r'
           ∧ scattered res k vm va pg qg (sys r')).
Proof.
  intros Hdc Hopf Hok D1 D2 D3 D4 D5 D6 Evm Eva Epg Eqg Hk Hvars Hralgebs Hreg.
  destruct (write_back_spec res (sys r) vm va pg qg k)
    as (s1 & Ewb & B1 & B2 & B3 & B4 & B5 & B6); try done.
  rewrite Ewb in Hvars, Hralgebs. cbn in Hvars, Hralgebs.
  assert (s_routines s1 = s_routines (sys r)) as Hrt.
  { pose proof (keeps_write_back_routines res (sys r)) as K. by rewrite Ewb in K. }
  set (code := (if ok then 0 else 1)%Z).
  destruct (before_unpack_core (elapsed E) code r) as (Hran & Hsys & Hcls & Hv & Hra).
  split.
  - rewrite (dcpf_run_unfold E r res ok Hdc). cbv zeta. fold code.
    set (r5 := before_unpack (elapsed E) code r) in *.
    assert (write_back res (sys r5) = (Ok tt, s1)) as Ewb5 by by rewrite Hsys.
    pose proof (dcpf_unpack_ok res r5 s1 Ewb5) as Hfst.
    rewrite Hv, Hcls, Hrt in Hfst. specialize (Hfst Hvars Hreg).
    pose proof (dcpf_unpack_core res r5) as Hcore.
    pose proof (dcpf_unpack_devices res r5 s1 Ewb5) as [= Hm Hh].
    destruct (DCPFlowBase.unpack res r5) as [o r6]. cbn in *. subst o.
    pose proof (ran_core _ _ _ _ _ Hran Hcore) as Hran6.
    assert (exit_code r6 = Some code) as Hcode by apply Hran6.
    assert (scattered res k vm va pg qg (sys r6)) as Hsc
      by by apply (scattered_devices res k vm va pg qg s1).
    rewrite Hcode. unfold code in *. destruct ok.
    + rewrite decide_True by done. eexists. split; [done|]. split; [|done].
      by apply (ran_core _ _ _ r6).
    + rewrite decide_False by done. eexists. split; [done|]. split; [|done].
      by apply (ran_core _ _ _ r6).
  - rewrite (acopf_run_unfold E r). cbv zeta. rewrite Hopf, Hok.
    replace (1 - (if ok then 1 else 0))%Z with code by (unfold code; by destruct ok).
    set (r5 := before_unpack (elapsed E) code r) in *.
    assert (write_back res (sys r5) = (Ok tt, s1)) as Ewb5 by by rewrite Hsys.
    pose proof (acopf_unpack_ok res r5 s1 Ewb5) as Hfst.
    rewrite Hra, Hcls, Hrt in Hfst. specialize (Hfst Hralgebs Hreg).
    pose proof (acopf_unpack_core res r5) as Hcore.
    pose proof (acopf_unpack_devices res r5 s1 Ewb5) as [= Hm Hh].
    destruct (ACOPFBase.unpack res r5) as [o r6]. cbn in *. subst o.
    pose proof (ran_core _ _ _ _ _ Hran Hcore) as Hran6.
    assert (exit_code r6 = Some code) as Hcode by apply Hran6.
    assert (scattered res k vm va pg qg (sys r6)) as Hsc
      by by apply (scattered_devices res k vm va pg qg s1).
    rewrite Hcode. eexists. split; [done|]. split; [|done].
    by apply (ran_core _ _ _ r6).
Qed.

End RoutineFacts.

Ltac declared := eexists; split; [vm_compute; reflexivity|vm_compute; eauto].

Lemma unpack_scatter_witness :
  fst (Routine.write_back Cases.res0 (Routine.sys Cases.dcpf0)) = Ok tt
  ∧ Routine.scattered Cases.res0 1
      [1; 98 # 100; 97 # 100; 99 # 100; 96 # 100; 95 # 100]%Q
      [0; -2; -3; -1; -4; -5]%Q [150; 50; 40; 30; 20]%Q [20; 5; 4; 3; 2]%Q
      (Routine.sys (snd (DCPFlowBase.unpack Cases.res0 Cases.dcpf0)))
  ∧ Routine.scattered Cases.res0 1
      [1; 98 # 100; 97 # 100; 99 # 100; 96 # 100; 95 # 100]%Q
      [0; -2; -3; -1; -4; -5]%Q [150; 50; 40; 30; 20]%Q [20; 5; 4; 3; 2]%Q
      (Routine.sys (snd (ACOPFBase.unpack Cases.res0 Cases.dcpf0))).
Proof.
  apply unpack_scatter; try declared; vm_compute; reflexivity.
Defined.

Lemma run_lifecycle_witness :
  (∃ r', DCPFlowBase.run Cases.E0 Cases.dcpf0 = (Ok false, r')
         ∧ Routine.ran (Routine.elapsed Cases.E0) 1%Z Cases.dcpf0 r'
         ∧ Routine.scattered Cases.res0 1
             [1; 98 # 100; 97 # 100; 99 # 100; 96 # 100; 95 # 100]%Q
             [0; -2; -3; -1; -4; -5]%Q [150; 50; 40; 30; 20]%Q [20; 5; 4; 3; 2]%Q
             (Routine.sys r'))
  ∧ (∃ r', ACOPFBase.run Cases.E0 Cases.dcpf0 = (Ok 1%Z, r')
           ∧ Routine.ran (Routine.elapsed Cases.E0) 1%Z Cases.dcpf0 r'
           ∧ Routine.scattered Cases.res0 1
               [1; 98 # 100; 97 # 100; 99 # 100; 96 # 100; 95 # 100]%Q
               [0; -2; -3; -1; -4; -5]%Q [150; 50; 40; 30; 20]%Q [20; 5; 4; 3; 2]%Q
               (Routine.sys r')).
Proof.
  apply (run_lifecycle Cases.E0 Cases.dcpf0 Cases.res0 false); try declared;
    try (vm_compute; reflexivity).
  - apply (bool_decide_unpack _). vm_compute. exact I.
  - apply (bool_decide_unpack _). vm_compute. exact I.
  - vm_compute. eauto.
Defined.

(** ** The initial commitment guess *)

Section GuessFacts.
Context {num : Type} {AR : Arith num}.
Import Store System Routine UCModel.

(** What an in-place write changes: the contents of one array object. *)
Lemma setitem_frame (a : loc) (k : nat) (c : cell num) (s : system num) :
  let s' := snd (Group.setitem a k c s) in
  s_models s' = s_models s ∧ s_groups s' = s_groups s
  ∧ s_others s' = s_others s ∧ recent s' = recent s
  ∧ s_routines s' = s_routines s
  ∧ ∀ l, l ≠ a → heap s' !! l = heap s !! l.
Proof.
  unfold Group.setitem.
  destruct (deref (heap s) a) as [l0|l0]; destruct (decide (k < length l0)); cbn;
    (split; [done|]); (split; [done|]); (split; [done|]); (split; [done|]);
    (split; [done|]); intros l' Hl; by rewrite ?lookup_insert_ne.
Qed.

Lemma idx2model_elem_of (s : system num) (g : groupbase) (i : ident) (m : model) :
  Group.idx2model s g i = Ok m → m ∈ Group.members s g.
Proof.
  unfold Group.idx2model.
  destruct (list_find _ _) as [[p m']|] eqn:E; [|done].
  intros [= <-]. apply list_find_Some in E as (Hp & _).
  apply list_elem_of_lookup. eauto.
Qed.

Lemma comprehension_Forall {A B} (g : A → outcome B) (P : B → Prop) (l : list A) out :
  (∀ x y, g x = Ok y → P y) → comprehension g l = Ok out → Forall P out.
Proof.
  intros Hg. revert out. induction l as [|x l IH]; intros out E.
  - injection E as <-. constructor.
  - cbn in E. destruct (g x) as [y|] eqn:Ey; [|done]. cbn in E.
    destruct (comprehension g l) as [ys|]; [|done]. injection E as <-.
    constructor; eauto.
Qed.

(** A loop of in-place writes changes only the contents of the arrays it
    writes into. *)
Lemma scatter_frame (P : loc → Prop) (src attr : string)
    (triples : list (model * ident * cell num)) (s : system num) :
  Forall (λ x, ∀ a, field x.1.1 src attr = Ok a → P a) triples →
  let s' := snd (for_each
                   (λ '(m, i, c),
                      k ← lift (Index._one_idx2uid (uid m) (XId i));
                      a ← lift (field m src attr);
                      Group.setitem a k c) triples s) in
  s_models s' = s_models s ∧ s_groups s' = s_groups s
  ∧ s_others s' = s_others s ∧ recent s' = recent s
  ∧ s_routines s' = s_routines s
  ∧ ∀ l, ¬ P l → heap s' !! l = heap s !! l.
Proof.
  intros Hall. cbv zeta. set (body := λ x : model * ident * cell num, _).
  revert s.
  induction Hall as [|[[m i] c] triples Hm Hall IH]; intros s; [done|].
  cbn in Hm.
  assert (for_each body ((m, i, c) :: triples) s
          = match body (m, i, c) s with
            | (Ok _, s1) => for_each body triples s1
            | (Raise e, s1) => (Raise e, s1)
            end) as -> by reflexivity.
  assert (body (m, i, c) s
          = match Index._one_idx2uid (uid m) (XId i), field m src attr with
            | Ok k, Ok a => Group.setitem a k c s
            | Raise e, _ => (Raise e, s)
            | Ok _, Raise e => (Raise e, s)
            end) as ->.
  { unfold body, mbind, M_bind, mlet, lift.
    destruct (Index._one_idx2uid (uid m) (XId i)); [|done].
    by destruct (field m src attr). }
  destruct (Index._one_idx2uid (uid m) (XId i)) as [k|]; [|done].
  destruct (field m src attr) as [a|]; [|done].
  destruct (setitem_frame a k c s) as (H1 & H2 & H3 & H4 & H5 & H6).
  destruct (Group.setitem a k c s) as [[[]|e] s1]; cbn in H1, H2, H3, H4, H5, H6.
  - destruct (IH s1) as (I1 & I2 & I3 & I4 & I5 & I6).
    split; [congruence|]. split; [congruence|]. split; [congruence|].
    split; [congruence|]. split; [congruence|].
    intros l Hl. rewrite I6 by done. apply H6. intros ->. by apply Hl, Hm.
  - cbn. split; [done|]. split; [done|]. split; [done|].
    split; [done|]. split; [done|].
    intros l Hl. apply H6. intros ->. by apply Hl, Hm.
Qed.

(** The group's write accessor writes only into the [src] arrays of the
    members of the group, and binds no attribute anew. *)
Lemma group_set_frame (g : groupbase) (src attr : string) (idx : list ident)
    (value : list (cell num)) (s : system num) :
  let s' := snd (Group.set g src idx attr value s) in
  s_models s' = s_models s ∧ s_groups s' = s_groups s
  ∧ s_others s' = s_others s ∧ recent s' = recent s
  ∧ s_routines s' = s_routines s
  ∧ ∀ l, (∀ m, m ∈ Group.members s g → field m src attr ≠ Ok l) →
         heap s' !! l = heap s !! l.
Proof.
  unfold Group.set.
  destruct (comprehension (Group.idx2model s g) idx) as [models|] eqn:Em; [|done].
  destruct (decide (length value = length idx)); [|done].
  assert (Forall (λ m, m ∈ Group.members s g) models) as Hmem.
  { eapply comprehension_Forall; [|exact Em]. intros i m. apply idx2model_elem_of. }
  destruct (scatter_frame (λ l, ∃ m, m ∈ Group.members s g ∧ field m src attr = Ok l)
              src attr (zip (zip models idx) value) s)
    as (H1 & H2 & H3 & H4 & H5 & H6).
  { apply Forall_forall. intros [[m i] c] Hin a Ha. cbn in Ha.
    apply elem_of_zip_l, elem_of_zip_l in Hin.
    apply Forall_forall with (x := m) in Hmem; [|done]. eauto. }
  cbv zeta. split; [done|]. split; [done|]. split; [done|].
  split; [done|]. split; [done|].
  intros l Hl. apply H6. intros (m & Hm & Hf). by apply (Hl m).
Qed.

(** [_initial_guess], step by step. *)
Lemma initial_guess_unfold (r : routine num) :
  _initial_guess r
  = match trigger (sys r) with
    | Raise e => (Raise e, r)
    | Ok true => (Ok true, r)
    | Ok false =>
        let r1 := logger WarnAllOnline r in
        match g_idx (sys r) with
        | Raise e => (Raise e, r1)
        | Ok off =>
            match getattr (sys r) (Some "StaticGen") with
            | Raise e => (Raise e, r1)
            | Ok (OGroup g) =>
                match Group.set g "u" off "v" ((λ _, CNum (num_of_Z 0)) <$> off)
                                (sys r) with
                | (Ok _, s') => (Ok true, logger (WarnTurnOff off) (set_sys s' r1))
                | (Raise e, s') => (Raise e, set_sys s' r1)
                end
            | Ok _ => (Raise AttributeError, r1)
            end
        end
    end.
Proof.
  unfold _initial_guess, mbind, M_bind, mlet, gets, lift, modify, on_sys.
  destruct (trigger (sys r)) as [[|]|]; try done. cbv beta iota zeta.
  change (sys (logger WarnAllOnline r)) with (sys r).
  destruct (g_idx (sys r)) as [off|]; [|done].
  destruct (getattr (sys r) (Some "StaticGen")) as [[| |]|]; try done.
  cbv beta iota zeta. change (sys (logger WarnAllOnline r)) with (sys r).
  by destruct (Group.set _ _ _ _ _ _) as [[|] ?].
Qed.

Lemma only_u_written_refl (s : system num) : only_u_written s s.
Proof. by repeat split. Qed.

(** Whatever the state and however it ends, the guess leaves everything
    but the commitment arrays of the StaticGen members as it was. *)
Lemma initial_guess_frame (r : routine num) :
  only_u_written (sys r) (sys (snd (_initial_guess r))).
Proof.
  rewrite initial_guess_unfold.
  destruct (trigger (sys r)) as [[|]|]; try apply only_u_written_refl.
  cbv zeta. destruct (g_idx (sys r)) as [off|]; [|apply only_u_written_refl].
  destruct (getattr (sys r) (Some "StaticGen")) as [[?|g|]|] eqn:Eg;
    try apply only_u_written_refl.
  destruct (group_set_frame g "u" "v" off ((λ _, CNum (num_of_Z 0)) <$> off) (sys r))
    as (H1 & H2 & H3 & H4 & H5 & H6).
  assert (only_u_written (sys r)
            (snd (Group.set g "u" off "v" ((λ _, CNum (num_of_Z 0)) <$> off) (sys r))))
    as Hw.
  { split; [done|]. split; [done|]. split; [done|]. split; [done|]. split; [done|].
    intros l Hl. apply H6. intros m Hm. by apply (Hl g). }
  by destruct (Group.set _ _ _ _ _ _) as [[|] ?].
Qed.

End GuessFacts.

(** ** Where [unpack] departs from its contract *)

Section UnpackDefects.
Context {num : Type} {AR : Arith num}.
Import Store System Routine.

(** The assignment [system.<mdl>.<src>.v = arr] touches no array object
    that exists: the attribute is bound to a new object, and every
    array that was in the store holds what it held. *)
Lemma setattr_v_rebinds (s : system num) (mdl src : string) (arr : list (cell num)) :
  declares s mdl src →
  ∃ s' m' a',
    setattr_v mdl src arr s = (Ok tt, s')
    ∧ s_models s' !! mdl = Some m' ∧ field m' src "v" = Ok a'
    ∧ heap s !! a' = None
    ∧ ∀ a, is_Some (heap s !! a) → heap s' !! a = heap s !! a.
Proof.
  intros (m & Hm & [facets Hf]). unfold setattr_v. rewrite Hm, Hf.
  set (a' := fresh (dom (heap s))).
  assert (heap s !! a' = None) as Hfresh by apply not_elem_of_dom, is_fresh.
  eexists _, _, a'. split; [reflexivity|]. cbn.
  split; [by rewrite lookup_insert_eq|]. split.
  { unfold field. cbn. by rewrite !lookup_insert_eq. }
  split; [done|].
  intros a [x Ha]. apply lookup_insert_ne. congruence.
Qed.

(** A variable whose owner is not an attribute of the system makes the
    loop raise at once: the lookup of the owner comes before every
    check. *)
Lemma unpack_var_unresolved store dict raname (var : var num) (r : routine num) e :
  getattr (sys r) (owner_name var) = Raise e →
  unpack_var store dict raname var r = (Raise e, r).
Proof. intros E. unfold unpack_var, resolve. by rewrite E. Qed.

End UnpackDefects.

(** C8, at a failing input. The routine declares a variable whose owner
    [Storage] is not an attribute of the system, then [aBus] and [pg],
    whose owners resolve. [unpack] raises [AttributeError] at the
    unresolvable variable: no warning is logged and the two other
    variables are not written. A variable declared without an owner
    name makes it raise [TypeError] in the same way. *)
Theorem unpack_unresolved_owner_aborts :
  fst (DCPFlowBase.unpack Cases.res0 Cases.dcpf_no_owner) = Raise TypeError
  ∧ fst (DCPFlowBase.unpack Cases.res0 Cases.dcpf_unresolved) = Raise AttributeError
  ∧ Routine.log (snd (DCPFlowBase.unpack Cases.res0 Cases.dcpf_unresolved)) = []
  ∧ Forall (λ x, Routine.v x.2 = None)
           (Routine.vars (snd (DCPFlowBase.unpack Cases.res0 Cases.dcpf_unresolved)))
  ∧ fst (ACOPFBase.unpack Cases.res0 Cases.dcpf_unresolved) = Raise AttributeError
  ∧ Forall (λ x, Routine.v x.2 = None)
           (Routine.ralgebs (snd (ACOPFBase.unpack Cases.res0 Cases.dcpf_unresolved))).
Proof.
  split; [vm_compute; reflexivity|].
  split; [vm_compute; reflexivity|]. split; [vm_compute; reflexivity|].
  split; [vm_compute; repeat constructor|].
  split; [vm_compute; reflexivity|]. vm_compute; repeat constructor.
Qed.

(** The branch that skips with a warning is taken for an owner that is
    an attribute of the system but neither a collection nor a group;
    the other variables are then written. *)
Example unpack_other_owner_skipped :
  fst (DCPFlowBase.unpack Cases.res0 Cases.dcpf_other) = Ok true
  ∧ Routine.log (snd (DCPFlowBase.unpack Cases.res0 Cases.dcpf_other))
    = [Routine.WarnSkip "DCPF" "p" "DCPF" "x"]
  ∧ Forall (λ x, is_Some (Routine.v x.2))
           (drop 1 (Routine.vars (snd (DCPFlowBase.unpack Cases.res0 Cases.dcpf_other)))).
Proof.
  split; [vm_compute; reflexivity|]. split; [vm_compute; reflexivity|].
  vm_compute. constructor; [eauto|]. constructor; [eauto|]. constructor.
Qed.

(** C3, at a failing input. A reference bound to the voltage magnitude
    of the Bus collection hands out the array object 0. After [unpack]
    that object still holds the old values: [unpack] has bound the
    attribute to another array object, which holds the solver's values,
    and only a new read of [.v] reaches it. *)
Theorem unpack_rebinds_bus_voltage :
  RParam.v Cases.sys0 Cases.p_bus_v = Ok (RParam.Borrowed 0)
  ∧ fst (DCPFlowBase.unpack Cases.res0 Cases.dcpf0) = Ok true
  ∧ RParam.observe (Routine.sys (snd (DCPFlowBase.unpack Cases.res0 Cases.dcpf0)))
                   (RParam.Borrowed 0)
    = Store.VArray (Cases.nums [1; 1; 1; 1; 1; 1]%Q)
  ∧ RParam.v (Routine.sys (snd (DCPFlowBase.unpack Cases.res0 Cases.dcpf0))) Cases.p_bus_v
    = Ok (RParam.Borrowed 16)
  ∧ RParam.observe (Routine.sys (snd (DCPFlowBase.unpack Cases.res0 Cases.dcpf0)))
                   (RParam.Borrowed 16)
    = Store.VArray (Cases.nums [1; 98 # 100; 97 # 100; 99 # 100; 96 # 100; 95 # 100]%Q).
Proof. repeat split; vm_compute; reflexivity. Qed.

(** By contrast the write accessor of a group writes in place: a view
    taken before the write shows the new value. *)
Example group_set_in_place :
  RParam.v Cases.sys0 Cases.p_single = Ok (RParam.Borrowed 6)
  ∧ RParam.observe
      (snd (Group.set Cases.StaticGen "p" [IInt 3] "v" [Store.CNum 5%Q] Cases.sys0))
      (RParam.Borrowed 6)
    = Store.VArray (Cases.nums [0; 5; 0; 0]%Q).
Proof. split; vm_compute; reflexivity. Qed.

(** * Further properties of the accessors *)

Section AccessorFacts.
Context {num : Type} {AR : Arith num}.
Import Store.

(** Under the index invariant the identifiers of a collection, taken in
    registration order, resolve to the positions 0, 1, ..., n-1. *)
Lemma index_positions (self : model) (ks : list nat) :
  index_inv self →
  Forall2 (λ i k, uid self !! i = Some k) (idx_v self) ks →
  ks = seq 0 (n self).
Proof.
  intros Hinv F. apply list_eq. intros p.
  pose proof (Forall2_length _ _ _ F) as Hlen.
  destruct (decide (p < n self)) as [Hp|Hp].
  - destruct (lookup_lt_is_Some_2 (idx_v self) p Hp) as [i Hi].
    destruct (Forall2_lookup_l _ _ _ _ _ F Hi) as (k & Hk & Hu).
    apply Hinv in Hu. assert (k = p) as ->.
    { apply Hinv in Hi, Hu. congruence. }
    rewrite Hk. symmetry. apply lookup_seq. split; [done|lia].
  - rewrite (lookup_ge_None_2 ks) by (unfold n in Hp; lia).
    symmetry. apply lookup_ge_None_2. rewrite length_seq. lia.
Qed.

Lemma registered_own_idx (self : model) :
  index_inv self → Forall (λ i, is_Some (uid self !! i)) (idx_v self).
Proof.
  intros Hinv. apply Forall_forall. intros i Hi.
  apply list_elem_of_lookup in Hi as [k Hk]. exists k. by apply Hinv.
Qed.

Lemma idx2uid_own_idx (self : model) :
  index_inv self →
  Index.idx2uid (uid self) (XSeq (XId <$> idx_v self))
  = Ok (UMany (Some <$> seq 0 (n self))).
Proof.
  intros Hinv.
  destruct (idx2uid_registered (uid self) (idx_v self) (registered_own_idx self Hinv))
    as (ks & E & F).
  by rewrite E, (index_positions self ks Hinv F).
Qed.

Lemma gather_all {A} (g : option nat → outcome A) (l : list A) :
  (∀ k x, l !! k = Some x → g (Some k) = Ok x) →
  comprehension g (Some <$> seq 0 (length l)) = Ok l.
Proof.
  intros Hg. apply comprehension_lookup.
  - by rewrite length_fmap, length_seq.
  - intros k o Hk. rewrite list_lookup_fmap in Hk.
    destruct (seq 0 (length l) !! k) as [p|] eqn:Hp; [|done].
    injection Hk as <-. apply lookup_seq in Hp as [-> Hlt]. cbn.
    destruct (lookup_lt_is_Some_2 l k Hlt) as [x Hx]. eauto.
Qed.

Lemma get_at_own_idx (h : gmap loc (storage num)) (self : model) (src attr : string)
    (a : loc) (allow_none : bool) (default : cell num) :
  index_inv self →
  field self src attr = Ok a →
  length (contents (deref h a)) = n self →
  get h self src (XSeq (XId <$> idx_v self)) attr allow_none default
  = Ok (match deref h a with SList l => VList l | SArray l => VArray l end).
Proof.
  intros Hinv Hf Hlen. unfold get. rewrite (idx2uid_own_idx self Hinv).
  rewrite outcome_bind_ok, Hf, outcome_bind_ok.
  destruct (deref h a) as [l|l]; cbn in Hlen; rewrite <- Hlen.
  - assert (existsb (λ k : option nat, bool_decide (k = None))
                    (Some <$> seq 0 (length l)) = false) as ->.
    { apply not_true_is_false. intros Hex. apply existsb_exists in Hex as (o & Ho & Hn).
      apply list_elem_of_In, list_elem_of_fmap in Ho as (k & -> & _). done. }
    rewrite andb_false_r. rewrite gather_all; [done|].
    intros k x Hk. unfold getitem. by rewrite Hk.
  - unfold take_positions. rewrite gather_all; [done|].
    intros k x Hk. unfold getitem. by rewrite Hk.
Qed.

(** X1. Reading an attribute at the collection's own identifier list
    returns the attribute as it is stored, entry for entry and in
    registration order, whatever [allow_none] and [default] are. *)
Theorem get_own_idx (h : gmap loc (storage num)) (self : model) (src attr : string)
    (a : loc) (allow_none : bool) (default : cell num) :
  index_inv self →
  field self src attr = Ok a →
  length (contents (deref h a)) = n self →
  get h self src (XSeq (XId <$> idx_v self)) attr allow_none default
  = Ok (match deref h a with SList l => VList l | SArray l => VArray l end).
Proof. apply get_at_own_idx. Qed.

(** X2. For an attribute held in an array the arguments [allow_none] and
    [default] have no effect at all: any two calls that differ only in
    them give the same result or the same exception. *)
Theorem get_array_ignores_allow_none (h : gmap loc (storage num)) (self : model)
    (src attr : string) (idx : idx_arg) (a : loc) (l : list (cell num))
    (b1 b2 : bool) (d1 d2 : cell num) :
  field self src attr = Ok a →
  deref h a = SArray l →
  get h self src idx attr b1 d1 = get h self src idx attr b2 d2.
Proof.
  intros Hf Hd. unfold get.
  destruct (Index.idx2uid (uid self) idx) as [u|]; [|done].
  rewrite !outcome_bind_ok, Hf, !outcome_bind_ok, Hd. by destruct u.
Qed.

(** X3. [get] resolves the identifiers first: an identifier that is not
    registered, alone or anywhere in a sequence, is a [KeyError],
    whether or not the attribute exists and whatever the flags. A
    registered identifier alone returns the one entry at its position:
    a [KeyError] if the attribute is missing, an [IndexError] if the
    array is too short. *)
Theorem get_errors (h : gmap loc (storage num)) (self : model) (src attr : string)
    (i j : ident) (k : nat) (pre post : list ident)
    (allow_none : bool) (default : cell num) :
  uid self !! i = None →
  uid self !! j = Some k →
  Forall (λ x, is_Some (uid self !! x)) pre →
  get h self src (XId i) attr allow_none default = Raise KeyError
  ∧ get h self src (XSeq (XId <$> pre ++ i :: post)) attr allow_none default
    = Raise KeyError
  ∧ get h self src (XId j) attr allow_none default
    = (a ← field self src attr; VCell <$> getitem (contents (deref h a)) k).
Proof.
  intros Hi Hj Hpre. split; [|split].
  - unfold get. cbn. by rewrite Hi.
  - unfold get.
    assert (Index.idx2uid (uid self) (XSeq (XId <$> pre ++ i :: post)) = Raise KeyError)
      as ->; [|done].
    assert (Index.resolve_seq (uid self) (XId <$> pre ++ i :: post) = Raise KeyError) as E.
    { destruct (resolve_seq_registered (uid self) pre Hpre) as (ks & Eks & _).
      unfold Index.resolve_seq in *. rewrite fmap_app, comprehension_app, Eks.
      rewrite outcome_bind_ok, fmap_cons. cbn. by rewrite Hi. }
    unfold Index.idx2uid.
    destruct (XId <$> pre ++ i :: post) as [|x l] eqn:El; [by destruct pre|].
    destruct x; try (by rewrite outcome_bind_ok, E).
    destruct pre; discriminate.
  - unfold get. cbn. rewrite Hj. cbn. destruct (field self src attr) as [a|]; [|done].
    cbn. by destruct (deref h a).
Qed.

End AccessorFacts.

Lemma get_own_idx_witness :
  Store.get Cases.heap0 Cases.PV "Sn" (XSeq (XId <$> Store.idx_v Cases.PV)) "v" false
            (Store.CNum 0%Q)
  = Ok (match Store.deref Cases.heap0 10 with
        | Store.SList l => Store.VList l
        | Store.SArray l => Store.VArray l
        end).
Proof.
  apply get_own_idx.
  - apply PV_index_inv.
  - vm_compute; reflexivity.
  - vm_compute; reflexivity.
Defined.

Lemma get_array_ignores_allow_none_witness :
  Store.get Cases.heap0 Cases.PV "Sn" (XSeq [XId (IInt 3); XNone]) "v" true (Store.CNum 0%Q)
  = Store.get Cases.heap0 Cases.PV "Sn" (XSeq [XId (IInt 3); XNone]) "v" false
              (Store.CNum 1%Q).
Proof.
  apply (get_array_ignores_allow_none Cases.heap0 Cases.PV "Sn" "v" _ 10
           (Cases.nums [100; 50; 80; 60]%Q)); vm_compute; reflexivity.
Defined.

Lemma get_errors_witness :
  Store.get Cases.heap0 Cases.PV "Sn" (XId (IInt 99)) "v" false (Store.CNum 0%Q)
  = Raise KeyError
  ∧ Store.get Cases.heap0 Cases.PV "Sn"
      (XSeq (XId <$> [IInt 2] ++ IInt 99 :: [IInt 4])) "v" false (Store.CNum 0%Q)
    = Raise KeyError
  ∧ Store.get Cases.heap0 Cases.PV "Sn" (XId (IInt 3)) "v" false (Store.CNum 0%Q)
    = (a ← Store.field Cases.PV "Sn" "v";
       Store.VCell <$> Store.getitem (Store.contents (Store.deref Cases.heap0 a)) 1).
Proof.
  apply get_errors.
  - vm_compute; reflexivity.
  - vm_compute; reflexivity.
  - repeat constructor; vm_compute; eauto.
Defined.

(** * Further properties of the identifier index *)

Section IndexErrors.
Import Index.
Implicit Types (uid : gmap ident nat).

Lemma comprehension_raises {A B} (g : A → outcome B) (e : exn) (l : list A) :
  Forall (λ x, is_ok (g x) ∨ g x = Raise e) l →
  Exists (λ x, g x = Raise e) l →
  comprehension g l = Raise e.
Proof.
  intros Hall Hex. induction Hall as [|x l Hx Hall IH]; [by inversion Hex|].
  cbn. destruct Hx as [Hx| ->]; [|done].
  destruct (g x) as [y|] eqn:Ey; [|done]. cbn.
  apply Exists_cons in Hex as [Hex|Hex]; [congruence|].
  by rewrite IH.
Qed.

Lemma resolve_seq_unregistered uid (l : list (option ident)) :
  Exists (λ o, ∃ j, o = Some j ∧ uid !! j = None) l →
  resolve_seq uid ((λ o, from_option XId XNone o) <$> l) = Raise KeyError.
Proof.
  intros Hex. unfold resolve_seq. rewrite comprehension_fmap.
  apply comprehension_raises.
  - apply Forall_forall. intros [j|] _; cbn; [|by left].
    destruct (uid !! j); cbn; [by left|by right].
  - eapply Exists_impl; [exact Hex|]. intros o (j & -> & Hj). cbn. by rewrite Hj.
Qed.

Lemma idx2uid_unregistered uid (l : list ident) :
  Exists (λ j, uid !! j = None) l →
  idx2uid uid (XSeq (XId <$> l)) = Raise KeyError.
Proof.
  intros Hex.
  assert (resolve_seq uid (XId <$> l) = Raise KeyError) as E.
  { rewrite <- (resolve_seq_unregistered uid (Some <$> l)).
    - by rewrite <- list_fmap_compose.
    - apply Exists_fmap. eapply Exists_impl; [exact Hex|]. intros j Hj. by exists j. }
  unfold idx2uid. destruct l as [|j l]; [by inversion Hex|].
  rewrite fmap_cons in *. cbn in *. by rewrite E.
Qed.

(** X4. On a flat sequence [idx2uid] is all or nothing: it returns one
    position per entry exactly when every identifier of the sequence is
    registered, and [None] entries never make it fail; if some
    identifier is not registered the whole call is a [KeyError], however
    many of the others are registered. *)
Theorem idx2uid_all_or_nothing uid (l : list (option ident)) :
  idx2uid uid (XSeq ((λ o, from_option XId XNone o) <$> l))
  = if forallb (λ o, match o with
                     | Some j => bool_decide (is_Some (uid !! j))
                     | None => true
                     end) l
    then Ok (UMany ((λ o, j ← o; uid !! j) <$> l))
    else Raise KeyError.
Proof.
  destruct (forallb _ l) eqn:Hall.
  - apply idx2uid_optional. apply Forall_forall. intros o Ho j ->.
    rewrite forallb_forall in Hall. apply list_elem_of_In, Hall in Ho.
    by apply bool_decide_eq_true in Ho.
  - assert (Exists (λ o, ∃ j, o = Some j ∧ uid !! j = None) l) as Hex.
    { apply not_true_iff_false in Hall. apply Exists_exists.
      induction l as [|o l IH]; [done|]. cbn in Hall.
      destruct o as [j|].
      - destruct (uid !! j) eqn:Hj.
        + rewrite bool_decide_true in Hall by eauto.
          destruct IH as (o & Ho & Hu); [done|]. exists o. split; [by right|done].
        + exists (Some j). split; [by left|eauto].
      - destruct IH as (o & Ho & Hu); [done|]. exists o. split; [by right|done]. }
    pose proof (resolve_seq_unregistered uid l Hex) as E.
    unfold idx2uid. destruct l as [|o l']; [by inversion Hex|].
    rewrite fmap_cons in *. destruct o; cbn in *; by rewrite E.
Qed.

Lemma reduce_iconcat_bare (acc l : list idx_arg) :
  Exists (λ x, x = XNone ∨ ∃ z, x = XId (IInt z)) l →
  reduce_iconcat acc l = Raise TypeError.
Proof.
  intros Hex. revert acc. induction l as [|x l IH]; intros acc; [by inversion Hex|].
  cbn. apply Exists_cons in Hex as [Hx|Hex].
  - by destruct Hx as [->|[z ->]].
  - destruct x as [|[z|s]|g]; cbn; try done; by apply IH.
Qed.

(** X5. Only the first element decides whether a sequence is flattened.
    A sequence that starts with a list but also holds a bare integer
    identifier or [None] is a [TypeError] (the element cannot be
    concatenated); a sequence that starts with registered identifiers
    and then holds a list is a [TypeError] too (the list is looked up as
    if it were an identifier). *)
Theorem idx2uid_mixed_nesting uid (g : list idx_arg) (rest : list idx_arg)
    (pre : list ident) :
  (Exists (λ x, x = XNone ∨ ∃ z, x = XId (IInt z)) rest →
   idx2uid uid (XSeq (XSeq g :: rest)) = Raise TypeError)
  ∧ (pre ≠ [] → Forall (λ j, is_Some (uid !! j)) pre →
     idx2uid uid (XSeq ((XId <$> pre) ++ XSeq g :: rest)) = Raise TypeError).
Proof.
  split.
  - intros Hex. unfold idx2uid, list_flatten.
    rewrite (reduce_iconcat_bare [] (XSeq g :: rest)); [done|by right].
  - intros Hne Hpre.
    assert (resolve_seq uid ((XId <$> pre) ++ XSeq g :: rest) = Raise TypeError) as E.
    { destruct (resolve_seq_registered uid pre Hpre) as (ks & Eks & _).
      unfold resolve_seq in *. by rewrite comprehension_app, Eks. }
    unfold idx2uid. destruct pre as [|j pre]; [done|].
    rewrite fmap_cons in *. cbn in *. by rewrite E.
Qed.

End IndexErrors.

Lemma idx2uid_mixed_nesting_witness :
  Index.idx2uid (Store.uid Cases.Bus)
                (XSeq (XSeq [XId (IInt 1); XId (IInt 2)] :: [XId (IInt 3)]))
  = Raise TypeError
  ∧ Index.idx2uid (Store.uid Cases.Bus)
      (XSeq ((XId <$> [IInt 1]) ++ XSeq [XId (IInt 1); XId (IInt 2)] :: [XId (IInt 3)]))
    = Raise TypeError.
Proof.
  split.
  - apply (proj1 (idx2uid_mixed_nesting (Store.uid Cases.Bus)
                    [XId (IInt 1); XId (IInt 2)] [XId (IInt 3)] [])).
    apply Exists_cons_hd. right. by exists 3%Z.
  - apply (proj2 (idx2uid_mixed_nesting (Store.uid Cases.Bus)
                    [XId (IInt 1); XId (IInt 2)] [XId (IInt 3)] [IInt 1])); [done|].
    repeat constructor. vm_compute; eauto.
Defined.

(** * Further properties of the PTDF partition *)

Section MakeEdges.
Context {num : Type} {AR : Arith num}.
Import Store System MatProcessor.

Lemma filter_no_generator (all_bus : list ident) :
  filter (λ bus, negb (py_in (CId bus) ([] : list (cell num)))) all_bus = all_bus.
Proof.
  induction all_bus as [|i l IH]; [done|].
  rewrite filter_cons_True by done. by rewrite IH.
Qed.

Lemma columns_all (PTDF : list (list num)) (width : nat) :
  Forall (λ row, length row = width) PTDF →
  columns PTDF (Some <$> seq 0 width) = Ok PTDF.
Proof.
  intros Hrows. unfold columns.
  rewrite (comprehension_ok _ id); [by rewrite list_fmap_id|].
  eapply Forall_impl; [exact Hrows|]. intros row Hrow. cbv beta in Hrow.
  rewrite <- Hrow. unfold id. apply gather_all. intros k x Hk. by rewrite Hk.
Qed.

Lemma columns_none (PTDF : list (list num)) :
  columns PTDF [] = Ok ((λ _, []) <$> PTDF).
Proof. unfold columns. apply comprehension_ok. by apply Forall_forall. Qed.

(** X6. Without any generator the partition is trivial: the generator
    block has the rows of the matrix and no column, and the block of the
    other buses is the whole matrix, its columns in bus-table order. *)
Theorem make_no_generators (sys : system num) (g : groupbase) (Bus : model)
    (PTDF Cft : list (list num)) :
  getattr sys (Some "StaticGen") = Ok (OGroup g) →
  Group.get_idx sys g = [] →
  getattr sys (Some "Bus") = Ok (OModel "Bus" Bus) →
  index_inv Bus →
  Forall (λ row, length row = n Bus) PTDF →
  make sys PTDF Cft = Ok ((λ _, []) <$> PTDF, PTDF, PTDF, Cft).
Proof.
  intros HSG Hidx HBus Hinv Hrows. unfold make. step HSG. rewrite Hidx.
  change (Group.get sys g "bus" [] "v") with (Ok (VArray ([] : list (cell num)))).
  rewrite outcome_bind_ok. unfold iter_cells. rewrite outcome_bind_ok. step HBus.
  cbv zeta. rewrite filter_no_generator.
  rewrite (list_fmap_ext (λ bus, as_bus_idx (CId bus)) id (idx_v Bus))
    by (intros; apply as_bus_idx_id).
  rewrite list_fmap_id, !fmap_nil.
  change (Index.idx2uid (uid Bus) (XSeq [])) with (Ok (UMany [])).
  rewrite outcome_bind_ok, (idx2uid_own_idx Bus Hinv), outcome_bind_ok.
  unfold positions. rewrite columns_none, outcome_bind_ok.
  by rewrite (columns_all PTDF (n Bus) Hrows).
Qed.

(** X7. A generator whose bus is not in the bus table makes [make] fail
    with a [KeyError], and nothing is returned: the generator buses are
    resolved before any column is taken. *)
Theorem make_unregistered_gen_bus (sys : system num) (g : groupbase) (Bus : model)
    (gen_bus : list ident) (PTDF Cft : list (list num)) :
  getattr sys (Some "StaticGen") = Ok (OGroup g) →
  Group.get sys g "bus" (Group.get_idx sys g) "v" = Ok (VArray (CId <$> gen_bus)) →
  getattr sys (Some "Bus") = Ok (OModel "Bus" Bus) →
  Exists (λ i, uid Bus !! i = None) gen_bus →
  make sys PTDF Cft = Raise KeyError.
Proof.
  intros HSG Hget HBus Hex. unfold make. step HSG. step Hget.
  unfold iter_cells. step HBus. rewrite ?outcome_bind_ok. cbv beta iota zeta.
  rewrite <- (list_fmap_compose CId as_bus_idx).
  rewrite (list_fmap_ext (as_bus_idx ∘ CId) id gen_bus)
    by (intros; apply as_bus_idx_id).
  rewrite list_fmap_id. by rewrite (idx2uid_unregistered (uid Bus) gen_bus Hex).
Qed.

End MakeEdges.

Lemma make_no_generators_witness :
  MatProcessor.make Cases.sys_no_gen Cases.PTDF0 []
  = Ok ((λ _, []) <$> Cases.PTDF0, Cases.PTDF0, Cases.PTDF0, []).
Proof.
  apply (make_no_generators Cases.sys_no_gen (Store.GroupBase "StaticGen" []) Cases.Bus).
  - vm_compute; reflexivity.
  - vm_compute; reflexivity.
  - vm_compute; reflexivity.
  - exact Bus_index_inv.
  - repeat constructor.
Defined.

Lemma make_unregistered_gen_bus_witness :
  MatProcessor.make Cases.sys_stray_bus Cases.PTDF0 [] = Raise KeyError.
Proof.
  apply (make_unregistered_gen_bus Cases.sys_stray_bus Cases.StaticGen Cases.Bus
           (Cases.ints [1; 4; 2; 9; 3]%Z)).
  - vm_compute; reflexivity.
  - vm_compute; reflexivity.
  - vm_compute; reflexivity.
  - do 3 apply Exists_cons_tl. apply Exists_cons_hd. vm_compute; reflexivity.
Defined.

(** * Further properties of Parameter References *)

Section RParamBinding.
Context {num : Type} {AR : Arith num}.
Import Store System RParam.


End RParamBinding.


(** * Further properties of [unpack] and [run] *)

Section UnpackFrame.
Context {num : Type} {AR : Arith num}.
Import Store System Routine.

Lemma grows_bind {A B} (c : M (system num) A) (k : A → M (system num) B) :
  (∀ s, heap s ⊆ heap (snd (c s))) →
  (∀ a s, heap s ⊆ heap (snd (k a s))) →
  ∀ s, heap s ⊆ heap (snd ((c ≫= k) s)).
Proof.
  intros Hc Hk s. unfold mbind, M_bind, mlet.
  specialize (Hc s). destruct (c s) as [[a|e] s1]; cbn in *; [|done].
  etrans; [exact Hc|apply Hk].
Qed.

Lemma grows_setattr_v mdl src (arr : list (cell num)) (s : system num) :
  heap s ⊆ heap (snd (setattr_v mdl src arr s)).
Proof.
  unfold setattr_v.
  destruct (s_models s !! mdl) as [m|]; [|done].
  destruct (fields m !! src); [|done]. cbn.
  apply insert_subseteq, not_elem_of_dom, is_fresh.
Qed.

Lemma grows_write_back (res : result num) (s : system num) :
  heap s ⊆ heap (snd (write_back res s)).
Proof.
  revert s. unfold write_back.
  repeat first
    [ apply grows_bind; [|intros ?]
    | intros s; apply grows_setattr_v
    | by intros s
    | intros s; unfold model_n; by destruct (s_models s !! _) ].
Qed.

Lemma keeps_write_back_recent (res : result num) : keeps recent (write_back res).
Proof.
  unfold write_back.
  repeat first
    [ apply keeps_bind; [|intros ?]
    | apply keeps_lift
    | apply keeps_model_n
    | apply keeps_setattr_v; by intros ].
Qed.

(** X9. [unpack] never writes into an array object that exists when it
    is called: every such object holds afterwards exactly what it held,
    whether [unpack] completes or raises. The solver's values are only
    reachable through the attributes, which are bound to new objects. *)
Theorem unpack_keeps_existing_arrays (res : result num) (r : routine num) :
  heap (sys r) ⊆ heap (sys (snd (DCPFlowBase.unpack res r)))
  ∧ heap (sys r) ⊆ heap (sys (snd (ACOPFBase.unpack res r))).
Proof.
  pose proof (grows_write_back res (sys r)) as Hg.
  destruct (write_back res (sys r)) as [[[]|e] s1] eqn:E; cbn in Hg.
  - pose proof (dcpf_unpack_devices res r s1 E) as [= _ ->].
    by pose proof (acopf_unpack_devices res r s1 E) as [= _ ->].
  - unfold DCPFlowBase.unpack, ACOPFBase.unpack.
    rewrite !(M_bind_raise _ _ r (set_sys s1 r) e) by (unfold on_sys; by rewrite E).
    done.
Qed.

Lemma loop_keeps {X} (f : routine num → X) store dict (vs : list (string * var num)) :
  (∀ vs r, f (store vs r) = f r) → (∀ m r, f (logger m r) = f r) →
  keeps f (for_each (λ '(raname, var), unpack_var store dict raname var) vs).
Proof. intros H1 H2. apply keeps_for_each. intros []. by apply keeps_unpack_var. Qed.

Lemma set_recent_spec (r : routine num) :
  match set_recent r with
  | (Ok _, r') => recent (sys r') = s_routines (sys r) !! class_name r
                  ∧ is_Some (recent (sys r'))
  | (Raise _, r') => r' = r
  end.
Proof.
  unfold set_recent. destruct (s_routines (sys r) !! class_name r) eqn:Hrt; [|done].
  cbn. eauto.
Qed.

(** X10. [unpack] returns [True] whenever it returns, and then
    [system.recent] is the routine registered under the class name of
    the routine; when it raises, [system.recent] is what it was. *)
Theorem unpack_recent (res : result num) (r : routine num) :
  match DCPFlowBase.unpack res r with
  | (Ok b, r') => b = true ∧ is_Some (recent (sys r'))
                  ∧ recent (sys r') = s_routines (sys r) !! class_name r
  | (Raise _, r') => recent (sys r') = recent (sys r)
  end
  ∧ match ACOPFBase.unpack res r with
    | (Ok b, r') => b = true ∧ is_Some (recent (sys r'))
                    ∧ recent (sys r') = s_routines (sys r) !! class_name r
    | (Raise _, r') => recent (sys r') = recent (sys r)
    end.
Proof.
  pose proof (keeps_write_back_recent res (sys r)) as Hrec.
  pose proof (keeps_write_back_routines res (sys r)) as Hrt.
  destruct (write_back res (sys r)) as [[[]|e] s1] eqn:E; cbn in Hrec, Hrt.
  2:{ unfold DCPFlowBase.unpack, ACOPFBase.unpack.
      rewrite !(M_bind_raise _ _ r (set_sys s1 r) e) by (unfold on_sys; by rewrite E).
      done. }
  split.
  - unfold DCPFlowBase.unpack.
    rewrite (M_bind_ok _ _ r (set_sys s1 r) tt) by (unfold on_sys; by rewrite E).
    rewrite (M_bind_ok _ _ (set_sys s1 r) (set_sys s1 r) (vars r)) by done.
    pose proof (loop_keeps sys set_vars vars (vars r) (λ _ _, eq_refl) (λ _ _, eq_refl)
                  (set_sys s1 r)) as K1.
    pose proof (loop_keeps class_name set_vars vars (vars r)
                  (λ _ _, eq_refl) (λ _ _, eq_refl) (set_sys s1 r)) as K2.
    destruct (for_each _ (vars r) (set_sys s1 r)) as [[[]|e] r1] eqn:E1;
      cbn in K1, K2.
    + rewrite (M_bind_ok _ _ _ _ _ E1).
      pose proof (set_recent_spec r1) as Hs.
      destruct (set_recent r1) as [[[]|e] r2] eqn:E2.
      * rewrite (M_bind_ok _ _ _ _ _ E2). cbn.
        destruct Hs as [Hs1 Hs2]. rewrite Hs1 in Hs2 |- *.
        rewrite K1, K2, Hrt in Hs2 |- *. done.
      * rewrite (M_bind_raise _ _ _ _ _ E2). subst r2. by rewrite K1.
    + rewrite (M_bind_raise _ _ _ _ _ E1). by rewrite K1.
  - unfold ACOPFBase.unpack.
    rewrite (M_bind_ok _ _ r (set_sys s1 r) tt) by (unfold on_sys; by rewrite E).
    rewrite (M_bind_ok _ _ (set_sys s1 r) (set_sys s1 r) (ralgebs r)) by done.
    pose proof (loop_keeps sys set_ralgebs ralgebs (ralgebs r)
                  (λ _ _, eq_refl) (λ _ _, eq_refl) (set_sys s1 r)) as K1.
    pose proof (loop_keeps class_name set_ralgebs ralgebs (ralgebs r)
                  (λ _ _, eq_refl) (λ _ _, eq_refl) (set_sys s1 r)) as K2.
    destruct (for_each _ (ralgebs r) (set_sys s1 r)) as [[[]|e] r1] eqn:E1;
      cbn in K1, K2.
    + rewrite (M_bind_ok _ _ _ _ _ E1).
      rewrite (M_bind_ok _ _ r1 (set_obj_v (f res) r1) tt) by done.
      pose proof (set_recent_spec (set_obj_v (f res) r1)) as Hs.
      destruct (set_recent (set_obj_v (f res) r1)) as [[[]|e] r2] eqn:E2.
      * rewrite (M_bind_ok _ _ _ _ _ E2). cbn.
        destruct Hs as [Hs1 Hs2]. rewrite Hs1 in Hs2 |- *. cbn in Hs2 |- *.
        rewrite K1, K2, Hrt in Hs2 |- *. done.
      * rewrite (M_bind_raise _ _ _ _ _ E2). subst r2. cbn. by rewrite K1.
    + rewrite (M_bind_raise _ _ _ _ _ E1). by rewrite K1.
Qed.


(** X12. Once [setup] (when it is called) and the solver have returned,
    nothing [unpack] does can undo what [run] has recorded: whether
    [unpack] completes or raises, the routine is left set up, with the
    exit code of the solve and the elapsed time recorded, and [setup]
    was called only if the routine was not set up. From there on [run]
    raises only when [unpack] raises, with the same exception; otherwise
    the power-flow routine returns the success flag of the solver and
    logs completion or failure, and the ACOPF routine returns the exit
    code. (A solver or a [setup] that raises is outside this model: the
    solver's answer is a premise.) *)
Theorem run_records_whatever_unpack_does (E : env num) (r : routine num)
    (res res' : result num) (ok : bool) :
  rundcpf E (sys r) = (res, ok) →
  runopf E (sys r) = res' →
  (ran (elapsed E) (if ok then 0 else 1)%Z r (snd (DCPFlowBase.run E r))
   ∧ match DCPFlowBase.unpack res
             (before_unpack (elapsed E) (if ok then 0 else 1)%Z r) with
     | (Ok _, r1) =>
         DCPFlowBase.run E r
         = (Ok ok, logger (if ok then InfoCompleted (class_name r) 0%Z
                           else WarnFailed (class_name r)) r1)
     | (Raise e, r1) => DCPFlowBase.run E r = (Raise e, r1)
     end)
  ∧ (ran (elapsed E) (1 - (if success res' then 1 else 0))%Z r
         (snd (ACOPFBase.run E r))
     ∧ match ACOPFBase.unpack res'
               (before_unpack (elapsed E)
                  (1 - (if success res' then 1 else 0))%Z r) with
       | (Ok _, r1) =>
           ACOPFBase.run E r
           = (Ok (1 - (if success res' then 1 else 0))%Z,
              logger (InfoCompleted (class_name r)
                        (1 - (if success res' then 1 else 0))%Z) r1)
       | (Raise e, r1) => ACOPFBase.run E r = (Raise e, r1)
       end).
Proof.
  intros Hsolve Hopf. split.
  - rewrite (dcpf_run_unfold E r res ok Hsolve). cbv zeta.
    set (code := (if ok then 0 else 1)%Z).
    destruct (before_unpack_core (elapsed E) code r) as (Hran & _ & Hcls & _).
    pose proof (dcpf_unpack_core res (before_unpack (elapsed E) code r)) as Hcore.
    destruct (DCPFlowBase.unpack res (before_unpack (elapsed E) code r))
      as [[b|e] r6] eqn:Eu; cbn in Hcore.
    + assert (exit_code r6 = Some code) as Hcode.
      { destruct (ran_core _ _ _ _ r6 Hran Hcore) as (_ & _ & H & _). exact H. }
      assert (class_name r6 = class_name r) as Hc.
      { unfold core in Hcore. injection Hcore as -> _ _ _ _. exact Hcls. }
      rewrite Hcode, Hc. subst code. destruct ok.
      * rewrite decide_True by done. split; [|done].
        eapply ran_core; [exact Hran|]. by rewrite <- Hcore.
      * rewrite decide_False by done. split; [|done].
        eapply ran_core; [exact Hran|]. by rewrite <- Hcore.
    + split; [|done]. eapply ran_core; [exact Hran|]. exact Hcore.
  - rewrite (acopf_run_unfold E r). cbv zeta. rewrite Hopf.
    set (code := (1 - (if success res' then 1 else 0))%Z).
    destruct (before_unpack_core (elapsed E) code r) as (Hran & _ & Hcls & _).
    pose proof (acopf_unpack_core res' (before_unpack (elapsed E) code r)) as Hcore.
    destruct (ACOPFBase.unpack res' (before_unpack (elapsed E) code r))
      as [[b|e] r6] eqn:Eu; cbn in Hcore.
    + assert (exit_code r6 = Some code) as Hcode.
      { destruct (ran_core _ _ _ _ r6 Hran Hcore) as (_ & _ & H & _). exact H. }
      assert (class_name r6 = class_name r) as Hc.
      { unfold core in Hcore. injection Hcore as -> _ _ _ _. exact Hcls. }
      rewrite Hcode, Hc. split; [|done].
      eapply ran_core; [exact Hran|]. by rewrite <- Hcore.
    + split; [|done]. eapply ran_core; [exact Hran|]. exact Hcore.
Qed.

End UnpackFrame.

Lemma run_records_whatever_unpack_does_witness :
  (Routine.ran (Routine.elapsed Cases.E0) 1%Z Cases.dcpf_unresolved
               (snd (DCPFlowBase.run Cases.E0 Cases.dcpf_unresolved))
   ∧ match DCPFlowBase.unpack Cases.res0
             (Routine.before_unpack (Routine.elapsed Cases.E0) 1%Z
                                    Cases.dcpf_unresolved) with
     | (Ok _, r1) =>
         DCPFlowBase.run Cases.E0 Cases.dcpf_unresolved
         = (Ok false, Routine.logger (Routine.WarnFailed "DCPF") r1)
     | (Raise e, r1) => DCPFlowBase.run Cases.E0 Cases.dcpf_unresolved = (Raise e, r1)
     end)
  ∧ (Routine.ran (Routine.elapsed Cases.E0) 1%Z Cases.dcpf_unresolved
                 (snd (ACOPFBase.run Cases.E0 Cases.dcpf_unresolved))
     ∧ match ACOPFBase.unpack Cases.res0
               (Routine.before_unpack (Routine.elapsed Cases.E0) 1%Z
                                      Cases.dcpf_unresolved) with
       | (Ok _, r1) =>
           ACOPFBase.run Cases.E0 Cases.dcpf_unresolved
           = (Ok 1%Z, Routine.logger (Routine.InfoCompleted "DCPF" 1%Z) r1)
       | (Raise e, r1) => ACOPFBase.run Cases.E0 Cases.dcpf_unresolved = (Raise e, r1)
       end).
Proof.
  exact (run_records_whatever_unpack_does Cases.E0 Cases.dcpf_unresolved
           Cases.res0 Cases.res0 false eq_refl eq_refl).
Defined.


(** * The initial commitment guess on the collections as declared *)

Section GuessDefect.
Context {num : Type} {AR : Arith num}.
Import Store System Routine UCModel.

(** The trigger condition read off the store: whether some entry of the
    array [PV.u.v] equals 0. *)
Lemma trigger_of_array (s : system num) (PV : model) (a : loc) (l : list (cell num)) :
  getattr s (Some "PV") = Ok (OModel "PV" PV) →
  index_inv PV →
  field PV "u" "v" = Ok a → heap s !! a = Some (SArray l) → length l = n PV →
  trigger s = Ok (existsb (λ c, cell_eqb c (CId (IInt 0))) l).
Proof.
  intros HPV Hinv Hf Ha Hlen. unfold trigger, collection.
  rewrite HPV, !outcome_bind_ok.
  rewrite (get_at_own_idx (heap s) PV "u" "v" a false _ Hinv Hf)
    by (unfold deref; by rewrite Ha).
  unfold deref. by rewrite Ha.
Qed.

(** Reading a column of the data frame at the identifiers of the
    collection. *)
Lemma frame_column_own_idx (s : system num) (PV : model) (src : string) (a : loc)
    (d : cell num) :
  index_inv PV → field PV src "v" = Ok a →
  length (contents (deref (heap s) a)) = n PV →
  (x ← get (heap s) PV src (XSeq (XId <$> idx_v PV)) "v" false d;
   frame_column (length (idx_v PV)) x)
  = Ok (contents (deref (heap s) a)).
Proof.
  intros Hinv Hf Hlen.
  rewrite (get_at_own_idx (heap s) PV src "v" a false d Hinv Hf Hlen).
  rewrite outcome_bind_ok. unfold frame_column, iter_cells.
  destruct (deref (heap s) a) as [l|l]; cbn in Hlen |- *;
    by rewrite decide_True by done.
Qed.

Lemma get_missing_attribute (h : gmap loc (storage num)) (self : model)
    (src attr : string) (idx : idx_arg) (u : uid_res) (b : bool) (d : cell num) :
  Index.idx2uid (uid self) idx = Ok u → fields self !! src = None →
  get h self src idx attr b d = Raise KeyError.
Proof.
  intros Hu Hsrc. unfold get, field. by rewrite Hu, outcome_bind_ok, Hsrc.
Qed.

(** C10, where the code departs from it. When some entry of the array
    [PV.u.v] is 0 the guess returns [True] and changes nothing. When no
    entry is 0 it logs its first warning and then reads the attributes
    [Sn], [bus] and [zone] of PV; a PV collection that has no attribute
    [zone], as the class PV declares none, makes it raise [KeyError]
    there: the scores are never computed, no generator is turned off
    and [True] is not returned. In every case nothing changes but the
    commitment arrays of the StaticGen members. *)
Theorem initial_guess_zone_missing (r : routine num) (PV : model) (a aS aB : loc)
    (l : list (cell num)) :
  getattr (sys r) (Some "PV") = Ok (OModel "PV" PV) →
  index_inv PV →
  field PV "u" "v" = Ok a → heap (sys r) !! a = Some (SArray l) → length l = n PV →
  (Exists (λ c, cell_eqb c (CId (IInt 0)) = true) l →
   _initial_guess r = (Ok true, r))
  ∧ (Forall (λ c, cell_eqb c (CId (IInt 0)) = false) l →
     field PV "Sn" "v" = Ok aS → length (contents (deref (heap (sys r)) aS)) = n PV →
     field PV "bus" "v" = Ok aB → length (contents (deref (heap (sys r)) aB)) = n PV →
     fields PV !! "zone" = None →
     _initial_guess r = (Raise KeyError, logger WarnAllOnline r))
  ∧ only_u_written (sys r) (sys (snd (_initial_guess r))).
Proof.
  intros HPV Hinv Hf Ha Hlen.
  pose proof (trigger_of_array (sys r) PV a l HPV Hinv Hf Ha Hlen) as Ht.
  split; [|split].
  - intros Hex. rewrite initial_guess_unfold, Ht.
    assert (existsb (λ c, cell_eqb c (CId (IInt 0))) l = true) as ->; [|done].
    apply Exists_exists in Hex as (c & Hc & Hz).
    apply existsb_exists. exists c. split; [by apply list_elem_of_In|done].
  - intros Hall HS LS HB LB Hzone. rewrite initial_guess_unfold, Ht.
    assert (existsb (λ c, cell_eqb c (CId (IInt 0))) l = false) as ->.
    { apply not_true_is_false. intros Hex.
      apply existsb_exists in Hex as (c & Hc & Hz).
      apply list_elem_of_In in Hc.
      apply Forall_forall with (x := c) in Hall; [|done]. congruence. }
    cbv zeta.
    assert (g_idx (sys r) = Raise KeyError) as ->; [|done].
    unfold g_idx, scores, collection. rewrite HPV, !outcome_bind_ok. cbv zeta.
    rewrite (frame_column_own_idx (sys r) PV "Sn" aS _ Hinv HS LS), outcome_bind_ok.
    rewrite (frame_column_own_idx (sys r) PV "bus" aB _ Hinv HB LB), outcome_bind_ok.
    by rewrite (get_missing_attribute (heap (sys r)) PV "zone" "v" _ _ false _
                  (idx2uid_own_idx PV Hinv) Hzone).
  - apply initial_guess_frame.
Qed.

End GuessDefect.

Lemma initial_guess_zone_missing_witness :
  UCModel._initial_guess Cases.uc_one_off = (Ok true, Cases.uc_one_off)
  ∧ UCModel._initial_guess Cases.uc0
    = (Raise KeyError, Routine.logger Routine.WarnAllOnline Cases.uc0).
Proof.
  split.
  - refine (proj1 (initial_guess_zone_missing Cases.uc_one_off Cases.PV 8 10 9
                     (Cases.nums [1; 0; 1; 1]%Q) _ PV_index_inv _ _ _) _);
      try (vm_compute; reflexivity).
    apply Exists_cons_tl, Exists_cons_hd. vm_compute; reflexivity.
  - refine (proj1 (proj2 (initial_guess_zone_missing Cases.uc0 Cases.PV 8 10 9
                            (Cases.nums [1; 1; 1; 1]%Q) _ PV_index_inv _ _ _))
                  _ _ _ _ _ _);
      try (vm_compute; reflexivity).
    repeat constructor.
Defined.

(** * The routine variables after [unpack] *)

Section UnpackVariables.
Context {num : Type} {AR : Arith num}.
Import Store System Routine.

(** The assignments of [unpack] rebind attributes only: the groups, and
    the group, identifiers and index of every collection, stay. *)
Lemma keeps_setattr_v_index mdl src (arr : list (cell num)) :
  keeps (λ s, (s_groups s, (λ m, (group m, idx_v m, uid m)) <$> s_models s))
        (setattr_v mdl src arr).
Proof.
  intros s. unfold setattr_v.
  destruct (s_models s !! mdl) as [m|] eqn:Hm; [|done].
  destruct (fields m !! src); [|done]. cbn. f_equal.
  rewrite fmap_insert. apply insert_id. by rewrite lookup_fmap, Hm.
Qed.

Lemma keeps_write_back_index (res : result num) :
  keeps (λ s, (s_groups s, (λ m, (group m, idx_v m, uid m)) <$> s_models s))
        (write_back res).
Proof.
  unfold write_back.
  repeat first
    [ apply keeps_bind; [|intros ?]
    | apply keeps_lift
    | apply keeps_model_n
    | apply keeps_setattr_v_index ].
Qed.

Lemma getattr_group (s : system num) (name : string) (g : groupbase) :
  getattr s (Some name) = Ok (OGroup g) ↔
  s_models s !! name = None ∧ s_groups s !! name = Some g.
Proof.
  unfold getattr. split.
  - destruct (s_models s !! name); [done|].
    destruct (s_groups s !! name); [by intros [= ->]|].
    by destruct (s_others s !! name).
  - by intros [-> ->].
Qed.

Lemma getattr_of_model (s : system num) (name : string) (m : model) :
  s_models s !! name = Some m → getattr s (Some name) = Ok (OModel name m).
Proof. intros H. unfold getattr. by rewrite H. Qed.

Lemma bound_model (s : system num) mdl src arr (m : model) :
  bound s mdl src arr → s_models s !! mdl = Some m →
  ∃ a, field m src "v" = Ok a ∧ heap s !! a = Some (SArray arr).
Proof.
  intros (m' & facets & a & Hm & Hf & Hv & Ha) Hm'.
  assert (m' = m) as -> by congruence.
  exists a. split; [|done]. unfold field. by rewrite Hf, Hv.
Qed.

(** A variable owned by a collection that is alone in its group
    receives the attribute array of the collection. *)
Lemma resolve_collection_attr (s : system num) (name src : string) (m : model)
    (g : groupbase) (arr : list (cell num)) :
  s_models s !! name = Some m →
  getattr s (Some (group m)) = Ok (OGroup g) → g_models g = [name] →
  index_inv m → bound s name src arr → length arr = n m →
  resolve s (Var (Some name) (Some src) None) = Ok (Assign (VArray arr)).
Proof.
  intros Hm Hg Hgm Hinv Hb Hlen.
  destruct (bound_model _ _ _ _ _ Hb Hm) as (a & Hf & Ha).
  unfold resolve. cbn [owner_name Routine.src].
  rewrite (getattr_of_model s name m Hm), outcome_bind_ok, Hg, outcome_bind_ok.
  assert (Group.get_idx s g = idx_v m) as ->.
  { unfold Group.get_idx, Group.members. rewrite Hgm. cbn. rewrite Hm. cbn.
    apply app_nil_r. }
  rewrite (get_at_own_idx (heap s) m src "v" a); try done.
  - unfold deref. by rewrite Ha.
  - unfold deref. by rewrite Ha.
Qed.

(** A variable owned by a group of two collections receives the
    attribute arrays of the two, one after the other. *)
Lemma resolve_group_attr (s : system num) (gname n1 n2 src : string)
    (g : groupbase) (m1 m2 : model) (arr1 arr2 : list (cell num)) :
  getattr s (Some gname) = Ok (OGroup g) → g_models g = [n1; n2] →
  s_models s !! n1 = Some m1 → s_models s !! n2 = Some m2 →
  Group.group_inv s g →
  bound s n1 src arr1 → bound s n2 src arr2 →
  length arr1 = n m1 → length arr2 = n m2 →
  resolve s (Var (Some gname) (Some src) None) = Ok (Assign (VArray (arr1 ++ arr2))).
Proof.
  intros Hg Hgm H1 H2 Hinv B1 B2 L1 L2.
  destruct (bound_model _ _ _ _ _ B1 H1) as (a1 & F1 & A1).
  destruct (bound_model _ _ _ _ _ B2 H2) as (a2 & F2 & A2).
  assert (Group.members s g = [m1; m2]) as Hmem.
  { unfold Group.members. rewrite Hgm. cbn. by rewrite H1, H2. }
  unfold resolve. cbn [owner_name Routine.src]. rewrite Hg, outcome_bind_ok.
  rewrite (group_get_concat s g src "v" Hinv).
  - rewrite Hmem. cbn. unfold read. rewrite F1, F2. unfold deref.
    rewrite A1, A2. cbn. by rewrite app_nil_r.
  - rewrite Hmem. constructor; [|constructor; [|constructor]].
    + exists arr1. unfold read. rewrite F1. unfold deref. by rewrite A1.
    + exists arr2. unfold read. rewrite F2. unfold deref. by rewrite A2.
Qed.

Section AfterWriteBack.
Variables (s s1 : system num).
Hypothesis Hgroups : s_groups s1 = s_groups s.
Hypothesis Hindex :
  (λ m, (group m, idx_v m, uid m)) <$> s_models s1
  = (λ m, (group m, idx_v m, uid m)) <$> s_models s.

Lemma same_index_lookup (name : string) :
  match s_models s !! name, s_models s1 !! name with
  | Some m, Some m1 => group m1 = group m ∧ idx_v m1 = idx_v m ∧ uid m1 = uid m
  | None, None => True
  | _, _ => False
  end.
Proof.
  pose proof (f_equal (λ x : gmap string _, x !! name) Hindex) as H. cbv beta in H.
  rewrite !lookup_fmap in H.
  destruct (s_models s !! name), (s_models s1 !! name); cbn in H; try done.
  by injection H as -> -> ->.
Qed.

Lemma same_index_model (name : string) (m : model) :
  s_models s !! name = Some m →
  ∃ m1, s_models s1 !! name = Some m1
        ∧ group m1 = group m ∧ idx_v m1 = idx_v m ∧ uid m1 = uid m.
Proof.
  intros Hm. pose proof (same_index_lookup name) as H. rewrite Hm in H.
  destruct (s_models s1 !! name) as [m1|]; [|done]. eauto.
Qed.

Lemma same_index_getattr_group (name : string) (g : groupbase) :
  getattr s (Some name) = Ok (OGroup g) → getattr s1 (Some name) = Ok (OGroup g).
Proof.
  rewrite !getattr_group. intros [Hm Hg].
  pose proof (same_index_lookup name) as H. rewrite Hm in H.
  destruct (s_models s1 !! name); [done|]. by rewrite Hgroups.
Qed.

Lemma same_index_members (g : groupbase) :
  Forall2 (λ m m1, idx_v m1 = idx_v m ∧ uid m1 = uid m)
          (Group.members s g) (Group.members s1 g).
Proof.
  unfold Group.members. induction (g_models g) as [|name l IH]; [constructor|].
  cbn. pose proof (same_index_lookup name) as H.
  destruct (s_models s !! name) as [m|], (s_models s1 !! name) as [m1|]; try done.
  constructor; [|done]. by destruct H as (_ & ? & ?).
Qed.

Lemma same_index_group_inv (g : groupbase) :
  Group.group_inv s g → Group.group_inv s1 g.
Proof.
  intros [Hall Hdis]. pose proof (same_index_members g) as F. split.
  - apply Forall_forall. intros m1 Hm1.
    apply list_elem_of_lookup in Hm1 as [p Hp].
    destruct (Forall2_lookup_r _ _ _ _ _ F Hp) as (m & Hm & Hi & Hu).
    assert (index_inv m) as Hinv.
    { eapply Forall_forall; [exact Hall|]. apply list_elem_of_lookup. eauto. }
    intros i k. rewrite Hi, Hu. apply Hinv.
  - intros p1 p2 m1 m2 i H1 H2 U1 U2.
    destruct (Forall2_lookup_r _ _ _ _ _ F H1) as (m1' & Hm1 & _ & Hu1).
    destruct (Forall2_lookup_r _ _ _ _ _ F H2) as (m2' & Hm2 & _ & Hu2).
    rewrite Hu1 in U1. rewrite Hu2 in U2. by apply (Hdis p1 p2 m1' m2' i).
Qed.

End AfterWriteBack.

(** What the loop over the declared variables finds after the write-back
    block: the attributes of Bus as they were written, and those of the
    generators gathered through the group, member by member in
    registration order. The write-back block gave the first [Slack.n]
    rows of the result to Slack and the others to PV; with Slack
    registered first the rows are gathered in the order of the result,
    with PV registered first the rows of PV come before those of
    Slack. *)
Lemma resolve_after_write_back (res : result num) (s : system num)
    (Bus Slack PV : model) (gBus gGen : groupbase) (slack_first : bool)
    (vm va pg qg : list num) :
  s_models s !! "Bus" = Some Bus →
  s_models s !! "Slack" = Some Slack →
  s_models s !! "PV" = Some PV →
  getattr s (Some (group Bus)) = Ok (OGroup gBus) → g_models gBus = ["Bus"] →
  getattr s (Some "StaticGen") = Ok (OGroup gGen) →
  g_models gGen = (if slack_first then ["Slack"; "PV"] else ["PV"; "Slack"]) →
  index_inv Bus → Group.group_inv s gGen →
  declares s "Bus" "v" → declares s "Bus" "a" →
  declares s "PV" "p" → declares s "PV" "q" →
  declares s "Slack" "p" → declares s "Slack" "q" →
  column 7 (bus res) = Ok vm → column 8 (bus res) = Ok va →
  column 1 (gen res) = Ok pg → column 2 (gen res) = Ok qg →
  length vm = n Bus → length va = n Bus →
  length pg = n Slack + n PV → length qg = n Slack + n PV →
  ∃ s1, write_back res s = (Ok tt, s1)
    ∧ resolve s1 (Var (Some "Bus") (Some "a") None)
      = Ok (Assign (VArray ((λ y, CNum (num_mul y deg2rad)) <$> va)))
    ∧ resolve s1 (Var (Some "Bus") (Some "v") None)
      = Ok (Assign (VArray (CNum <$> vm)))
    ∧ resolve s1 (Var (Some "StaticGen") (Some "p") None)
      = Ok (Assign (VArray ((λ y, CNum (num_div y (baseMVA res)))
                              <$> (if slack_first then pg
                                   else drop (n Slack) pg ++ take (n Slack) pg))))
    ∧ resolve s1 (Var (Some "StaticGen") (Some "q") None)
      = Ok (Assign (VArray ((λ y, CNum (num_div y (baseMVA res)))
                              <$> (if slack_first then qg
                                   else drop (n Slack) qg ++ take (n Slack) qg)))).
Proof.
  intros HB HS HP HgB HmB HgG HmG HiB HiG D1 D2 D3 D4 D5 D6 C7 C8 C1 C2
         Hvm Hva Hpg Hqg.
  assert (size s "Slack" = Some (n Slack)) as Hsize.
  { unfold size. by rewrite HS. }
  destruct (write_back_spec res s vm va pg qg (n Slack))
    as (s1 & E & Bv & Ba & Bp & Bq & Bsp & Bsq); try done.
  exists s1. split; [done|].
  pose proof (keeps_write_back_index res s) as K.
  rewrite E in K. cbn in K. injection K as Hgrp Hidx.
  destruct (same_index_model s s1 Hidx "Bus" Bus HB) as (Bus1 & HB1 & XB1 & XB2 & XB3).
  destruct (same_index_model s s1 Hidx "Slack" Slack HS) as (Slack1 & HS1 & _ & XS2 & _).
  destruct (same_index_model s s1 Hidx "PV" PV HP) as (PV1 & HP1 & _ & XP2 & _).
  assert (getattr s1 (Some (group Bus1)) = Ok (OGroup gBus)) as HgB1.
  { rewrite XB1. by apply (same_index_getattr_group s s1). }
  assert (index_inv Bus1) as HiB1.
  { intros i k. rewrite XB2, XB3. apply HiB. }
  pose proof (same_index_getattr_group s s1 Hgrp Hidx _ _ HgG) as HgG1.
  pose proof (same_index_group_inv s s1 Hidx gGen HiG) as HiG1.
  assert (n Bus1 = n Bus ∧ n Slack1 = n Slack ∧ n PV1 = n PV) as (NB & NS & NP).
  { unfold n. by rewrite XB2, XS2, XP2. }
  split; [|split; [|split]].
  - apply (resolve_collection_attr s1 "Bus" "a" Bus1 gBus); try done.
    rewrite length_fmap. lia.
  - apply (resolve_collection_attr s1 "Bus" "v" Bus1 gBus); try done.
    rewrite length_fmap. lia.
  - destruct slack_first.
    + rewrite <- (take_drop (n Slack) pg) at 1. rewrite fmap_app.
      apply (resolve_group_attr s1 "StaticGen" "Slack" "PV" "p" gGen Slack1 PV1);
        try done.
      * rewrite length_fmap, length_take. lia.
      * rewrite length_fmap, length_drop. lia.
    + rewrite fmap_app.
      apply (resolve_group_attr s1 "StaticGen" "PV" "Slack" "p" gGen PV1 Slack1);
        try done.
      * rewrite length_fmap, length_drop. lia.
      * rewrite length_fmap, length_take. lia.
  - destruct slack_first.
    + rewrite <- (take_drop (n Slack) qg) at 1. rewrite fmap_app.
      apply (resolve_group_attr s1 "StaticGen" "Slack" "PV" "q" gGen Slack1 PV1);
        try done.
      * rewrite length_fmap, length_take. lia.
      * rewrite length_fmap, length_drop. lia.
    + rewrite fmap_app.
      apply (resolve_group_attr s1 "StaticGen" "PV" "Slack" "q" gGen PV1 Slack1);
        try done.
      * rewrite length_fmap, length_drop. lia.
      * rewrite length_fmap, length_take. lia.
Qed.

Lemma keeps_set_recent_tail {X} (f : routine num → X) :
  (∀ s r, f (set_sys s r) = f r) →
  keeps f (set_recent ≫= λ _, mret true).
Proof.
  intros Hf. apply keeps_bind; [|intros ?; apply keeps_ret].
  apply keeps_set_recent. intros s r _ _. apply Hf.
Qed.

(** X15. The power-flow routine declares two variables, [aBus] (the
    attribute [a] of Bus) and [pg] (the attribute [p] of the group
    StaticGen). Let Bus be alone in its group and let the members of
    StaticGen be Slack and PV. After [unpack], [aBus] holds the bus
    angles of the result in radians, in bus order, and [pg] the active
    powers of the result in per unit, gathered member by member in the
    registration order of the group: with Slack registered first this is
    the row order of the result; with PV registered first the rows of PV
    come first and the [Slack.n] first rows of the result last, so [pg]
    is not in the row order of the result. *)
Theorem unpack_fills_declared_variables (res : result num) (r : routine num)
    (Bus Slack PV : model) (gBus gGen : groupbase) (slack_first : bool)
    (vm va pg qg : list num) :
  vars r = [("aBus", Var (Some "Bus") (Some "a") None);
            ("pg", Var (Some "StaticGen") (Some "p") None)] →
  s_models (sys r) !! "Bus" = Some Bus →
  s_models (sys r) !! "Slack" = Some Slack →
  s_models (sys r) !! "PV" = Some PV →
  getattr (sys r) (Some (group Bus)) = Ok (OGroup gBus) →
  g_models gBus = ["Bus"] →
  getattr (sys r) (Some "StaticGen") = Ok (OGroup gGen) →
  g_models gGen = (if slack_first then ["Slack"; "PV"] else ["PV"; "Slack"]) →
  index_inv Bus → Group.group_inv (sys r) gGen →
  declares (sys r) "Bus" "v" → declares (sys r) "Bus" "a" →
  declares (sys r) "PV" "p" → declares (sys r) "PV" "q" →
  declares (sys r) "Slack" "p" → declares (sys r) "Slack" "q" →
  column 7 (bus res) = Ok vm → column 8 (bus res) = Ok va →
  column 1 (gen res) = Ok pg → column 2 (gen res) = Ok qg →
  length vm = n Bus → length va = n Bus →
  length pg = n Slack + n PV → length qg = n Slack + n PV →
  vars (snd (DCPFlowBase.unpack res r))
  = [("aBus", Var (Some "Bus") (Some "a")
                  (Some (VArray ((λ y, CNum (num_mul y deg2rad)) <$> va))));
     ("pg", Var (Some "StaticGen") (Some "p")
                (Some (VArray ((λ y, CNum (num_div y (baseMVA res)))
                                 <$> (if slack_first then pg
                                      else drop (n Slack) pg ++ take (n Slack) pg)))))].
Proof.
  intros Hvars HB HS HP HgB HmB HgG HmG HiB HiG D1 D2 D3 D4 D5 D6 C7 C8 C1 C2
         Hvm Hva Hpg Hqg.
  destruct (resolve_after_write_back res (sys r) Bus Slack PV gBus gGen slack_first
              vm va pg qg) as (s1 & E & Ra & _ & Rp & _); try done.
  unfold DCPFlowBase.unpack.
  rewrite (M_bind_ok _ _ r (set_sys s1 r) tt) by (unfold on_sys; by rewrite E).
  rewrite (M_bind_ok _ _ (set_sys s1 r) (set_sys s1 r) (vars r)) by done.
  rewrite Hvars.
  set (Y := VArray ((λ y, CNum (num_mul y deg2rad)) <$> va)) in *.
  set (X := VArray ((λ y, CNum (num_div y (baseMVA res)))
                      <$> (if slack_first then pg
                           else drop (n Slack) pg ++ take (n Slack) pg))) in *.
  set (r2 := set_vars (assign_v "aBus" Y (vars (set_sys s1 r))) (set_sys s1 r)).
  set (r3 := set_vars (assign_v "pg" X (vars r2)) r2).
  rewrite (M_bind_ok _ _ (set_sys s1 r) r3 tt).
  - rewrite (keeps_set_recent_tail vars) by done.
    unfold r3, r2. cbn [vars set_vars set_sys]. rewrite Hvars. reflexivity.
  - cbn [for_each]. unfold mlet, unpack_var.
    change (sys (set_sys s1 r)) with s1. rewrite Ra.
    change (sys (set_vars (assign_v "aBus" Y (vars (set_sys s1 r))) (set_sys s1 r)))
      with s1.
    rewrite Rp. reflexivity.
Qed.

(** X16. The ACOPF routine declares four variables, [aBus] and [vBus]
    on Bus and [pg] and [qg] on the group StaticGen. Let Bus be alone in
    its group and let the members of StaticGen be Slack and PV. After
    [unpack] the variables hold the bus angles in radians, the bus
    voltage magnitudes, and the active and reactive powers in per unit,
    gathered member by member in the registration order of the group:
    the row order of the result with Slack registered first, the rows
    of PV before the [Slack.n] first rows with PV registered first. The
    value of the objective is the [f] of the result. *)
Theorem acopf_unpack_fills_declared_variables (res : result num) (r : routine num)
    (Bus Slack PV : model) (gBus gGen : groupbase) (slack_first : bool)
    (vm va pg qg : list num) :
  ralgebs r = [("aBus", Var (Some "Bus") (Some "a") None);
               ("vBus", Var (Some "Bus") (Some "v") None);
               ("pg", Var (Some "StaticGen") (Some "p") None);
               ("qg", Var (Some "StaticGen") (Some "q") None)] →
  s_models (sys r) !! "Bus" = Some Bus →
  s_models (sys r) !! "Slack" = Some Slack →
  s_models (sys r) !! "PV" = Some PV →
  getattr (sys r) (Some (group Bus)) = Ok (OGroup gBus) →
  g_models gBus = ["Bus"] →
  getattr (sys r) (Some "StaticGen") = Ok (OGroup gGen) →
  g_models gGen = (if slack_first then ["Slack"; "PV"] else ["PV"; "Slack"]) →
  index_inv Bus → Group.group_inv (sys r) gGen →
  declares (sys r) "Bus" "v" → declares (sys r) "Bus" "a" →
  declares (sys r) "PV" "p" → declares (sys r) "PV" "q" →
  declares (sys r) "Slack" "p" → declares (sys r) "Slack" "q" →
  column 7 (bus res) = Ok vm → column 8 (bus res) = Ok va →
  column 1 (gen res) = Ok pg → column 2 (gen res) = Ok qg →
  length vm = n Bus → length va = n Bus →
  length pg = n Slack + n PV → length qg = n Slack + n PV →
  ralgebs (snd (ACOPFBase.unpack res r))
  = [("aBus", Var (Some "Bus") (Some "a")
                  (Some (VArray ((λ y, CNum (num_mul y deg2rad)) <$> va))));
     ("vBus", Var (Some "Bus") (Some "v") (Some (VArray (CNum <$> vm))));
     ("pg", Var (Some "StaticGen") (Some "p")
                (Some (VArray ((λ y, CNum (num_div y (baseMVA res)))
                                 <$> (if slack_first then pg
                                      else drop (n Slack) pg ++ take (n Slack) pg)))));
     ("qg", Var (Some "StaticGen") (Some "q")
                (Some (VArray ((λ y, CNum (num_div y (baseMVA res)))
                                 <$> (if slack_first then qg
                                      else drop (n Slack) qg ++ take (n Slack) qg)))))]
  ∧ obj_v (snd (ACOPFBase.unpack res r)) = Some (f res).
Proof.
  intros Hvars HB HS HP HgB HmB HgG HmG HiB HiG D1 D2 D3 D4 D5 D6 C7 C8 C1 C2
         Hvm Hva Hpg Hqg.
  destruct (resolve_after_write_back res (sys r) Bus Slack PV gBus gGen slack_first
              vm va pg qg) as (s1 & E & Ra & Rv & Rp & Rq); try done.
  unfold ACOPFBase.unpack.
  rewrite (M_bind_ok _ _ r (set_sys s1 r) tt) by (unfold on_sys; by rewrite E).
  rewrite (M_bind_ok _ _ (set_sys s1 r) (set_sys s1 r) (ralgebs r)) by done.
  rewrite Hvars.
  set (A := VArray ((λ y, CNum (num_mul y deg2rad)) <$> va)) in *.
  set (V := VArray (CNum <$> vm)) in *.
  set (P := VArray ((λ y, CNum (num_div y (baseMVA res)))
                      <$> (if slack_first then pg
                           else drop (n Slack) pg ++ take (n Slack) pg))) in *.
  set (Q := VArray ((λ y, CNum (num_div y (baseMVA res)))
                      <$> (if slack_first then qg
                           else drop (n Slack) qg ++ take (n Slack) qg))) in *.
  set (r2 := set_ralgebs (assign_v "aBus" A (ralgebs (set_sys s1 r))) (set_sys s1 r)).
  set (r3 := set_ralgebs (assign_v "vBus" V (ralgebs r2)) r2).
  set (r4 := set_ralgebs (assign_v "pg" P (ralgebs r3)) r3).
  set (r5 := set_ralgebs (assign_v "qg" Q (ralgebs r4)) r4).
  rewrite (M_bind_ok _ _ (set_sys s1 r) r5 tt).
  - rewrite (M_bind_ok _ _ r5 (set_obj_v (f res) r5) tt) by done.
    rewrite (keeps_set_recent_tail ralgebs), (keeps_set_recent_tail obj_v) by done.
    split; [|done].
    unfold r5, r4, r3, r2. cbn [ralgebs set_ralgebs set_sys set_obj_v].
    rewrite Hvars. reflexivity.
  - cbn [for_each]. unfold mlet, unpack_var.
    change (sys (set_sys s1 r)) with s1. rewrite Ra.
    change (sys (set_ralgebs (assign_v "aBus" A (ralgebs (set_sys s1 r)))
                             (set_sys s1 r))) with s1.
    rewrite Rv. fold r2.
    change (sys (set_ralgebs (assign_v "vBus" V (ralgebs r2)) r2)) with s1.
    rewrite Rp. fold r3.
    change (sys (set_ralgebs (assign_v "pg" P (ralgebs r3)) r3)) with s1.
    rewrite Rq. reflexivity.
Qed.

End UnpackVariables.

Lemma StaticGen_pv_first_inv :
  Group.group_inv Cases.sys_pv_first Cases.StaticGen_pv_first.
Proof.
  assert (Group.members Cases.sys_pv_first Cases.StaticGen_pv_first
          = [Cases.PV; Cases.Slack]) as E by (vm_compute; reflexivity).
  destruct (StaticGen_inv Cases.heap0) as [_ Hdis].
  assert (Group.members (Cases.with_heap Cases.heap0) Cases.StaticGen
          = [Cases.Slack; Cases.PV]) as E0 by (vm_compute; reflexivity).
  rewrite E0 in Hdis.
  unfold Group.group_inv. rewrite E. split.
  - constructor; [apply PV_index_inv|].
    constructor; [apply Slack_index_inv|constructor].
  - intros p1 p2 m1 m2 i H1 H2 Hi1 Hi2.
    destruct p1 as [|[|p1]], p2 as [|[|p2]]; try done; cbn in H1, H2;
      try discriminate; injection H1 as <-; injection H2 as <-; exfalso.
    + by pose proof (Hdis 1 0 Cases.PV Cases.Slack i eq_refl eq_refl Hi1 Hi2).
    + by pose proof (Hdis 0 1 Cases.Slack Cases.PV i eq_refl eq_refl Hi1 Hi2).
Qed.

Lemma unpack_fills_declared_variables_witness :
  Routine.vars (snd (DCPFlowBase.unpack Cases.res0 Cases.dcpf0))
  = [("aBus", Routine.Var (Some "Bus") (Some "a")
                (Some (Store.VArray
                         ((λ y, Store.CNum (num_mul y deg2rad))
                            <$> [0; -2; -3; -1; -4; -5]%Q))));
     ("pg", Routine.Var (Some "StaticGen") (Some "p")
              (Some (Store.VArray
                       ((λ y, Store.CNum (num_div y (Routine.baseMVA Cases.res0)))
                          <$> [150; 50; 40; 30; 20]%Q))))]
  ∧ Routine.vars (snd (DCPFlowBase.unpack Cases.res0 Cases.dcpf_pv_first))
    = [("aBus", Routine.Var (Some "Bus") (Some "a")
                  (Some (Store.VArray
                           ((λ y, Store.CNum (num_mul y deg2rad))
                              <$> [0; -2; -3; -1; -4; -5]%Q))));
       ("pg", Routine.Var (Some "StaticGen") (Some "p")
                (Some (Store.VArray
                         ((λ y, Store.CNum (num_div y (Routine.baseMVA Cases.res0)))
                            <$> [50; 40; 30; 20; 150]%Q))))].
Proof.
  split.
  - apply (unpack_fills_declared_variables Cases.res0 Cases.dcpf0
             Cases.Bus Cases.Slack Cases.PV Cases.ACTopology Cases.StaticGen true
             [1; 98 # 100; 97 # 100; 99 # 100; 96 # 100; 95 # 100]%Q
             [0; -2; -3; -1; -4; -5]%Q [150; 50; 40; 30; 20]%Q [20; 5; 4; 3; 2]%Q);
      try (vm_compute; reflexivity); try declared.
    + exact Bus_index_inv.
    + apply StaticGen_inv.
  - apply (unpack_fills_declared_variables Cases.res0 Cases.dcpf_pv_first
             Cases.Bus Cases.Slack Cases.PV Cases.ACTopology Cases.StaticGen_pv_first
             false
             [1; 98 # 100; 97 # 100; 99 # 100; 96 # 100; 95 # 100]%Q
             [0; -2; -3; -1; -4; -5]%Q [150; 50; 40; 30; 20]%Q [20; 5; 4; 3; 2]%Q);
      try (vm_compute; reflexivity); try declared.
    + exact Bus_index_inv.
    + apply StaticGen_pv_first_inv.
Defined.

Lemma acopf_unpack_fills_declared_variables_witness :
  (Routine.ralgebs (snd (ACOPFBase.unpack Cases.res0 Cases.acopf_declared))
   = [("aBus", Routine.Var (Some "Bus") (Some "a")
                 (Some (Store.VArray
                          ((λ y, Store.CNum (num_mul y deg2rad))
                             <$> [0; -2; -3; -1; -4; -5]%Q))));
      ("vBus", Routine.Var (Some "Bus") (Some "v")
                 (Some (Store.VArray
                          (Store.CNum
                             <$> [1; 98 # 100; 97 # 100; 99 # 100; 96 # 100; 95 # 100]%Q))));
      ("pg", Routine.Var (Some "StaticGen") (Some "p")
               (Some (Store.VArray
                        ((λ y, Store.CNum (num_div y (Routine.baseMVA Cases.res0)))
                           <$> [150; 50; 40; 30; 20]%Q))));
      ("qg", Routine.Var (Some "StaticGen") (Some "q")
               (Some (Store.VArray
                        ((λ y, Store.CNum (num_div y (Routine.baseMVA Cases.res0)))
                           <$> [20; 5; 4; 3; 2]%Q))))]
   ∧ Routine.obj_v (snd (ACOPFBase.unpack Cases.res0 Cases.acopf_declared))
     = Some 1234%Q)
  ∧ (Routine.ralgebs (snd (ACOPFBase.unpack Cases.res0 Cases.acopf_pv_first))
     = [("aBus", Routine.Var (Some "Bus") (Some "a")
                   (Some (Store.VArray
                            ((λ y, Store.CNum (num_mul y deg2rad))
                               <$> [0; -2; -3; -1; -4; -5]%Q))));
        ("vBus", Routine.Var (Some "Bus") (Some "v")
                   (Some (Store.VArray
                            (Store.CNum
                               <$> [1; 98 # 100; 97 # 100; 99 # 100; 96 # 100;
                                    95 # 100]%Q))));
        ("pg", Routine.Var (Some "StaticGen") (Some "p")
                 (Some (Store.VArray
                          ((λ y, Store.CNum (num_div y (Routine.baseMVA Cases.res0)))
                             <$> [50; 40; 30; 20; 150]%Q))));
        ("qg", Routine.Var (Some "StaticGen") (Some "q")
                 (Some (Store.VArray
                          ((λ y, Store.CNum (num_div y (Routine.baseMVA Cases.res0)))
                             <$> [5; 4; 3; 2; 20]%Q))))]
     ∧ Routine.obj_v (snd (ACOPFBase.unpack Cases.res0 Cases.acopf_pv_first))
       = Some 1234%Q).
Proof.
  split.
  - apply (acopf_unpack_fills_declared_variables Cases.res0 Cases.acopf_declared
             Cases.Bus Cases.Slack Cases.PV Cases.ACTopology Cases.StaticGen true
             [1; 98 # 100; 97 # 100; 99 # 100; 96 # 100; 95 # 100]%Q
             [0; -2; -3; -1; -4; -5]%Q [150; 50; 40; 30; 20]%Q [20; 5; 4; 3; 2]%Q);
      try (vm_compute; reflexivity); try declared.
    + exact Bus_index_inv.
    + apply StaticGen_inv.
  - apply (acopf_unpack_fills_declared_variables Cases.res0 Cases.acopf_pv_first
             Cases.Bus Cases.Slack Cases.PV Cases.ACTopology Cases.StaticGen_pv_first
             false
             [1; 98 # 100; 97 # 100; 99 # 100; 96 # 100; 95 # 100]%Q
             [0; -2; -3; -1; -4; -5]%Q [150; 50; 40; 30; 20]%Q [20; 5; 4; 3; 2]%Q);
      try (vm_compute; reflexivity); try declared.
    + exact Bus_index_inv.
    + apply StaticGen_pv_first_inv.
Defined.

(** * The OPF entry point and the construction of data classes *)

Section RunOPFFacts.
Context {case options result err : Type}.
Import RunOPF.

(** X17. An output file that cannot be opened does not go unnoticed and
    is not logged either: the handler of the [IOError] refers to a name
    [logger] that the module does not define, so [runopf] raises
    [NameError]. The result of the solver is lost, nothing is written
    and the solved case is not saved. *)
Theorem runopf_unopenable_output (W : world case options result err)
    (casedata : option case) (ppopt : option options) (o : options) (r : result)
    (fname solvedcase : string) :
  ppoption W ppopt = inr o →
  opf W (default (default_case W) casedata) o = inr r →
  fname ≠ "" →
  open_append W fname = IOError →
  runopf W casedata ppopt fname solvedcase = (Raised NameError, []).
Proof.
  intros Ho Hr Hf Hopen. unfold runopf, output. cbv zeta.
  rewrite Ho, Hr, decide_False by done. by rewrite Hopen.
Qed.

(** X18. [runopf] returns exactly when the options are accepted, the
    solver returns, the output file (if one is named) can be opened and
    printed to, and the solved case (if one is named) can be saved. It
    then returns the result of the solver on the given case (the default
    case if none is given), and has written the output file first and
    the solved case second, and nothing else; with neither file named it
    touches no file. *)
Theorem runopf_returns (W : world case options result err)
    (casedata : option case) (ppopt : option options)
    (fname solvedcase : string) (r : result) (done : list (effect result)) :
  runopf W casedata ppopt fname solvedcase = (Returned r, done)
  ↔ ∃ o, ppoption W ppopt = inr o
         ∧ opf W (default (default_case W) casedata) o = inr r
         ∧ (fname = "" ∨ open_append W fname = FileOpened ∧ printpf W r fname o = None)
         ∧ (solvedcase = "" ∨ savecase W solvedcase r = None)
         ∧ done = (if decide (fname = "") then []
                   else [Opened fname; Printed fname r; Closed fname])
                  ++ (if decide (solvedcase = "") then [] else [Saved solvedcase r]).
Proof.
  unfold runopf, output. cbv zeta. split.
  - destruct (ppoption W ppopt) as [e|o]; [done|].
    destruct (opf W (default (default_case W) casedata) o) as [e|r'] eqn:Hopf; [done|].
    intros H. exists o. split; [done|].
    destruct (decide (fname = "")) as [Hf|Hf].
    + destruct (decide (solvedcase = "")) as [Hs|Hs].
      * injection H as -> <-. eauto 10.
      * destruct (savecase W solvedcase r') eqn:Hsave; [done|].
        injection H as -> <-. eauto 10.
    + destruct (open_append W fname) eqn:Hopen; try done.
      destruct (printpf W r' fname o) eqn:Hprint; [done|].
      destruct (decide (solvedcase = "")) as [Hs|Hs].
      * injection H as -> <-. rewrite app_nil_r. eauto 10.
      * destruct (savecase W solvedcase r') eqn:Hsave; [done|].
        injection H as -> <-. eauto 10.
  - intros (o & -> & -> & Hout & Hsave & ->).
    destruct (decide (fname = "")) as [Hf|Hf].
    + destruct (decide (solvedcase = "")) as [Hs|Hs]; [done|].
      destruct Hsave as [Hs'| ->]; done.
    + destruct Hout as [Hf'|[-> ->]]; [done|].
      destruct (decide (solvedcase = "")) as [Hs|Hs]; [by rewrite app_nil_r|].
      destruct Hsave as [Hs'| ->]; done.
Qed.

End RunOPFFacts.

Lemma runopf_unopenable_output_witness :
  RunOPF.runopf Cases.world0 None (Some 1) "/no/such/dir/out.txt" "solved.py"
  = (RunOPF.Raised RunOPF.NameError, []).
Proof.
  apply (runopf_unopenable_output Cases.world0 None (Some 1) 1 10); done.
Defined.

Section DataClasses.
Context {num : Type} {AR : Arith num}.

(** X19. The economic-dispatch data class cannot be constructed: its
    first Parameter Reference is created with a keyword [model], which
    [RParam.__init__] does not accept, so [EDData.__init__] raises
    [TypeError] as soon as the constructor of its base class has
    returned, whatever attributes that one has set. *)
Theorem EDData_init_raises (base : outcome (list (string * RParam.rparam num))) :
  EDData.__init__ base
  = match base with
    | Ok _ => Raise TypeError
    | Raise e => Raise e
    end.
Proof. by destruct base. Qed.

End DataClasses.
